(** * The shared insight memory of the patio-bar agents

    A shallow embedding of [memory_manager.py] (class [MemoryManager]) and
    the properties of its store: deduplication, identifier allocation,
    validation of extracted candidates, pruning to the archive, rendering of
    the prompt context, and persistence to the snapshot file.

    Conventions of the embedding.
    - Python [str] values are [string]s, one [ascii] per code point.  The
      characters 0 to 254 are the code points U+0000 to U+00FE; the
      character 255 stands for a lone surrogate (U+DC80, say), a code
      point that a [str] can hold ([json.loads] makes one from the escape
      [\udc80]) and that UTF-8 cannot encode.  The operations on text act
      on it as Python's do on a surrogate: it is no white space, it is its
      own lower case, and it is above every other character.
    - Python [int] values that count things are [nat]; [max_age_days] and
      day ordinals are [Z].
    - The object state ([self.memory], the snapshot file, the log callback,
      the wall clock) is threaded explicitly through a state and exception
      monad. *)

From Stdlib Require Import List String Ascii Bool Arith ZArith NArith Lia.
From Stdlib Require Import Permutation.
From Stdlib Require Import DecimalString DecimalNat.
From Stdlib Require Import Floats.SpecFloat.
Import ListNotations.

#[local] Set Warnings "-register-all".
#[local] Set Warnings "-automation".

Local Open Scope string_scope.

(* ================================================================== *)
(** ** Python text primitives *)
(* ================================================================== *)

Module PyStr.

(** [str.isspace] on one code point below 256: U+0009..U+000D,
    U+001C..U+0020, U+0085 and U+00A0. *)
Definition is_space (c : ascii) : bool :=
  let n := N_of_ascii c in
  (((9 <=? n) && (n <=? 13)) || ((28 <=? n) && (n <=? 32))
   || (n =? 133) || (n =? 160))%N.

(** [str.lower] on one code point below 256: A..Z and the Latin-1 capitals
    U+00C0..U+00DE (the multiplication sign U+00D7 excepted) move up by 32. *)
Definition lower_char (c : ascii) : ascii :=
  let n := N_of_ascii c in
  if (((65 <=? n) && (n <=? 90))
      || ((192 <=? n) && (n <=? 222) && negb (n =? 215)))%N
  then ascii_of_N (n + 32) else c.

(** [s.lower()] *)
Fixpoint lower (s : string) : string :=
  match s with
  | EmptyString => EmptyString
  | String c t => String (lower_char c) (lower t)
  end.

(** [s.lstrip(chars)], the set of characters given as a predicate. *)
Fixpoint lstrip_by (p : ascii -> bool) (s : string) : string :=
  match s with
  | EmptyString => EmptyString
  | String c t => if p c then lstrip_by p t else s
  end.

(** [s.rstrip(chars)], the set of characters given as a predicate. *)
Fixpoint rstrip_by (p : ascii -> bool) (s : string) : string :=
  match s with
  | EmptyString => EmptyString
  | String c t =>
      match rstrip_by p t with
      | EmptyString => if p c then EmptyString else String c EmptyString
      | t' => String c t'
      end
  end.

(** [s.strip()] with no argument removes white space at both ends. *)
Definition strip (s : string) : string :=
  rstrip_by is_space (lstrip_by is_space s).

(** [s.rstrip(".")] *)
Definition rstrip_dot (s : string) : string :=
  rstrip_by (Ascii.eqb ".") s.

(** [s.startswith(p)] *)
Definition startswith (p s : string) : bool := String.prefix p s.

(** [s.endswith(p)] *)
Definition endswith (p s : string) : bool :=
  (String.length p <=? String.length s)%nat
  && String.eqb (substring (String.length s - String.length p)
                           (String.length p) s) p.

(** [s[n:]] for [n >= 0] *)
Definition drop (n : nat) (s : string) : string :=
  substring n (String.length s - n) s.

(** [s[:n]] for [n >= 0] *)
Definition take (n : nat) (s : string) : string :=
  substring 0 (Nat.min n (String.length s)) s.

(** [s[:-n]] for [n > 0] *)
Definition drop_last (n : nat) (s : string) : string :=
  substring 0 (String.length s - n) s.

(** The text after the first line break, [None] when [s] has none:
    [s.split("\n", 1)[1] if "\n" in s]. *)
Fixpoint after_newline (s : string) : option string :=
  match s with
  | EmptyString => None
  | String c t => if Ascii.eqb c "010" then Some t else after_newline t
  end.

(** [sep.join(lines)] *)
Definition join (sep : string) (lines : list string) : string :=
  String.concat sep lines.

(** The string of [k] copies of the character [c]. *)
Fixpoint replicate (k : nat) (c : ascii) : string :=
  match k with
  | O => EmptyString
  | S k' => String c (replicate k' c)
  end.

(** [str(n)] for a non-negative integer. *)
Definition decimal (n : nat) : string :=
  NilEmpty.string_of_uint (Nat.to_uint n).

(** [format(n, "0<w>d")] for a non-negative integer: decimal digits, padded
    on the left with zeros up to width [w]; longer numbers are not cut. *)
Definition zero_pad (w n : nat) : string :=
  let d := decimal n in
  replicate (w - String.length d) "0" ++ d.

(** Comparison of two strings by code points, Python's [<] on [str]. *)
Definition lt (a b : string) : bool := String.ltb a b.

(** The character that stands for a lone surrogate. *)
Definition surrogate : ascii := "255"%char.

(** [s.encode("utf-8")] succeeds: [s] holds no lone surrogate. *)
Fixpoint encodable (s : string) : bool :=
  match s with
  | EmptyString => true
  | String c t => negb (Ascii.eqb c surrogate) && encodable t
  end.

End PyStr.

(* ================================================================== *)
(** ** Values decoded from JSON *)
(* ================================================================== *)

(** What [json.loads] returns: [None], [bool], [int], [float], [str],
    [list] and [dict].  A [dict] is kept as the list of its items in
    insertion order; its keys are distinct. *)
Inductive json : Type :=
| JNull
| JBool (b : bool)
| JInt (z : Z)
| JFloat (f : spec_float)
| JStr (s : string)
| JArr (items : list json)
| JObj (members : list (string * json)).

(** The exceptions that the modelled code can raise. *)
Inductive exn : Type :=
| AttributeError
| TypeError
| KeyError
| OverflowError
| UnicodeEncodeError.

Module Py.

(** Look a key up among the items of a [dict]. *)
Fixpoint lookup (k : string) (kv : list (string * json)) : option json :=
  match kv with
  | [] => None
  | (k', v) :: rest => if String.eqb k k' then Some v else lookup k rest
  end.

(** [d.get(k, default)]: only a [dict] has the method. *)
Definition get (d : json) (k : string) (default : json) : exn + json :=
  match d with
  | JObj kv =>
      inr (match lookup k kv with Some v => v | None => default end)
  | _ => inl AttributeError
  end.

(** [len(v)] *)
Definition len (v : json) : exn + nat :=
  match v with
  | JStr s => inr (String.length s)
  | JArr l => inr (List.length l)
  | JObj kv => inr (List.length kv)
  | _ => inl TypeError
  end.

(** Truth value of a decoded value, as tested by [if] and [and]. *)
Definition truthy (v : json) : bool :=
  match v with
  | JNull => false
  | JBool b => b
  | JInt z => negb (z =? 0)%Z
  | JFloat (S754_zero _) => false
  | JFloat _ => true
  | JStr s => negb (String.eqb s "")
  | JArr l => match l with [] => false | _ => true end
  | JObj kv => match kv with [] => false | _ => true end
  end.

(** [v in names] for a list of strings: only an equal string is found. *)
Definition in_strings (v : json) (names : list string) : bool :=
  match v with
  | JStr s => existsb (String.eqb s) names
  | _ => false
  end.

(** [xs[-n:]] for [n > 0]: the last [n] items, all of them when there are
    fewer. *)
Definition last_n {A} (n : nat) (xs : list A) : list A :=
  skipn (List.length xs - n) xs.

End Py.

(* ================================================================== *)
(** ** Calendar time *)
(* ================================================================== *)

(** A naive [datetime.datetime]: the proleptic Gregorian ordinal of its date
    (1 is 0001-01-01, 3652059 is 9999-12-31) and its time of day. *)
Record Datetime : Type := mkDatetime {
  ordinal : Z;
  hour : nat;
  minute : nat;
  second : nat;
  microsecond : nat
}.

Module Calendar.

Local Open Scope Z_scope.

Definition MAXORDINAL : Z := 3652059.

Definition DAYS_IN_MONTH (m : Z) : Z :=
  nth (Z.to_nat m) [0; 31; 28; 31; 30; 31; 30; 31; 31; 30; 31; 30; 31] 0.

Definition DAYS_BEFORE_MONTH (m : Z) : Z :=
  nth (Z.to_nat m)
      [0; 0; 31; 59; 90; 120; 151; 181; 212; 243; 273; 304; 334] 0.

(** [datetime._ord2ymd]: year, month and day of an ordinal. *)
Definition ord2ymd (n0 : Z) : Z * Z * Z :=
  let n := n0 - 1 in
  let n400 := n / 146097 in
  let n := n mod 146097 in
  let year := n400 * 400 + 1 in
  let n100 := n / 36524 in
  let n := n mod 36524 in
  let n4 := n / 1461 in
  let n := n mod 1461 in
  let n1 := n / 365 in
  let n := n mod 365 in
  let year := year + n100 * 100 + n4 * 4 + n1 in
  if (n1 =? 4) || (n100 =? 4) then (year - 1, 12, 31)
  else
    let leapyear := (n1 =? 3) && (negb (n4 =? 24) || (n100 =? 3)) in
    let month := Z.shiftr (n + 50) 5 in
    let preceding :=
      DAYS_BEFORE_MONTH month
      + (if (2 <? month) && leapyear then 1 else 0) in
    if n <? preceding then
      let month := month - 1 in
      let preceding :=
        preceding
        - (DAYS_IN_MONTH month
           + (if (month =? 2) && leapyear then 1 else 0)) in
      (year, month, n - preceding + 1)
    else (year, month, n - preceding + 1).

(** [d.isoformat()]: date, the letter T, time of day; the microseconds are
    printed only when they are not zero. *)
Definition isoformat (d : Datetime) : string :=
  let '(y, m, dd) := ord2ymd (ordinal d) in
  (PyStr.zero_pad 4 (Z.to_nat y) ++ "-" ++ PyStr.zero_pad 2 (Z.to_nat m)
   ++ "-" ++ PyStr.zero_pad 2 (Z.to_nat dd) ++ "T"
   ++ PyStr.zero_pad 2 (hour d) ++ ":" ++ PyStr.zero_pad 2 (minute d)
   ++ ":" ++ PyStr.zero_pad 2 (second d)
   ++ (if Nat.eqb (microsecond d) 0 then ""
       else "." ++ PyStr.zero_pad 6 (microsecond d)))%string.

(** [d - datetime.timedelta(days=n)]: [None] stands for [OverflowError],
    raised when [n] is outside the range of [timedelta] or when the date
    would leave the years 1..9999. *)
Definition minus_days (d : Datetime) (n : Z) : option Datetime :=
  if Z.abs n <=? 999999999 then
    let o := ordinal d - n in
    if (0 <? o) && (o <=? MAXORDINAL)
    then Some (mkDatetime o (hour d) (minute d) (second d) (microsecond d))
    else None
  else None.

End Calendar.

(* ================================================================== *)
(** ** The data model of the store *)
(* ================================================================== *)

(** The five keys of [VALID_CATEGORIES]. *)
Inductive Category : Type :=
| owner_preferences
| approved_decisions
| rejected_ideas
| operational_notes
| event_history.

Definition cat_name (c : Category) : string :=
  match c with
  | owner_preferences => "owner_preferences"
  | approved_decisions => "approved_decisions"
  | rejected_ideas => "rejected_ideas"
  | operational_notes => "operational_notes"
  | event_history => "event_history"
  end.

Definition cat_eqb (a b : Category) : bool :=
  match a, b with
  | owner_preferences, owner_preferences
  | approved_decisions, approved_decisions
  | rejected_ideas, rejected_ideas
  | operational_notes, operational_notes
  | event_history, event_history => true
  | _, _ => false
  end.

(** The categories in the order of the module constant. *)
Definition CATEGORIES : list Category :=
  [owner_preferences; approved_decisions; rejected_ideas;
   operational_notes; event_history].

Definition VALID_CATEGORIES : list string := map cat_name CATEGORIES.

Definition MAX_ENTRIES_PER_CATEGORY_IN_PROMPT : nat := 5.

(** The category that a key names, if any. *)
Definition cat_of_name (s : string) : option Category :=
  find (fun c => String.eqb s (cat_name c)) CATEGORIES.

(** One stored insight.  [created] is [None] when the key is absent from
    the entry, as it can be in a snapshot written by hand; [confidence]
    holds whatever the extraction service sent. *)
Record Entry : Type := mkEntry {
  id : string;
  content : string;
  source_agent : string;
  created : option string;
  confidence : json
}.

(** An entry of the archive: a copy of the entry and the two keys added
    when it was moved. *)
Record Archived : Type := mkArchived {
  entry_of : Entry;
  original_category : Category;
  archived_on : string
}.

(** The value of [memory["categories"]]: one list per category. *)
Record Categories : Type := mkCategories {
  in_owner_preferences : list Entry;
  in_approved_decisions : list Entry;
  in_rejected_ideas : list Entry;
  in_operational_notes : list Entry;
  in_event_history : list Entry
}.

(** [categories[c]] *)
Definition entries_of (c : Category) (cs : Categories) : list Entry :=
  match c with
  | owner_preferences => in_owner_preferences cs
  | approved_decisions => in_approved_decisions cs
  | rejected_ideas => in_rejected_ideas cs
  | operational_notes => in_operational_notes cs
  | event_history => in_event_history cs
  end.

(** [categories[c] = l] *)
Definition set_entries (c : Category) (l : list Entry) (cs : Categories)
  : Categories :=
  match c with
  | owner_preferences =>
      mkCategories l (in_approved_decisions cs) (in_rejected_ideas cs)
                   (in_operational_notes cs) (in_event_history cs)
  | approved_decisions =>
      mkCategories (in_owner_preferences cs) l (in_rejected_ideas cs)
                   (in_operational_notes cs) (in_event_history cs)
  | rejected_ideas =>
      mkCategories (in_owner_preferences cs) (in_approved_decisions cs) l
                   (in_operational_notes cs) (in_event_history cs)
  | operational_notes =>
      mkCategories (in_owner_preferences cs) (in_approved_decisions cs)
                   (in_rejected_ideas cs) l (in_event_history cs)
  | event_history =>
      mkCategories (in_owner_preferences cs) (in_approved_decisions cs)
                   (in_rejected_ideas cs) (in_operational_notes cs) l
  end.

(** The value of [self.memory]. *)
Record Store : Type := mkStore {
  version : Z;
  last_updated : string;
  categories : Categories;
  archive : list Archived
}.

Definition no_entries : Categories := mkCategories [] [] [] [] [].

(** All active entries of a store, category by category. *)
Definition active_entries (m : Store) : list Entry :=
  flat_map (fun c => entries_of c (categories m)) CATEGORIES.

(** The archived entries that came from category [c]. *)
Definition archived_from (c : Category) (m : Store) : list Archived :=
  filter (fun a => cat_eqb (original_category a) c) (archive m).

(** *** The store as the [dict] that is written to the snapshot *)

Definition entry_members (e : Entry) : list (string * json) :=
  [("id", JStr (id e)); ("content", JStr (content e));
   ("source_agent", JStr (source_agent e))]
  ++ match created e with
     | Some t => [("created", JStr t)]
     | None => []
     end
  ++ [("confidence", confidence e)].

Definition entry_to_json (e : Entry) : json := JObj (entry_members e).

Definition archived_to_json (a : Archived) : json :=
  JObj (entry_members (entry_of a)
        ++ [("original_category", JStr (cat_name (original_category a)));
            ("archived_on", JStr (archived_on a))]).

Definition categories_to_json (cs : Categories) : json :=
  JObj (map (fun c => (cat_name c, JArr (map entry_to_json (entries_of c cs))))
            CATEGORIES).

Definition store_to_json (m : Store) : json :=
  JObj [("version", JInt (version m));
        ("last_updated", JStr (last_updated m));
        ("categories", categories_to_json (categories m));
        ("archive", JArr (map archived_to_json (archive m)))].

(** Every string of the value, the keys included, can be encoded as UTF-8:
    what it takes for [json.dump(v, f, ensure_ascii=False)] to get the
    whole text of [v] into a file opened with [encoding="utf-8"]. *)
Fixpoint writable (v : json) : bool :=
  match v with
  | JStr s => PyStr.encodable s
  | JArr items => forallb writable items
  | JObj members =>
      forallb (fun kv => PyStr.encodable (fst kv) && writable (snd kv))
              members
  | _ => true
  end.

(* ================================================================== *)
(** ** The world around the manager *)
(* ================================================================== *)

(** The levels passed to the log callback. *)
Inductive Level : Type := info | ok | warn | err.

(** The messages that the manager logs, one constructor per call of
    [self.log], with the values that the message text is built from. *)
Inductive Message : Type :=
| LoadingMemory
| LoadedEntries (total : nat)
| ErrorLoadingMemory
| NoMemoryFile
| MemorySaved (total : nat)
| NoEntriesToInject
| ContextBuilt (chars included total : nat)
| StartingExtraction (agent : string)
| NoNewInsights
| SkippingInvalid (candidate : json)
| AllDuplicates
| Stored (c : Category) (text : string)
| CallingExtraction
| ExtractionReturned (candidates : nat)
| ExtractionInvalidJson
| RawResponse (text : string)
| ExtractionFailed
| DedupSkipping (text : string)
| ArchivedOld (c : Category) (text : string)
| PrunedEntries (count : nat) (max_age_days : Z).

(** The snapshot file: absent, present with text that [json.load] rejects
    ([JSONDecodeError]), as is the text that an interrupted [json.dump]
    leaves, or present with the text of a JSON document.  What a completed
    [json.dump] writes is read back by [json.load] as the same value. *)
Inductive Snapshot : Type :=
| NoFile
| BadText
| Document (data : json).

(** What the extraction service does on one call: the call raises (time-outs
    included), or it returns a response whose [text] is [None] or a string. *)
Inductive Reply : Type :=
| ServiceRaises
| Response (text : option string).

(** The state of a manager and of its surroundings: [self.memory], the
    snapshot file, the messages logged so far (oldest first) and the number
    of clock readings taken so far. *)
Record State : Type := mkState {
  memory : Store;
  disk : Snapshot;
  logged : list (Message * Level);
  ticks : nat
}.

(** The result of running a method: it returns a value or raises, and
    either way leaves a state behind. *)
Inductive Outcome (A : Type) : Type :=
| Returned (a : A) (st : State)
| Raised (e : exn) (st : State).

Arguments Returned {A} a st.
Arguments Raised {A} e st.

Definition state_after {A} (o : Outcome A) : State :=
  match o with
  | Returned _ st => st
  | Raised _ st => st
  end.

(** Computations over the state that may raise. *)
Definition M (A : Type) : Type := State -> Outcome A.

Definition ret {A} (a : A) : M A := fun st => Returned a st.

Definition bind {A B} (m : M A) (k : A -> M B) : M B :=
  fun st =>
    match m st with
    | Returned a st' => k a st'
    | Raised e st' => Raised e st'
    end.

Definition raise {A} (e : exn) : M A := fun st => Raised e st.

Declare Scope py_scope.
Delimit Scope py_scope with py.

Notation "x <- m ;; k" := (bind m (fun x => k))
  (at level 61, m at next level, right associativity) : py_scope.
Notation "m ;;; k" := (bind m (fun _ => k))
  (at level 61, right associativity) : py_scope.

Local Open Scope py_scope.

(** Lift a pure computation that may raise. *)
Definition lift {A} (r : exn + A) : M A :=
  match r with
  | inl e => raise e
  | inr a => ret a
  end.

Definition get_memory : M Store := fun st => Returned (memory st) st.

Definition put_memory (m : Store) : M unit :=
  fun st => Returned tt (mkState m (disk st) (logged st) (ticks st)).

Definition read_disk : M Snapshot := fun st => Returned (disk st) st.

Definition write_disk (d : Snapshot) : M unit :=
  fun st => Returned tt (mkState (memory st) d (logged st) (ticks st)).

(** [self.log("MEMORY", text, level)] *)
Definition log (msg : Message) (lvl : Level) : M unit :=
  fun st =>
    Returned tt (mkState (memory st) (disk st) (logged st ++ [(msg, lvl)])
                         (ticks st)).

(** [for x in xs: body(x)] *)
Fixpoint for_each {A} (xs : list A) (body : A -> M unit) : M unit :=
  match xs with
  | [] => ret tt
  | x :: rest => body x ;;; for_each rest body
  end.

(** [d[k]]: a missing key raises [KeyError], and a value that is not a
    [dict] cannot be indexed by a string. *)
Definition subscript (d : json) (k : string) : exn + json :=
  match d with
  | JObj kv =>
      match Py.lookup k kv with
      | Some v => inr v
      | None => inl KeyError
      end
  | _ => inl TypeError
  end.

(** The line break, written [\n] in the source. *)
Definition nl : string := String "010" EmptyString.

(* ================================================================== *)
(** ** The methods of [MemoryManager] *)
(* ================================================================== *)

Section Manager.

(** The wall clock: the value of the [n]-th call of
    [datetime.datetime.now()]. *)
Variable clock : nat -> Datetime.

(** [json.loads]; [None] stands for [JSONDecodeError]. *)
Variable json_loads : string -> option json.

(** [datetime.datetime.now()] *)
Definition now : M Datetime :=
  fun st =>
    Returned (clock (ticks st))
             (mkState (memory st) (disk st) (logged st) (S (ticks st))).

(** [datetime.datetime.now().isoformat()] *)
Definition now_isoformat : M string :=
  d <- now ;; ret (Calendar.isoformat d).

(** *** Persistence *)

Definition _empty_memory : M json :=
  t <- now_isoformat ;;
  ret (JObj [("version", JInt 1);
             ("last_updated", JStr t);
             ("categories",
              JObj (map (fun cat => (cat, JArr [])) VALID_CATEGORIES));
             ("archive", JArr [])]).

(** [sum(len(data.get("categories", {}).get(c, [])) for c in names)] on a
    decoded document. *)
Fixpoint count_loaded (data : json) (names : list string) : exn + nat :=
  match names with
  | [] => inr 0
  | c :: rest =>
      match Py.get data "categories" (JObj []) with
      | inl e => inl e
      | inr cats =>
          match Py.get cats c (JArr []) with
          | inl e => inl e
          | inr v =>
              match Py.len v with
              | inl e => inl e
              | inr n =>
                  match count_loaded data rest with
                  | inl e => inl e
                  | inr k => inr (n + k)
                  end
              end
          end
      end
  end.

(** [sum(len(self.memory["categories"].get(c, [])) for c in
    VALID_CATEGORIES)] *)
Definition total_active (cs : Categories) : nat :=
  list_sum (map (fun c => List.length (entries_of c cs)) CATEGORIES).

(** Only [JSONDecodeError] and [KeyError] are caught around the reading of
    the file; what the counting of the entries raises goes to the caller. *)
Definition load_memory : M json :=
  log LoadingMemory info ;;;
  file <- read_disk ;;
  match file with
  | Document data =>
      total <- lift (count_loaded data VALID_CATEGORIES) ;;
      log (LoadedEntries total) ok ;;;
      ret data
  | BadText =>
      log ErrorLoadingMemory warn ;;;
      log NoMemoryFile info ;;;
      _empty_memory
  | NoFile =>
      log NoMemoryFile info ;;;
      _empty_memory
  end.

(** [json.dump] writes the text of the document piece by piece into the
    file, which [open] has emptied.  The piece of a string with a lone
    surrogate raises [UnicodeEncodeError] when it is encoded; the file is
    then left with the pieces before it, which are no JSON text, and the
    message after the writing is not logged.  The directory and the file
    are taken to be writable. *)
Definition save_memory : M unit :=
  t <- now_isoformat ;;
  m <- get_memory ;;
  put_memory (mkStore (version m) t (categories m) (archive m)) ;;;
  m' <- get_memory ;;
  if writable (store_to_json m')
  then
    write_disk (Document (store_to_json m')) ;;;
    log (MemorySaved (total_active (categories m'))) ok
  else
    write_disk BadText ;;;
    raise UnicodeEncodeError.

(** *** Prompt injection *)

Definition section_map : list (Category * string) :=
  [(owner_preferences, "PREFERENCES");
   (approved_decisions, "APPROVED");
   (rejected_ideas, "VETOED");
   (operational_notes, "OPS NOTES");
   (event_history, "PAST EVENTS")].

Definition context_header : string :=
  nl ++ "--- OWNER MEMORY (Key Insights from Past Interactions) ---".

Definition context_footer : string := "--- END OWNER MEMORY ---" ++ nl.

(** The line of one entry, [f"- {entry['content']}"]. *)
Definition entry_line (entry : Entry) : string := "- " ++ content entry.

(** The line that opens a section, [f"[{label}]"]. *)
Definition label_line (label : string) : string := "[" ++ label ++ "]".

(** The inner loop over the recent entries of one category. *)
Definition append_entry (acc : list string * nat) (entry : Entry)
  : list string * nat :=
  ((fst acc ++ [entry_line entry])%list, S (snd acc)).

(** The body of the loop over [section_map]; the accumulator holds [lines]
    and [included]. *)
Definition append_section (cats : Categories) (acc : list string * nat)
    (item : Category * string) : list string * nat :=
  let entries := entries_of (fst item) cats in
  match entries with
  | [] => acc
  | _ :: _ =>
      let recent := Py.last_n MAX_ENTRIES_PER_CATEGORY_IN_PROMPT entries in
      fold_left append_entry recent
                ((fst acc ++ [label_line (snd item)])%list, snd acc)
  end.

Definition get_memory_context : M string :=
  m <- get_memory ;;
  let cats := categories m in
  let total_entries := total_active cats in
  if Nat.eqb total_entries 0 then
    log NoEntriesToInject info ;;; ret ""
  else
    let acc := fold_left (append_section cats) section_map
                         ([context_header], 0) in
    let lines := (fst acc ++ [context_footer])%list in
    let context := PyStr.join nl lines in
    log (ContextBuilt (String.length context) (snd acc) total_entries) info ;;;
    ret context.

(** *** Deduplication and identifiers *)

(** [text.lower().strip().rstrip(".")], the key that contents are compared
    by. *)
Definition normalized (text : string) : string :=
  PyStr.rstrip_dot (PyStr.strip (PyStr.lower text)).

(** [key in existing_contents] *)
Definition seen (key : string) (existing_contents : list string) : bool :=
  existsb (String.eqb key) existing_contents.

(** The set built by the first loop of [_deduplicate]. *)
Definition existing_contents_of (m : Store) : list string :=
  map (fun e => normalized (content e)) (active_entries m).

(** [v.lower()] exists on a string only. *)
Definition as_text (v : json) : exn + string :=
  match v with
  | JStr s => inr s
  | _ => inl AttributeError
  end.

(** The second loop of [_deduplicate]. *)
Fixpoint dedup_loop (new_entries : list json)
    (existing_contents : list string) (unique : list json)
  : M (list json) :=
  match new_entries with
  | [] => ret unique
  | entry :: rest =>
      v <- lift (subscript entry "content") ;;
      text <- lift (as_text v) ;;
      let key := normalized text in
      if seen key existing_contents then
        log (DedupSkipping (PyStr.take 60 text)) info ;;;
        dedup_loop rest existing_contents unique
      else
        dedup_loop rest (existing_contents ++ [key])%list
                   (unique ++ [entry])%list
  end.

Definition _deduplicate (new_entries : list json) : M (list json) :=
  m <- get_memory ;;
  dedup_loop new_entries (existing_contents_of m) [].

Definition prefix_map (c : Category) : string :=
  match c with
  | owner_preferences => "pref"
  | approved_decisions => "dec"
  | rejected_ideas => "rej"
  | operational_notes => "ops"
  | event_history => "evt"
  end.

(** The number that [_generate_id] prints. *)
Definition next_number (category : Category) (m : Store) : nat :=
  let existing := List.length (entries_of category (categories m)) in
  let archived := List.length (archived_from category m) in
  existing + archived + 1.

Definition _generate_id (category : Category) : M string :=
  m <- get_memory ;;
  ret (prefix_map category ++ "_" ++ PyStr.zero_pad 3 (next_number category m)).

(** *** Pruning *)

(** [entry.get("created", "")] *)
Definition created_or_empty (entry : Entry) : string :=
  match created entry with
  | Some t => t
  | None => ""
  end.

(** [self.memory["archive"].append(archived)] *)
Definition append_archive (a : Archived) : M unit :=
  m <- get_memory ;;
  put_memory (mkStore (version m) (last_updated m) (categories m)
                      (archive m ++ [a])%list).

(** [self.memory["categories"][cat] = keep] *)
Definition assign_category (cat : Category) (keep : list Entry) : M unit :=
  m <- get_memory ;;
  put_memory (mkStore (version m) (last_updated m)
                      (set_entries cat keep (categories m)) (archive m)).

(** The loop over the entries of one category; the accumulators are [keep]
    and [pruned_count]. *)
Fixpoint prune_entries (cat : Category) (cutoff : string)
    (entries keep : list Entry) (pruned_count : nat)
  : M (list Entry * nat) :=
  match entries with
  | [] => ret (keep, pruned_count)
  | entry :: rest =>
      if PyStr.lt (created_or_empty entry) cutoff then
        t <- now_isoformat ;;
        append_archive (mkArchived entry cat t) ;;;
        log (ArchivedOld cat (PyStr.take 60 (content entry))) info ;;;
        prune_entries cat cutoff rest keep (S pruned_count)
      else
        prune_entries cat cutoff rest (keep ++ [entry])%list pruned_count
  end.

(** The loop over the categories. *)
Fixpoint prune_categories (cutoff : string) (cats : list Category)
    (pruned_count : nat) : M nat :=
  match cats with
  | [] => ret pruned_count
  | cat :: rest =>
      m <- get_memory ;;
      r <- prune_entries cat cutoff (entries_of cat (categories m)) []
                         pruned_count ;;
      assign_category cat (fst r) ;;;
      prune_categories cutoff rest (snd r)
  end.

Definition prune_old_entries (max_age_days : Z) : M nat :=
  t <- now ;;
  match Calendar.minus_days t max_age_days with
  | None => raise OverflowError
  | Some d =>
      let cutoff := Calendar.isoformat d in
      pruned_count <- prune_categories cutoff CATEGORIES 0 ;;
      (if Nat.ltb 0 pruned_count
       then log (PrunedEntries pruned_count max_age_days) ok
       else ret tt) ;;;
      ret pruned_count
  end.

(** *** The extraction pipeline *)

(** The text handed to [json.loads]: the reply without surrounding white
    space and without a Markdown code fence. *)
Definition unfenced (text : string) : string :=
  let raw := PyStr.strip text in
  let raw :=
    if PyStr.startswith "```" raw then
      match PyStr.after_newline raw with
      | Some r => r
      | None => PyStr.drop 3 raw
      end
    else raw in
  let raw :=
    if PyStr.endswith "```" raw then PyStr.strip (PyStr.drop_last 3 raw)
    else raw in
  if PyStr.startswith "json" raw then PyStr.strip (PyStr.drop 4 raw)
  else raw.

(** The handler of [except Exception]. *)
Definition extraction_failed : M (list json) :=
  log ExtractionFailed err ;;; ret [].

(** The prompt is built from [user_message], [ai_response] and
    [current_memory_summary] and sent to the service; [reply] is what the
    service does with it. *)
Definition _call_extraction_llm
    (user_message ai_response current_memory_summary : string)
    (reply : Reply) : M (list json) :=
  log CallingExtraction info ;;;
  match reply with
  | ServiceRaises => extraction_failed
  | Response None => extraction_failed
  | Response (Some text) =>
      match json_loads (unfenced text) with
      | None =>
          log ExtractionInvalidJson warn ;;;
          log (RawResponse (PyStr.take 200 text)) warn ;;;
          ret []
      | Some entries =>
          match Py.len entries with
          | inl _ => extraction_failed
          | inr n =>
              log (ExtractionReturned n) info ;;;
              ret (match entries with
                   | JArr l => l
                   | _ => []
                   end)
          end
      end
  end.

(** The test of the validation loop:
    [isinstance(entry, dict) and entry.get("category") in VALID_CATEGORIES
     and entry.get("content") and len(entry["content"]) > 3]. *)
Definition is_valid (entry : json) : exn + bool :=
  match entry with
  | JObj kv =>
      let category :=
        match Py.lookup "category" kv with Some v => v | None => JNull end in
      if Py.in_strings category VALID_CATEGORIES then
        let c :=
          match Py.lookup "content" kv with Some v => v | None => JNull end in
        if Py.truthy c then
          match subscript entry "content" with
          | inl e => inl e
          | inr v =>
              match Py.len v with
              | inl e => inl e
              | inr n => inr (Nat.ltb 3 n)
              end
          end
        else inr false
      else inr false
  | _ => inr false
  end.

(** The validation loop. *)
Fixpoint validate (new_entries valid_entries : list json) : M (list json) :=
  match new_entries with
  | [] => ret valid_entries
  | entry :: rest =>
      v <- lift (is_valid entry) ;;
      if v then validate rest (valid_entries ++ [entry])%list
      else
        log (SkippingInvalid entry) warn ;;;
        validate rest valid_entries
  end.

(** [self.memory["categories"][cat].append(mem_entry)] *)
Definition append_entry_to (cat : Category) (mem_entry : Entry) : M unit :=
  m <- get_memory ;;
  put_memory
    (mkStore (version m) (last_updated m)
             (set_entries cat (entries_of cat (categories m) ++ [mem_entry])%list
                          (categories m))
             (archive m)).

(** The key of [self.memory["categories"]] that a candidate names.  The
    failure branches are not reached by a validated candidate. *)
Definition category_key (v : json) : exn + Category :=
  match v with
  | JStr s =>
      match cat_of_name s with
      | Some c => inr c
      | None => inl KeyError
      end
  | _ => inl KeyError
  end.

(** The body of the storing loop.  A content that is not a string is not
    reached: [_deduplicate] raises on it first. *)
Definition store_entry (source_agent now_text : string) (entry : json)
  : M unit :=
  k <- lift (subscript entry "category") ;;
  cat <- lift (category_key k) ;;
  new_id <- _generate_id cat ;;
  v <- lift (subscript entry "content") ;;
  text <- lift (as_text v) ;;
  conf <- lift (Py.get entry "confidence" (JStr "medium")) ;;
  append_entry_to cat (mkEntry new_id text source_agent (Some now_text) conf) ;;;
  log (Stored cat (PyStr.take 80 text)) ok.

Definition extract_and_store
    (user_message ai_response source_agent : string) (reply : Reply)
  : M unit :=
  log (StartingExtraction source_agent) info ;;;
  current_summary <- get_memory_context ;;
  new_entries <-
    _call_extraction_llm user_message ai_response current_summary reply ;;
  match new_entries with
  | [] => log NoNewInsights info
  | _ :: _ =>
      valid_entries <- validate new_entries [] ;;
      unique_entries <- _deduplicate valid_entries ;;
      match unique_entries with
      | [] => log AllDuplicates info
      | _ :: _ =>
          now_text <- now_isoformat ;;
          for_each unique_entries (store_entry source_agent now_text) ;;;
          save_memory ;;;
          pruned <- prune_old_entries 180 ;;
          if Nat.ltb 0 pruned then save_memory else ret tt
      end
  end.

End Manager.

(* ================================================================== *)
(** ** Notions used to state the properties *)
(* ================================================================== *)

(** The store that [_empty_memory] describes, stamped with [t]. *)
Definition empty_store (t : string) : Store := mkStore 1 t no_entries [].

(** The identifier with number [n] in category [c]. *)
Definition id_text (c : Category) (n : nat) : string :=
  prefix_map c ++ "_" ++ PyStr.zero_pad 3 n.

(** The identifiers that belong to category [c]: those of its active
    entries and those of the archived entries that came from it. *)
Definition ids_in (c : Category) (m : Store) : list string :=
  (map id (entries_of c (categories m))
   ++ map (fun a => id (entry_of a)) (archived_from c m))%list.

(** The key as the specification words it: lower case, trimmed, and one
    trailing period removed. *)
Definition one_period_key (text : string) : string :=
  let t := PyStr.strip (PyStr.lower text) in
  if PyStr.endswith "." t then PyStr.drop_last 1 t else t.

(** The member [k] of a candidate, [None] when the candidate is not an
    object or has no such member. *)
Definition member (k : string) (entry : json) : option json :=
  match entry with
  | JObj kv => Py.lookup k kv
  | _ => None
  end.

(** The candidate names one of the five categories. *)
Definition names_category (entry : json) : bool :=
  match member "category" entry with
  | Some v => Py.in_strings v VALID_CATEGORIES
  | None => false
  end.

(** Acceptance as the code decides it for a candidate with a textual
    content: the text has more than three characters, counted as it is. *)
Definition accepts (entry : json) : bool :=
  names_category entry
  && match member "content" entry with
     | Some (JStr s) => Nat.ltb 3 (String.length s)
     | _ => false
     end.


(** A candidate whose content, when it has one, is a string. *)
Definition textual (entry : json) : Prop :=
  match member "content" entry with
  | Some (JStr _) | None => True
  | Some _ => False
  end.

(** The ways in which a call of the extraction service fails: the call
    raises, the response carries no text, the text is not JSON, or the
    decoded value has no length. *)
Definition service_fails (json_loads : string -> option json) (reply : Reply)
  : Prop :=
  match reply with
  | ServiceRaises => True
  | Response None => True
  | Response (Some text) =>
      match json_loads (unfenced text) with
      | None => True
      | Some v => exists e, Py.len v = inl e
      end
  end.

(** The reply decodes to the list [batch] of candidates. *)
Definition replies_with (json_loads : string -> option json) (reply : Reply)
    (batch : list json) : Prop :=
  exists text,
    reply = Response (Some text)
    /\ json_loads (unfenced text) = Some (JArr batch).

(** The candidate has a textual content whose key is the key of an active
    entry of [m], whatever the category of that entry. *)
Definition repeats_stored (m : Store) (entry : json) : Prop :=
  exists s e,
    member "content" entry = Some (JStr s)
    /\ In e (active_entries m)
    /\ normalized s = normalized (content e).

(** [n] calls of a method in a row. *)
Fixpoint repeatedly (n : nat) (call : M unit) : M unit :=
  match n with
  | O => ret tt
  | S k => call ;;; repeatedly k call
  end.

(** The lines of one section of the context, as a list: nothing for a
    category without entries, else the label and the last five entries,
    oldest first. *)
Definition section_lines (cats : Categories) (item : Category * string)
  : list string :=
  match entries_of (fst item) cats with
  | [] => []
  | es =>
      label_line (snd item)
      :: map entry_line (Py.last_n MAX_ENTRIES_PER_CATEGORY_IN_PROMPT es)
  end.

(** The context as the lines of the sections, joined. *)
Definition render (m : Store) : string :=
  match active_entries m with
  | [] => ""
  | _ :: _ =>
      PyStr.join nl
        ([context_header]
         ++ flat_map (section_lines (categories m)) section_map
         ++ [context_footer])%list
  end.

(** The test of [prune_old_entries] on one entry. *)
Definition older_than (cutoff : string) (entry : Entry) : bool :=
  PyStr.lt (created_or_empty entry) cutoff.

(** The archive records made from [olds], entries of category [c], when
    the clock has been read [k] times before the first of them. *)
Fixpoint stamped (clock : nat -> Datetime) (c : Category) (k : nat)
    (olds : list Entry) : list Archived :=
  match olds with
  | [] => []
  | e :: rest =>
      mkArchived e c (Calendar.isoformat (clock k))
      :: stamped clock c (S k) rest
  end.

(** The archive records that one pruning of the categories [cats] makes. *)
Fixpoint moved (clock : nat -> Datetime) (cutoff : string)
    (cats : list Category) (k : nat) (cs : Categories) : list Archived :=
  match cats with
  | [] => []
  | c :: rest =>
      let olds := filter (older_than cutoff) (entries_of c cs) in
      (stamped clock c k olds
       ++ moved clock cutoff rest (k + List.length olds) cs)%list
  end.

(** The messages that the pruning of one category logs. *)
Definition archived_messages (c : Category) (olds : list Entry)
  : list (Message * Level) :=
  map (fun e => (ArchivedOld c (PyStr.take 60 (content e)), info)) olds.

(** The categories after a pruning: each keeps the entries that are not
    older than the cutoff, in their order. *)
Definition kept (cutoff : string) (cs : Categories) : Categories :=
  let keep c := filter (fun e => negb (older_than cutoff e))
                       (entries_of c cs) in
  mkCategories (keep owner_preferences) (keep approved_decisions)
               (keep rejected_ideas) (keep operational_notes)
               (keep event_history).

(** The state and the count after the pruning of one category. *)
Definition pruned_one (clock : nat -> Datetime) (cutoff : string)
    (acc : State * nat) (c : Category) : State * nat :=
  let st := fst acc in
  let m := memory st in
  let olds := filter (older_than cutoff) (entries_of c (categories m)) in
  (mkState
     (mkStore (version m) (last_updated m)
              (set_entries c
                 (filter (fun e => negb (older_than cutoff e))
                         (entries_of c (categories m)))
                 (categories m))
              (archive m ++ stamped clock c (ticks st) olds)%list)
     (disk st)
     (logged st ++ archived_messages c olds)%list
     (ticks st + List.length olds),
   snd acc + List.length olds).

(** The source category and the entry of an archive record. *)
Definition origin (a : Archived) : Category * Entry :=
  (original_category a, entry_of a).

(** The candidates that [_deduplicate] lets through, when [existing] holds
    the keys seen so far: a candidate passes when its key is new, and its
    key then counts as seen for the candidates after it. *)
Fixpoint fresh_ones (batch : list json) (existing : list string)
  : list json :=
  match batch with
  | [] => []
  | entry :: rest =>
      match member "content" entry with
      | Some (JStr s) =>
          if seen (normalized s) existing
          then fresh_ones rest existing
          else entry :: fresh_ones rest (existing ++ [normalized s])%list
      | _ => fresh_ones rest existing
      end
  end.

(** The identifiers of category [c] are those numbered from 1 to their
    count, in some order. *)
Definition numbered (c : Category) (m : Store) : Prop :=
  Permutation (ids_in c m)
              (map (id_text c) (seq 1 (List.length (ids_in c m)))).

(** A method leaves [self.memory] as it is, whether it returns or
    raises. *)
Definition keeps_memory {A} (call : M A) : Prop :=
  forall st, memory (state_after (call st)) = memory st.

(** A method keeps the numbering of the identifiers of every category. *)
Definition keeps_numbering {A} (call : M A) : Prop :=
  forall st,
    (forall c, numbered c (memory st)) ->
    forall c, numbered c (memory (state_after (call st))).

(** The number that a zero-padded decimal text denotes. *)
Definition value_of (s : string) : option nat :=
  option_map Nat.of_uint (NilEmpty.uint_of_string s).

(** Unfold the plumbing of the monad and of the state. *)
Ltac run_monad :=
  cbv [bind ret raise lift get_memory put_memory read_disk write_disk log
       now now_isoformat append_archive assign_category append_entry_to
       memory disk logged ticks version last_updated categories archive
       fst snd].

(** *** Sample values *)

(** A clock that stands at noon of 2024-04-24 and advances by one
    microsecond per reading. *)
Definition sample_clock (n : nat) : Datetime := mkDatetime 739000 12 0 0 n.

Definition sample_entry (i text : string) (t : option string) : Entry :=
  mkEntry i text "briefing" t (JStr "high").

(** A store with one preference from 2020, one note without [created] and
    seven events of April 2024. *)
Definition sample_store : Store :=
  mkStore 1 "2024-04-24T11:00:00"
    (mkCategories
       [sample_entry "pref_001" "Prefers craft beer over imports"
                     (Some "2020-01-01T09:00:00")]
       [] []
       [sample_entry "ops_001" "Ice machine is serviced monthly" None]
       [sample_entry "evt_001" "Trivia night" (Some "2024-04-01T20:00:00");
        sample_entry "evt_002" "Crab feast" (Some "2024-04-02T20:00:00");
        sample_entry "evt_003" "Open mic" (Some "2024-04-03T20:00:00");
        sample_entry "evt_004" "Bingo" (Some "2024-04-04T20:00:00");
        sample_entry "evt_005" "Jazz trio" (Some "2024-04-05T20:00:00");
        sample_entry "evt_006" "Oyster roast" (Some "2024-04-06T20:00:00");
        sample_entry "evt_007" "Derby party" (Some "2024-04-07T20:00:00")])
    [].

Definition sample_state : State := mkState sample_store NoFile [] 0.

(** A candidate that repeats the stored preference, with a period and in
    capitals, under another category. *)
Definition sample_repeat : json :=
  JObj [("category", JStr "approved_decisions");
        ("content", JStr "PREFERS CRAFT BEER OVER IMPORTS.")].

(** A candidate with something new and no confidence. *)
Definition sample_new : json :=
  JObj [("category", JStr "rejected_ideas");
        ("content", JStr "No karaoke on weeknights")].

(** A candidate whose content is too short. *)
Definition sample_short : json :=
  JObj [("category", JStr "rejected_ideas"); ("content", JStr "No")].

(** A decoder that answers every text with the batch [batch]. *)
Definition sample_loads (batch : list json) (text : string) : option json :=
  Some (JArr batch).

(** The state after one turn, started on the empty store, in which the
    service returned [sample_new]. *)
Definition sample_after_turn : State :=
  state_after
    (extract_and_store sample_clock (sample_loads [sample_new])
       "What about karaoke?" "Noted." "planner" (Response (Some "[...]"))
       (mkState (empty_store "2024-04-24T11:00:00") NoFile [] 0)).

Section Reachability.

Variable clock : nat -> Datetime.
Variable json_loads : string -> option json.

(** One use of the manager: a turn handed to [extract_and_store], or a call
    of [prune_old_entries]; the state is the one left behind, whether the
    method returned or raised. *)
Inductive step : State -> State -> Prop :=
| step_extract (user_message ai_response source_agent : string)
    (reply : Reply) (st : State) :
    step st
         (state_after
            (extract_and_store clock json_loads user_message ai_response
                               source_agent reply st))
| step_prune (max_age_days : Z) (st : State) :
    step st (state_after (prune_old_entries clock max_age_days st)).

(** The states that a manager started on the empty store can be in. *)
Inductive reachable : State -> Prop :=
| reach_empty (t : string) (d : Snapshot) (l : list (Message * Level))
    (k : nat) :
    reachable (mkState (empty_store t) d l k)
| reach_step (st st' : State) :
    reachable st -> step st st' -> reachable st'.

End Reachability.

(* ================================================================== *)
(** ** Further notions *)
(* ================================================================== *)

(** The part of [extract_and_store] that follows the call of the service:
    validation, deduplication, storing, saving and pruning of the
    candidates [new_entries]. *)
Definition store_candidates (clock : nat -> Datetime) (source_agent : string)
    (new_entries : list json) : M unit :=
  (match new_entries with
   | [] => log NoNewInsights info
   | _ :: _ =>
       valid_entries <- validate new_entries [] ;;
       unique_entries <- _deduplicate valid_entries ;;
       match unique_entries with
       | [] => log AllDuplicates info
       | _ :: _ =>
           now_text <- now_isoformat clock ;;
           for_each unique_entries (store_entry source_agent now_text) ;;;
           save_memory clock ;;;
           pruned <- prune_old_entries clock 180 ;;
           if Nat.ltb 0 pruned then save_memory clock else ret tt
       end
   end)%py.

(** The candidates in a decoded reply: the items of a list, nothing for
    any other value. *)
Definition items_of (v : json) : list json :=
  match v with
  | JArr l => l
  | _ => []
  end.

(** The test of the validation loop returns true. *)
Definition passes (entry : json) : bool :=
  match is_valid entry with
  | inr true => true
  | _ => false
  end.

(** The test of the validation loop returns, true or false. *)
Definition checkable (entry : json) : Prop :=
  exists b, is_valid entry = inr b.

(** The key of a candidate: the normalized text of its content, the empty
    string when it has no textual content. *)
Definition candidate_key (entry : json) : string :=
  match member "content" entry with
  | Some (JStr s) => normalized s
  | _ => ""
  end.

(** The candidate has a textual content. *)
Definition has_text (entry : json) : Prop :=
  exists s, member "content" entry = Some (JStr s).

(** No two active entries of the store, of whatever categories, have the
    same key. *)
Definition distinct_keys (m : Store) : Prop :=
  NoDup (existing_contents_of m).

(** A method keeps a property of the store, whether it returns or
    raises. *)
Definition preserves (I : Store -> Prop) {A} (call : M A) : Prop :=
  forall st, I (memory st) -> I (memory (state_after (call st))).

(** What the storing loop relies on: the keys of the store are distinct,
    and the keys of the candidates still to store are distinct, textual
    and none of them a key of the store. *)
Definition storable (m : Store) (pending : list json) : Prop :=
  distinct_keys m
  /\ NoDup (map candidate_key pending)
  /\ Forall (fun entry =>
               has_text entry
               /\ ~ In (candidate_key entry) (existing_contents_of m))
            pending.

(** The store [m'] holds all that [m] holds: the archive of [m] is the
    front of the archive of [m'], and every active entry of [m] is active
    in [m'], in the same category, or is in the archive of [m'] under that
    category. *)
Definition extends (m m' : Store) : Prop :=
  (exists more, archive m' = (archive m ++ more)%list)
  /\ forall c e,
       In e (entries_of c (categories m)) ->
       In e (entries_of c (categories m'))
       \/ exists a, In a (archive m') /\ origin a = (c, e).

(** A method only adds to the store or moves entries to the archive. *)
Definition grows {A} (call : M A) : Prop :=
  forall st, extends (memory st) (memory (state_after (call st))).

Section Reaching.

Variable clock : nat -> Datetime.
Variable json_loads : string -> option json.

(** [reaches st st']: some uses of the manager lead from [st] to [st']. *)
Inductive reaches : State -> State -> Prop :=
| reaches_here (st : State) : reaches st st
| reaches_step (st st' st'' : State) :
    reaches st st' -> step clock json_loads st' st'' -> reaches st st''.

End Reaching.

(** A method touches neither the store, nor the snapshot file, nor the
    clock, whether it returns or raises. *)
Definition quiet {A} (call : M A) : Prop :=
  forall st,
    memory (state_after (call st)) = memory st
    /\ disk (state_after (call st)) = disk st
    /\ ticks (state_after (call st)) = ticks st.

(** Every character of [s] satisfies [p]. *)
Fixpoint every (p : ascii -> bool) (s : string) : bool :=
  match s with
  | EmptyString => true
  | String c t => p c && every p t
  end.

(* ================================================================== *)
(** ** The callers of the manager *)
(* ================================================================== *)

(** The messages that the callers pass to their own log callback. *)
Inductive Note : Type :=
| ExtractionStarting (agent : string)
| ExtractionComplete
| ExtractionError (e : exn)
| UsingSharedMemory
| NoHistoryToInclude
| IncludingLast (entries : nat).

(** The world of a caller: the state of the manager and of its
    surroundings, and what the caller has logged so far. *)
Record World : Type := mkWorld {
  manager_state : State;
  noted : list (Note * Level)
}.

(** A method of a caller returns a value or raises. *)
Inductive Result (A : Type) : Type :=
| Done (a : A) (w : World)
| Failed (e : exn) (w : World).

Arguments Done {A} a w.
Arguments Failed {A} e w.

Definition App (A : Type) : Type := World -> Result A.

Definition app_ret {A} (a : A) : App A := fun w => Done a w.

Definition app_bind {A B} (m : App A) (k : A -> App B) : App B :=
  fun w =>
    match m w with
    | Done a w' => k a w'
    | Failed e w' => Failed e w'
    end.

(** [self._log(category, text, level)] of a caller. *)
Definition note (n : Note) (lvl : Level) : App unit :=
  fun w => Done tt (mkWorld (manager_state w) (noted w ++ [(n, lvl)])%list).

(** A call of a method of the manager. *)
Definition call_manager {A} (call : M A) : App A :=
  fun w =>
    match call (manager_state w) with
    | Returned a st => Done a (mkWorld st (noted w))
    | Raised e st => Failed e (mkWorld st (noted w))
    end.

(** [try: body  except Exception as e: handler(e)]; every exception of the
    model is an [Exception]. *)
Definition try_except {A} (body : App A) (handler : exn -> App A) : App A :=
  fun w =>
    match body w with
    | Done a w' => Done a w'
    | Failed e w' => handler e w'
    end.

(** [ChatbotApp._extract_memory], the target of the background thread. *)
Definition _extract_memory (clock : nat -> Datetime)
    (json_loads : string -> option json)
    (user_text ai_response source_agent : string) (reply : Reply)
  : App unit :=
  try_except
    (app_bind (note (ExtractionStarting source_agent) info) (fun _ =>
     app_bind (call_manager
                 (extract_and_store clock json_loads user_text ai_response
                                    source_agent reply)) (fun _ =>
     note ExtractionComplete ok)))
    (fun e => note (ExtractionError e) warn).

(** One item of the raw history of the party planner; [said] is its
    ["content"]. *)
Record Turn : Type := mkTurn {
  role : string;
  said : string
}.

(** What [get_history_context] reads of a [PartyPlanningAgent]: whether a
    manager is attached, and the raw history. *)
Record Planner : Type := mkPlanner {
  memory_manager : bool;
  history : list Turn
}.

Definition history_header : string :=
  nl ++ nl ++ "--- PAST CONVERSATION HISTORY ---" ++ nl.

Definition history_footer : string := "--- END HISTORY ---" ++ nl ++ nl.

(** The line of one item, [f"{role}: {entry['content']}\n"]. *)
Definition turn_line (entry : Turn) : string :=
  (if String.eqb (role entry) "user" then "User (Owner)" else "AI (Planner)")
  ++ ": " ++ said entry ++ nl.

(** [PartyPlanningAgent.get_history_context] *)
Definition get_history_context (p : Planner) : App string :=
  if memory_manager p then
    app_bind (note UsingSharedMemory info) (fun _ =>
    call_manager get_memory_context)
  else
    match history p with
    | [] => app_bind (note NoHistoryToInclude info) (fun _ => app_ret "")
    | _ :: _ =>
        let context := history_header in
        let recent_history := Py.last_n 10 (history p) in
        app_bind (note (IncludingLast (List.length recent_history)) info)
          (fun _ =>
             let context :=
               fold_left (fun ctx entry => ctx ++ turn_line entry)
                         recent_history context in
             app_ret (context ++ history_footer))
    end.

(** Every active entry of [m'] is an active entry of [m], in the same
    category, or comes from the agent [source] with the stamp [t]. *)
Definition adds_only (source t : string) (m m' : Store) : Prop :=
  forall c e,
    In e (entries_of c (categories m')) ->
    In e (entries_of c (categories m))
    \/ (source_agent e = source /\ created e = Some t).

(** *** Further sample values *)

(** A candidate whose content is a number. *)
Definition sample_number : json :=
  JObj [("category", JStr "rejected_ideas"); ("content", JInt 5)].

(** A candidate whose content is a list of four texts. *)
Definition sample_listed : json :=
  JObj [("category", JStr "event_history");
        ("content",
         JArr [JStr "Trivia"; JStr "Bingo"; JStr "Jazz"; JStr "Derby"])].

(** The entry that the turn of [sample_after_turn] stores. *)
Definition sample_added : Entry :=
  mkEntry "rej_001" "No karaoke on weeknights" "planner"
          (Some "2024-04-24T12:00:00") (JStr "medium").

(** The state in which the turn of [sample_after_turn] starts. *)
Definition sample_start : State :=
  mkState (empty_store "2024-04-24T11:00:00") NoFile [] 0.

(** The state after a pruning of [sample_state]. *)
Definition sample_after_prune : State :=
  state_after (prune_old_entries sample_clock 180 sample_state).

(** A candidate whose content ends in a lone surrogate, as [json.loads]
    makes it from the escape [\udc80]. *)
Definition sample_unencodable : json :=
  JObj [("category", JStr "rejected_ideas");
        ("content", JStr ("No karaoke" ++ String PyStr.surrogate ""))].

(** The state after a turn, started on the empty store, in which the
    service returned [sample_unencodable]. *)
Definition sample_after_bad_turn : State :=
  state_after
    (extract_and_store sample_clock (sample_loads [sample_unencodable])
       "What about karaoke?" "Noted." "planner" (Response (Some "[...]"))
       sample_start).

(** A candidate on which neither the test of the validation loop nor
    [_deduplicate] raises: when it names one of the five categories, its
    content, if it has one, is a string, or a value that counts as false
    ([None], [False], zero, an empty list or object), or a list or an
    object of at most three items.  What is left out is a content that is
    a number other than zero or [True], for which [len] raises, and a list
    or an object of more than three items, which passes the test and has
    no [lower]. *)
Definition plain (entry : json) : Prop :=
  names_category entry = true ->
  match member "content" entry with
  | Some (JStr _) | None => True
  | Some v => Py.truthy v = false \/ exists n, Py.len v = inr n /\ n <= 3
  end.

(** A candidate whose content is [None]. *)
Definition sample_null : json :=
  JObj [("category", JStr "rejected_ideas"); ("content", JNull)].


(** The reply decodes to a JSON value that has a length and is no list: an
    object or a string. *)
Definition replies_with_no_list (json_loads : string -> option json)
    (reply : Reply) : Prop :=
  match reply with
  | Response (Some text) =>
      match json_loads (unfenced text) with
      | Some (JObj _) | Some (JStr _) => True
      | _ => False
      end
  | _ => False
  end.

(** The reply decodes to the list [batch], which has at least one
    candidate, and every candidate is one that the validation judges
    without raising and rejects. *)
Definition replies_with_rejects (json_loads : string -> option json)
    (reply : Reply) (batch : list json) : Prop :=
  replies_with json_loads reply batch
  /\ batch <> []
  /\ Forall plain batch
  /\ Forall (fun entry => accepts entry = false) batch.

(** The messages are all of level [info]. *)
Definition all_info (l : list (Message * Level)) : Prop :=
  Forall (fun ml => snd ml = info) l.

(** *** The context as the specification words it

    These definitions follow the words of the specification of the
    rendering and use none of the definitions of [get_memory_context]. *)

(** The character that ends a line. *)
Definition line_break : string := String (ascii_of_nat 10) EmptyString.

(** The most recent five of a sequence kept in the order of creation:
    the first five from the end, put back in order. *)
Definition most_recent_five {A} (entries : list A) : list A :=
  rev (firstn 5 (rev entries)).

(** One section of the text: nothing for a category without entries, else
    the label in brackets on a line and each of the most recent five
    entries on a line of its own, after a dash. *)
Definition shown_section (label : string) (entries : list Entry) : string :=
  match entries with
  | [] => ""
  | _ :: _ =>
      "[" ++ label ++ "]" ++ line_break
      ++ fold_right (fun entry rest =>
                       "- " ++ content entry ++ line_break ++ rest)
                    "" (most_recent_five entries)
  end.

(** The text for a store: empty when the store has no active entry, else
    the header, the sections of the five categories in the declared order
    and the footer. *)
Definition owner_memory_text (m : Store) : string :=
  let cats := categories m in
  match (in_owner_preferences cats ++ in_approved_decisions cats
         ++ in_rejected_ideas cats ++ in_operational_notes cats
         ++ in_event_history cats)%list with
  | [] => ""
  | _ :: _ =>
      line_break
      ++ "--- OWNER MEMORY (Key Insights from Past Interactions) ---"
      ++ line_break
      ++ shown_section "PREFERENCES" (in_owner_preferences cats)
      ++ shown_section "APPROVED" (in_approved_decisions cats)
      ++ shown_section "VETOED" (in_rejected_ideas cats)
      ++ shown_section "OPS NOTES" (in_operational_notes cats)
      ++ shown_section "PAST EVENTS" (in_event_history cats)
      ++ "--- END OWNER MEMORY ---" ++ line_break
  end.

(** The number of line breaks in a text, [text.count("\n")]. *)
Fixpoint line_breaks (text : string) : nat :=
  match text with
  | EmptyString => 0
  | String c rest =>
      (if Ascii.eqb c (ascii_of_nat 10) then 1 else 0) + line_breaks rest
  end.

(* ================================================================== *)
(** ** The model on concrete values *)
(* ================================================================== *)

Example lower_ex : PyStr.lower "Prefers Craft BEER." = "prefers craft beer.".
Proof. reflexivity. Qed.

Example strip_ex : PyStr.strip "  a b. " = "a b.".
Proof. reflexivity. Qed.

Example rstrip_dot_ex : PyStr.rstrip_dot "abc. .." = "abc. ".
Proof. reflexivity. Qed.

Example zero_pad_ex :
  PyStr.zero_pad 3 7 = "007" /\ PyStr.zero_pad 3 1234 = "1234".
Proof. split; reflexivity. Qed.

Example endswith_ex :
  PyStr.endswith "```" "[]```" = true /\ PyStr.endswith "```" "``" = false.
Proof. split; reflexivity. Qed.

Example isoformat_ex1 :
  Calendar.isoformat (mkDatetime 738886 0 0 0 0) = "2024-01-01T00:00:00".
Proof. reflexivity. Qed.

Example isoformat_ex2 :
  Calendar.isoformat (mkDatetime 1462 0 0 0 5) = "0005-01-01T00:00:00.000005".
Proof. reflexivity. Qed.

Example isoformat_ex3 :
  Calendar.isoformat (mkDatetime 3652059 23 59 59 4999)
  = "9999-12-31T23:59:59.004999".
Proof. reflexivity. Qed.

Example isoformat_ex4 :
  Calendar.isoformat (mkDatetime 738946 13 5 9 120) = "2024-03-01T13:05:09.000120"
  /\ Calendar.isoformat (mkDatetime 738945 0 0 0 0) = "2024-02-29T00:00:00".
Proof. split; reflexivity. Qed.

(* ================================================================== *)
(** ** Text lemmas *)
(* ================================================================== *)

Lemma append_empty_r (s : string) : s ++ "" = s.
Proof.
  induction s as [|c s IH]; simpl; [reflexivity | now rewrite IH].
Qed.

Lemma append_not_empty (s : string) (c : ascii) :
  s ++ String c "" <> "".
Proof.
  destruct s; simpl; discriminate.
Qed.

Lemma append_inv_head (p a b : string) : p ++ a = p ++ b -> a = b.
Proof.
  induction p as [|c p IH]; simpl; intro H.
  - exact H.
  - injection H as H. now apply IH.
Qed.

Lemma length_append (a b : string) :
  String.length (a ++ b) = String.length a + String.length b.
Proof.
  induction a as [|c a IH]; simpl; [reflexivity | now rewrite IH].
Qed.

Lemma length_replicate (k : nat) (c : ascii) :
  String.length (PyStr.replicate k c) = k.
Proof.
  induction k as [|k IH]; simpl; [reflexivity | now rewrite IH].
Qed.

(** What [rstrip(".")] removes is a run of periods. *)
Lemma rstrip_dot_run (s : string) :
  exists k, s = PyStr.rstrip_dot s ++ PyStr.replicate k ".".
Proof.
  unfold PyStr.rstrip_dot.
  induction s as [|c s [k IH]]; cbn [PyStr.rstrip_by].
  - exists 0. reflexivity.
  - destruct (PyStr.rstrip_by (Ascii.eqb ".") s) as [|a r] eqn:E.
    + simpl in IH. destruct (Ascii.eqb "." c) eqn:Ec.
      * apply Ascii.eqb_eq in Ec. subst c.
        exists (S k). simpl. congruence.
      * exists k. simpl. congruence.
    + exists k. simpl in *. congruence.
Qed.

(** What [rstrip(".")] returns does not end with a period. *)
Lemma rstrip_dot_end (s t : string) : PyStr.rstrip_dot s <> t ++ ".".
Proof.
  unfold PyStr.rstrip_dot. revert t.
  induction s as [|c s IH]; intros t; cbn [PyStr.rstrip_by].
  - intro H. symmetry in H. now apply append_not_empty in H.
  - destruct (PyStr.rstrip_by (Ascii.eqb ".") s) as [|a r] eqn:E.
    + destruct (Ascii.eqb "." c) eqn:Ec.
      * intro H. symmetry in H. now apply append_not_empty in H.
      * destruct t as [|c' t]; simpl; intro H.
        -- injection H as H. subst c.
           now rewrite Ascii.eqb_refl in Ec.
        -- injection H as _ H. symmetry in H.
           now apply append_not_empty in H.
    + destruct t as [|c' t]; simpl; intro H.
      * discriminate H.
      * injection H as _ H. now apply (IH t).
Qed.

(* ================================================================== *)
(** ** C4: the key of deduplication *)
(* ================================================================== *)

(** C4, as stated, fails: on a text that ends in two periods the code
    removes both, where the claim keeps one. *)
Lemma normalized_two_periods :
  normalized "Cold beer.." = "cold beer"
  /\ one_period_key "Cold beer.." = "cold beer."
  /\ normalized "Cold beer.." <> one_period_key "Cold beer..".
Proof.
  repeat split; try reflexivity. vm_compute. discriminate.
Qed.

(** C4, amended: for every text, the key is the text in lower case, with
    the white space around it trimmed, and then with every trailing period
    removed: the trimmed lower-case text is the key followed by a run of
    periods, and the key does not end with a period. *)
Theorem normalized_strips_every_period (text : string) :
  normalized text = PyStr.rstrip_dot (PyStr.strip (PyStr.lower text))
  /\ (exists k,
        PyStr.strip (PyStr.lower text)
        = normalized text ++ PyStr.replicate k ".")
  /\ (forall t, normalized text <> t ++ ".").
Proof.
  unfold normalized. split; [reflexivity | split].
  - apply rstrip_dot_run.
  - intro t. apply rstrip_dot_end.
Qed.

(* ================================================================== *)
(** ** C6: the context handed to the prompts *)
(* ================================================================== *)

Lemma length_flat_map {A B} (f : A -> list B) (l : list A) :
  List.length (flat_map f l) = list_sum (map (fun a => List.length (f a)) l).
Proof.
  induction l as [|a l IH]; simpl; [reflexivity|].
  now rewrite List.length_app, IH.
Qed.

Lemma total_active_length (m : Store) :
  total_active (categories m) = List.length (active_entries m).
Proof.
  unfold total_active, active_entries. now rewrite length_flat_map.
Qed.

Lemma fold_append_entry (recent : list Entry) (acc : list string * nat) :
  fold_left append_entry recent acc
  = ((fst acc ++ map entry_line recent)%list,
     snd acc + List.length recent).
Proof.
  revert acc. induction recent as [|e recent IH]; intros [ls n]; simpl.
  - now rewrite app_nil_r, Nat.add_0_r.
  - rewrite IH. simpl. rewrite <- app_assoc. simpl.
    f_equal. lia.
Qed.

Lemma append_section_lines (cats : Categories) (acc : list string * nat)
    (item : Category * string) :
  fst (append_section cats acc item)
  = (fst acc ++ section_lines cats item)%list.
Proof.
  unfold append_section, section_lines.
  destruct (entries_of (fst item) cats) as [|e es].
  - now rewrite app_nil_r.
  - rewrite fold_append_entry. simpl fst. now rewrite <- app_assoc.
Qed.

Lemma fold_append_section (cats : Categories) (items : list (Category * string))
    (acc : list string * nat) :
  fst (fold_left (append_section cats) items acc)
  = (fst acc ++ flat_map (section_lines cats) items)%list.
Proof.
  revert acc. induction items as [|item items IH]; intros acc; simpl.
  - now rewrite app_nil_r.
  - rewrite IH, append_section_lines. now rewrite <- app_assoc.
Qed.

Lemma last_n_length {A} (n : nat) (xs : list A) :
  List.length (Py.last_n n xs) = Nat.min n (List.length xs).
Proof.
  unfold Py.last_n. rewrite List.length_skipn. lia.
Qed.

Lemma last_n_suffix {A} (n : nat) (xs : list A) :
  xs = (firstn (List.length xs - n) xs ++ Py.last_n n xs)%list.
Proof.
  unfold Py.last_n. now rewrite firstn_skipn.
Qed.

Lemma join_header_not_empty (rest : list string) :
  PyStr.join nl (context_header :: rest) <> "".
Proof.
  unfold PyStr.join. destruct rest as [|x rest]; cbn [String.concat].
  - discriminate.
  - unfold context_header, nl. cbn [String.append]. discriminate.
Qed.

(* ================================================================== *)
(** ** What one pruning does *)
(* ================================================================== *)

Section Pruning.

Variable clock : nat -> Datetime.

Lemma length_stamped (c : Category) (k : nat) (olds : list Entry) :
  List.length (stamped clock c k olds) = List.length olds.
Proof.
  revert k. induction olds as [|e olds IH]; intros k; simpl;
    [reflexivity | now rewrite IH].
Qed.

(** The inner loop: the entries that are not older than the cutoff are
    appended to [keep]; the others are counted and appended to the archive,
    each with a reading of the clock. *)
Lemma prune_entries_spec (cat : Category) (cutoff : string)
    (entries keep : list Entry) (n : nat) (st : State) :
  let olds := filter (older_than cutoff) entries in
  let m := memory st in
  prune_entries clock cat cutoff entries keep n st
  = Returned
      ((keep ++ filter (fun e => negb (older_than cutoff e)) entries)%list,
       n + List.length olds)
      (mkState
         (mkStore (version m) (last_updated m) (categories m)
                  (archive m ++ stamped clock cat (ticks st) olds)%list)
         (disk st)
         (logged st ++ archived_messages cat olds)%list
         (ticks st + List.length olds)).
Proof.
  revert keep n st.
  induction entries as [|e entries IH]; intros keep n st.
  - destruct st as [[v lu cs ar] d l k]. simpl.
    unfold ret. now rewrite !app_nil_r, !Nat.add_0_r.
  - cbn [prune_entries filter]. unfold older_than in *.
    destruct (PyStr.lt (created_or_empty e) cutoff) eqn:E.
    + run_monad. rewrite IH.
      cbn [memory disk logged ticks version last_updated categories archive
           negb stamped archived_messages map List.length].
      rewrite <- !app_assoc. cbn [app].
      rewrite !Nat.add_succ_r. reflexivity.
    + rewrite IH. cbn [negb]. rewrite <- app_assoc. reflexivity.
Qed.

Lemma prune_categories_fold (cutoff : string) (cats : list Category)
    (n : nat) (st : State) :
  prune_categories clock cutoff cats n st
  = Returned (snd (fold_left (pruned_one clock cutoff) cats (st, n)))
             (fst (fold_left (pruned_one clock cutoff) cats (st, n))).
Proof.
  revert n st. induction cats as [|c cats IH]; intros n st.
  - reflexivity.
  - cbn [prune_categories fold_left].
    run_monad. rewrite prune_entries_spec. run_monad.
    rewrite IH. reflexivity.
Qed.

Lemma length_moved (cutoff : string) (cats : list Category) (k : nat)
    (cs : Categories) :
  List.length (moved clock cutoff cats k cs)
  = list_sum (map (fun c => List.length
                              (filter (older_than cutoff) (entries_of c cs)))
                  cats).
Proof.
  revert k. induction cats as [|c cats IH]; intros k; simpl.
  - reflexivity.
  - now rewrite List.length_app, length_stamped, IH.
Qed.

(** A pruning whose cutoff exists returns the number of records that it
    appended to the archive, and leaves each category with the entries that
    are not older than the cutoff. *)
Lemma prune_old_entries_returns (max_age_days : Z) (st : State)
    (d : Datetime) :
  Calendar.minus_days (clock (ticks st)) max_age_days = Some d ->
  let m := memory st in
  let cutoff := Calendar.isoformat d in
  let mv := moved clock cutoff CATEGORIES (S (ticks st)) (categories m) in
  exists l',
    prune_old_entries clock max_age_days st
    = Returned (List.length mv)
        (mkState
           (mkStore (version m) (last_updated m) (kept cutoff (categories m))
                    (archive m ++ mv)%list)
           (disk st) (logged st ++ l')%list
           (S (ticks st) + List.length mv)).
Proof.
  destruct st as [[v lu [l1 l2 l3 l4 l5] ar] dk lg k].
  cbn [memory disk logged ticks version last_updated categories archive].
  intros H. cbv zeta.
  set (cutoff := Calendar.isoformat d).
  unfold prune_old_entries. run_monad. rewrite H.
  rewrite prune_categories_fold. fold cutoff.
  unfold CATEGORIES, kept, pruned_one.
  cbn [fold_left moved memory disk logged ticks version last_updated
       categories archive fst snd entries_of set_entries
       in_owner_preferences in_approved_decisions in_rejected_ideas
       in_operational_notes in_event_history].
  set (o1 := filter (older_than cutoff) l1).
  set (o2 := filter (older_than cutoff) l2).
  set (o3 := filter (older_than cutoff) l3).
  set (o4 := filter (older_than cutoff) l4).
  set (o5 := filter (older_than cutoff) l5).
  rewrite !List.length_app, !length_stamped. cbn [List.length].
  rewrite !app_nil_r, !Nat.add_0_r, !Nat.add_0_l.
  rewrite <- !app_assoc.
  replace (List.length o1 + List.length o2 + List.length o3
           + List.length o4 + List.length o5)
    with (List.length o1 + (List.length o2 + (List.length o3
           + (List.length o4 + List.length o5)))) by lia.
  replace (S k + List.length o1 + List.length o2 + List.length o3
           + List.length o4 + List.length o5)
    with (S k + (List.length o1 + (List.length o2 + (List.length o3
           + (List.length o4 + List.length o5))))) by lia.
  destruct (Nat.ltb 0 _); run_monad.
  - eexists. rewrite <- !app_assoc. reflexivity.
  - exists (archived_messages owner_preferences o1
            ++ archived_messages approved_decisions o2
            ++ archived_messages rejected_ideas o3
            ++ archived_messages operational_notes o4
            ++ archived_messages event_history o5)%list.
    reflexivity.
Qed.

(** A pruning whose cutoff does not exist raises before it touches the
    store. *)
Lemma prune_old_entries_overflow (max_age_days : Z) (st : State) :
  Calendar.minus_days (clock (ticks st)) max_age_days = None ->
  prune_old_entries clock max_age_days st
  = Raised OverflowError
           (mkState (memory st) (disk st) (logged st) (S (ticks st))).
Proof.
  destruct st as [m dk lg k]. cbn [memory disk logged ticks]. intro H.
  unfold prune_old_entries. run_monad. now rewrite H.
Qed.

End Pruning.

(* ================================================================== *)
(** ** C5 and C10: pruning to the archive *)
(* ================================================================== *)

Section PruningClaims.

Variable clock : nat -> Datetime.

Lemma origin_stamped (c : Category) (k : nat) (olds : list Entry) :
  map origin (stamped clock c k olds) = map (pair c) olds.
Proof.
  revert k. induction olds as [|e olds IH]; intros k; simpl;
    [reflexivity | now rewrite IH].
Qed.

Lemma origin_moved (cutoff : string) (cats : list Category) (k : nat)
    (cs : Categories) :
  map origin (moved clock cutoff cats k cs)
  = flat_map (fun c => map (pair c)
                           (filter (older_than cutoff) (entries_of c cs)))
             cats.
Proof.
  revert k. induction cats as [|c cats IH]; intros k; simpl.
  - reflexivity.
  - now rewrite map_app, origin_stamped, IH.
Qed.

Lemma stamped_reading (c : Category) (k : nat) (olds : list Entry)
    (a : Archived) :
  In a (stamped clock c k olds) ->
  exists j, k <= j < k + List.length olds
            /\ archived_on a = Calendar.isoformat (clock j).
Proof.
  revert k. induction olds as [|e olds IH]; intros k; simpl.
  - intros [].
  - intros [<- | H].
    + exists k. simpl. split; [lia | reflexivity].
    + destruct (IH _ H) as [j [Hj Ha]]. exists j. split; [lia | exact Ha].
Qed.

Lemma moved_reading (cutoff : string) (cats : list Category) (k : nat)
    (cs : Categories) (a : Archived) :
  In a (moved clock cutoff cats k cs) ->
  exists j, k <= j < k + List.length (moved clock cutoff cats k cs)
            /\ archived_on a = Calendar.isoformat (clock j).
Proof.
  revert k. induction cats as [|c cats IH]; intros k; simpl.
  - intros [].
  - rewrite List.length_app, length_stamped. intro H.
    apply in_app_or in H. destruct H as [H | H].
    + destruct (stamped_reading _ _ _ _ H) as [j [Hj Ha]].
      exists j. split; [lia | exact Ha].
    + destruct (IH _ H) as [j [Hj Ha]].
      exists j. split; [lia | exact Ha].
Qed.

Lemma entries_of_kept (cutoff : string) (cs : Categories) (c : Category) :
  entries_of c (kept cutoff cs)
  = filter (fun e => negb (older_than cutoff e)) (entries_of c cs).
Proof.
  destruct c; reflexivity.
Qed.

(** C5, as stated, fails for a [max_age_days] that takes the cutoff out of
    the years 1..9999: the subtraction raises [OverflowError], and the
    pruning returns no count. *)
Lemma prune_raises_on_distant_cutoff :
  let clk := fun _ : nat => mkDatetime 739000 12 0 0 0 in
  let e := mkEntry "pref_001" "Prefers craft beer" "briefing"
                   (Some "2020-01-01T00:00:00") (JStr "high") in
  let st := mkState
              (mkStore 1 "2024-04-24T11:00:00"
                       (set_entries owner_preferences [e] no_entries) [])
              NoFile [] 0 in
  prune_old_entries clk 1000000 st
  = Raised OverflowError (mkState (memory st) NoFile [] 1)
  /\ ~ exists n st', prune_old_entries clk 1000000 st = Returned n st'.
Proof.
  cbv zeta. split.
  - reflexivity.
  - intros [n [st' H]]. vm_compute in H. discriminate H.
Qed.

(** C5, amended: for every store and every [max_age_days] for which
    [now - max_age_days] is a date of the years 1..9999, the pruning returns
    the number of records that it appends to the archive.  Each category
    keeps, in their order, exactly the entries whose [created] is not below
    the cutoff; the records appended are exactly the other entries, each
    with its source category as [original_category] and a reading of the
    clock taken during the call as [archived_on]; what the archive held
    before stays in front, untouched. *)
Theorem prune_moves_old_entries (max_age_days : Z) (st : State)
    (d : Datetime) :
  Calendar.minus_days (clock (ticks st)) max_age_days = Some d ->
  let cutoff := Calendar.isoformat d in
  exists st' records,
    prune_old_entries clock max_age_days st
    = Returned (List.length records) st'
    /\ (forall c,
          entries_of c (categories (memory st'))
          = filter (fun e => negb (older_than cutoff e))
                   (entries_of c (categories (memory st))))
    /\ archive (memory st') = (archive (memory st) ++ records)%list
    /\ map origin records
       = flat_map
           (fun c => map (pair c)
                         (filter (older_than cutoff)
                                 (entries_of c (categories (memory st)))))
           CATEGORIES
    /\ (forall a, In a records ->
          exists j, ticks st < j < ticks st'
                    /\ archived_on a = Calendar.isoformat (clock j))
    /\ version (memory st') = version (memory st)
    /\ last_updated (memory st') = last_updated (memory st)
    /\ disk st' = disk st.
Proof.
  intros H cutoff.
  destruct (prune_old_entries_returns clock max_age_days st d H) as [l' E].
  fold cutoff in E.
  eexists. eexists. split; [exact E|].
  cbn [memory disk logged ticks version last_updated categories archive].
  repeat split.
  - intro c. apply entries_of_kept.
  - apply origin_moved.
  - intros a Ha. destruct (moved_reading _ _ _ _ _ Ha) as [j [Hj E']].
    exists j. split; [lia | exact E'].
Qed.

Lemma append_cons_not_empty (a b : string) (c : ascii) :
  a ++ String c b <> "".
Proof.
  destruct a; simpl; discriminate.
Qed.

(** An ISO text is never empty, so the empty string is below it. *)
Lemma empty_below_isoformat (d : Datetime) :
  PyStr.lt "" (Calendar.isoformat d) = true.
Proof.
  unfold Calendar.isoformat.
  destruct (Calendar.ord2ymd (ordinal d)) as [[y m] dd].
  cbn [String.append].
  match goal with
  | |- PyStr.lt "" (?a ++ String ?c ?b) = true =>
      pose proof (append_cons_not_empty a b c) as H;
      destruct (a ++ String c b)
  end.
  - now contradiction H.
  - reflexivity.
Qed.

(** C10, as stated, fails for a [max_age_days] that takes the cutoff out of
    the years 1..9999: the pruning raises, and the entry without [created]
    stays among the active entries. *)
Lemma entry_without_created_survives_overflow :
  let clk := fun _ : nat => mkDatetime 739000 12 0 0 0 in
  let e := mkEntry "ops_001" "Ice machine is serviced monthly" "briefing"
                   None (JStr "medium") in
  let st := mkState
              (mkStore 1 "2024-04-24T11:00:00"
                       (set_entries operational_notes [e] no_entries) [])
              NoFile [] 0 in
  let st' := state_after (prune_old_entries clk 1000000 st) in
  prune_old_entries clk 1000000 st = Raised OverflowError st'
  /\ entries_of operational_notes (categories (memory st')) = [e]
  /\ archive (memory st') = [].
Proof.
  cbv zeta. repeat split.
Qed.

(** C10, amended: the pruning compares [created], taken as the empty
    string when the key is missing, with the ISO text of the cutoff by the
    order of strings.  The empty string is below every ISO text, so for
    every [max_age_days] for which [now - max_age_days] is a date of the
    years 1..9999 an active entry without [created] leaves its category and
    is in the archive, under its category, after the pruning. *)
Theorem entry_without_created_is_archived (max_age_days : Z) (st : State)
    (d : Datetime) (c : Category) (e : Entry) :
  Calendar.minus_days (clock (ticks st)) max_age_days = Some d ->
  In e (entries_of c (categories (memory st))) ->
  created e = None ->
  older_than (Calendar.isoformat d) e
  = String.ltb "" (Calendar.isoformat d)
  /\ older_than (Calendar.isoformat d) e = true
  /\ exists n st',
       prune_old_entries clock max_age_days st = Returned n st'
       /\ ~ In e (entries_of c (categories (memory st')))
       /\ exists a, In a (archive (memory st'))
                    /\ entry_of a = e /\ original_category a = c.
Proof.
  intros H Hin Hc.
  assert (Hold : older_than (Calendar.isoformat d) e = true).
  { unfold older_than, created_or_empty. rewrite Hc.
    apply empty_below_isoformat. }
  split; [|split; [exact Hold|]].
  - unfold older_than, created_or_empty, PyStr.lt. now rewrite Hc.
  - destruct (prune_old_entries_returns clock max_age_days st d H) as [l' E].
    eexists. eexists. split; [exact E|].
    cbn [memory disk logged ticks version last_updated categories archive].
    split.
    + rewrite entries_of_kept. intro Hk. apply filter_In in Hk.
      destruct Hk as [_ Hk]. now rewrite Hold in Hk.
    + assert (Hm : In (c, e)
                      (map origin
                           (moved clock (Calendar.isoformat d) CATEGORIES
                                  (S (ticks st)) (categories (memory st))))).
      { rewrite origin_moved. apply in_flat_map. exists c. split.
        - destruct c; simpl; tauto.
        - apply in_map. apply filter_In. split; assumption. }
      apply in_map_iff in Hm. destruct Hm as [a [Ha Hin']].
      exists a. split.
      * apply in_or_app. right. exact Hin'.
      * unfold origin in Ha. now inversion Ha.
Qed.

End PruningClaims.

(* ================================================================== *)
(** ** C8 and C9: the snapshot file *)
(* ================================================================== *)

Lemma map_injective {A B} (f : A -> B) :
  (forall a a', f a = f a' -> a = a') ->
  forall l l', map f l = map f l' -> l = l'.
Proof.
  intros Hf l. induction l as [|a l IH]; intros [|a' l'] H; simpl in H;
    try discriminate H; [reflexivity|].
  injection H as Ha Hl. f_equal; [now apply Hf | now apply IH].
Qed.

Lemma cat_name_injective (c c' : Category) : cat_name c = cat_name c' -> c = c'.
Proof.
  destruct c, c'; simpl; intro H; try reflexivity; discriminate H.
Qed.

Lemma entry_to_json_injective (e e' : Entry) :
  entry_to_json e = entry_to_json e' -> e = e'.
Proof.
  destruct e as [i c s [t|] f], e' as [i' c' s' [t'|] f'];
    unfold entry_to_json, entry_members; simpl; intro H;
    inversion H; subst; reflexivity.
Qed.

Lemma archived_to_json_injective (a a' : Archived) :
  archived_to_json a = archived_to_json a' -> a = a'.
Proof.
  destruct a as [[i c s [t|] f] oc ao], a' as [[i' c' s' [t'|] f'] oc' ao'];
    unfold archived_to_json, entry_members; simpl; intro H;
    inversion H; subst;
    match goal with
    | Hc : cat_name _ = cat_name _ |- _ =>
        apply cat_name_injective in Hc; subst; reflexivity
    end.
Qed.

(** The snapshot determines the store: two stores with the same document
    are equal. *)
Lemma store_to_json_injective (m m' : Store) :
  store_to_json m = store_to_json m' -> m = m'.
Proof.
  destruct m as [v lu [l1 l2 l3 l4 l5] ar],
           m' as [v' lu' [k1 k2 k3 k4 k5] ar'].
  unfold store_to_json, categories_to_json. simpl. intro H.
  inversion H as [[Hv Hlu H1 H2 H3 H4 H5 Har]].
  apply (map_injective _ entry_to_json_injective) in H1, H2, H3, H4, H5.
  apply (map_injective _ archived_to_json_injective) in Har.
  now subst.
Qed.

(** The counting of [load_memory] succeeds on the document of a store. *)
Lemma count_loaded_store (m : Store) :
  count_loaded (store_to_json m) VALID_CATEGORIES
  = inr (total_active (categories m)).
Proof.
  destruct m as [v lu [l1 l2 l3 l4 l5] ar].
  unfold total_active. simpl. now rewrite !length_map.
Qed.

(** What [_empty_memory] builds is the document of the empty store. *)
Lemma empty_memory_is_empty_store (clock : nat -> Datetime) (st : State) :
  _empty_memory clock st
  = Returned (store_to_json (empty_store
                               (Calendar.isoformat (clock (ticks st)))))
             (mkState (memory st) (disk st) (logged st) (S (ticks st))).
Proof.
  reflexivity.
Qed.

(** C8: without a file, [load_memory] returns the document of the empty
    store (version 1, five empty categories, empty archive); with a file
    that is not JSON it logs a warning and returns the same, and nothing of
    the file gets into the result.  But a file that holds JSON other than
    an object makes [load_memory] raise: on [[]] the call of [get] raises
    [AttributeError], which the handler for [JSONDecodeError] and
    [KeyError] does not catch. *)
Theorem load_memory_on_three_files (clock : nat -> Datetime) (m : Store)
    (l : list (Message * Level)) (k : nat) :
  let fresh :=
    store_to_json (empty_store (Calendar.isoformat (clock k))) in
  load_memory clock (mkState m NoFile l k)
  = Returned fresh
      (mkState m NoFile
               (l ++ [(LoadingMemory, info); (NoMemoryFile, info)])%list
               (S k))
  /\ load_memory clock (mkState m BadText l k)
     = Returned fresh
         (mkState m BadText
                  (l ++ [(LoadingMemory, info); (ErrorLoadingMemory, warn);
                         (NoMemoryFile, info)])%list
                  (S k))
  /\ load_memory clock (mkState m (Document (JArr [])) l k)
     = Raised AttributeError
         (mkState m (Document (JArr [])) (l ++ [(LoadingMemory, info)])%list
                  k).
Proof.
  cbv zeta. unfold load_memory. run_monad. cbn [_empty_memory].
  repeat split; unfold _empty_memory; run_monad;
    rewrite <- ?app_assoc; reflexivity.
Qed.

(** *** Text that UTF-8 can encode *)

Lemma encodable_append (a b : string) :
  PyStr.encodable (a ++ b) = PyStr.encodable a && PyStr.encodable b.
Proof.
  induction a as [|c a IH]; cbn [String.append PyStr.encodable].
  - reflexivity.
  - now rewrite IH, andb_assoc.
Qed.

Lemma encodable_replicate (k : nat) (c : ascii) :
  Ascii.eqb c PyStr.surrogate = false ->
  PyStr.encodable (PyStr.replicate k c) = true.
Proof.
  intro H. induction k as [|k IH]; cbn [PyStr.replicate PyStr.encodable].
  - reflexivity.
  - now rewrite H, IH.
Qed.

Lemma encodable_digits (u : Decimal.uint) :
  PyStr.encodable (NilEmpty.string_of_uint u) = true.
Proof.
  induction u; cbn [NilEmpty.string_of_uint PyStr.encodable];
    try reflexivity; rewrite IHu; reflexivity.
Qed.

Lemma encodable_zero_pad (w n : nat) :
  PyStr.encodable (PyStr.zero_pad w n) = true.
Proof.
  unfold PyStr.zero_pad, PyStr.decimal. cbv zeta.
  rewrite encodable_append, encodable_digits, encodable_replicate;
    reflexivity.
Qed.

(** The text of a time stamp can always be encoded. *)
Lemma encodable_isoformat (d : Datetime) :
  PyStr.encodable (Calendar.isoformat d) = true.
Proof.
  unfold Calendar.isoformat.
  destruct (Calendar.ord2ymd (ordinal d)) as [[y m] dd].
  rewrite !encodable_append, !encodable_zero_pad.
  destruct (Nat.eqb (microsecond d) 0).
  - reflexivity.
  - now rewrite encodable_append, encodable_zero_pad.
Qed.

(** The two ways in which [save_memory] ends: it stamps the store in both;
    it then writes the document and returns, or leaves a file that is no
    JSON text and raises. *)
Lemma save_memory_cases (clock : nat -> Datetime) (st : State) :
  let m' :=
    mkStore (version (memory st)) (Calendar.isoformat (clock (ticks st)))
            (categories (memory st)) (archive (memory st)) in
  save_memory clock st
  = if writable (store_to_json m')
    then Returned tt
           (mkState m' (Document (store_to_json m'))
                    (logged st
                     ++ [(MemorySaved (total_active (categories (memory st))),
                          ok)])%list
                    (S (ticks st)))
    else Raised UnicodeEncodeError
           (mkState m' BadText (logged st) (S (ticks st))).
Proof.
  destruct st as [m dk lg k]. cbv zeta. unfold save_memory. run_monad.
  destruct (writable _); reflexivity.
Qed.

(** Whether it returns or raises, [save_memory] leaves the store with a
    new stamp and nothing else changed. *)
Lemma save_memory_memory (clock : nat -> Datetime) (st : State) :
  memory (state_after (save_memory clock st))
  = mkStore (version (memory st)) (Calendar.isoformat (clock (ticks st)))
            (categories (memory st)) (archive (memory st)).
Proof.
  rewrite save_memory_cases. cbv zeta.
  destruct (writable _); reflexivity.
Qed.

(** Stamping keeps a store writable. *)
Lemma writable_stamped (m : Store) (d : Datetime) :
  writable (store_to_json m) = true ->
  writable (store_to_json
              (mkStore (version m) (Calendar.isoformat d) (categories m)
                       (archive m)))
  = true.
Proof.
  unfold store_to_json.
  cbn [writable forallb fst snd PyStr.encodable version last_updated
       categories archive].
  rewrite encodable_isoformat.
  destruct (PyStr.encodable (last_updated m)); [|discriminate].
  cbn [andb negb Ascii.eqb]. trivial.
Qed.

(** C9, as stated, fails, in two ways.  [save_memory] stamps
    [last_updated] before it writes, so what is read back differs from the
    store before the save whenever the clock has moved on.  And a
    reachable store can hold a text that UTF-8 cannot encode: after a turn
    in which the service returned a content with a lone surrogate,
    [save_memory] raises and leaves a file that is no JSON text, and the
    load that follows returns the empty store. *)
Lemma saved_store_differs_when_loaded :
  (let clk := fun n : nat => mkDatetime 739000 12 0 0 n in
   let jl := fun _ : string => @None json in
   let st := mkState (empty_store (Calendar.isoformat (clk 0))) NoFile [] 1 in
   reachable clk jl st
   /\ exists j st',
        load_memory clk (state_after (save_memory clk st)) = Returned j st'
        /\ j <> store_to_json (memory st))
  /\ reachable sample_clock (sample_loads [sample_unencodable])
               sample_after_bad_turn
  /\ exists st1 st2,
       save_memory sample_clock sample_after_bad_turn
       = Raised UnicodeEncodeError st1
       /\ disk st1 = BadText
       /\ load_memory sample_clock st1
          = Returned (store_to_json (empty_store "2024-04-24T12:00:00.000003"))
                     st2
       /\ entries_of rejected_ideas (categories (memory sample_after_bad_turn))
          <> [].
Proof.
  split; [|split].
  - cbv zeta. split.
    + apply reach_empty.
    + eexists. eexists. split.
      * reflexivity.
      * vm_compute. discriminate.
  - unfold sample_after_bad_turn, sample_start. eapply reach_step.
    + apply reach_empty.
    + apply step_extract.
  - eexists. eexists. split; [vm_compute; reflexivity|].
    split; [reflexivity|]. split; [vm_compute; reflexivity|].
    vm_compute. discriminate.
Qed.

(** C9, amended: for every state of the store in which every text can be
    encoded as UTF-8, the reachable ones among them, a save followed by a
    load returns the document of the store as it is in memory after the
    save, that is the store before the save with [last_updated] set to the
    time of the save; version, categories and archive are those before the
    save, and no other store has that document. *)
Theorem save_then_load_round_trip (clock : nat -> Datetime) (st : State) :
  writable (store_to_json (memory st)) = true ->
  exists st1 st2,
    save_memory clock st = Returned tt st1
    /\ load_memory clock st1 = Returned (store_to_json (memory st1)) st2
    /\ memory st1
       = mkStore (version (memory st))
                 (Calendar.isoformat (clock (ticks st)))
                 (categories (memory st)) (archive (memory st))
    /\ memory st2 = memory st1
    /\ forall m', store_to_json m' = store_to_json (memory st1) ->
                  m' = memory st1.
Proof.
  intro Hw.
  pose proof (save_memory_cases clock st) as E. cbv zeta in E.
  rewrite (writable_stamped _ (clock (ticks st)) Hw) in E.
  eexists. eexists. split; [exact E|].
  cbn [memory disk logged ticks].
  split; [|split; [reflexivity | split; [|intros m'; apply store_to_json_injective]]].
  - unfold load_memory. run_monad. rewrite count_loaded_store. reflexivity.
  - reflexivity.
Qed.

(* ================================================================== *)
(** ** C7: a failing extraction service *)
(* ================================================================== *)

(** Building the context only logs. *)
Lemma get_memory_context_frame (st : State) :
  exists l',
    get_memory_context st
    = Returned (render (memory st))
               (mkState (memory st) (disk st) (logged st ++ l')%list
                        (ticks st)).
Proof.
  destruct st as [m dk lg k].
  unfold get_memory_context, render, bind, get_memory.
  cbn [memory disk logged ticks].
  rewrite total_active_length.
  destruct (active_entries m) as [|e es] eqn:E.
  - eexists. reflexivity.
  - cbn [List.length Nat.eqb]. unfold log, ret, bind.
    cbn [memory disk logged ticks].
    rewrite fold_append_section. cbn [fst]. rewrite <- app_assoc.
    eexists. reflexivity.
Qed.

Section Extraction.

Variable clock : nat -> Datetime.
Variable json_loads : string -> option json.

(** A failing call yields no candidate, logs the failure at level [warn]
    or [err], and touches nothing else. *)
Lemma failed_call_returns_nothing (u a summary : string) (reply : Reply)
    (st : State) :
  service_fails json_loads reply ->
  exists l',
    _call_extraction_llm json_loads u a summary reply st
    = Returned [] (mkState (memory st) (disk st) (logged st ++ l')%list
                           (ticks st))
    /\ (In (ExtractionFailed, err) l'
        \/ In (ExtractionInvalidJson, warn) l').
Proof.
  destruct st as [m dk lg k]. unfold service_fails, _call_extraction_llm.
  destruct reply as [|[text|]].
  - intros _. unfold extraction_failed. run_monad.
    rewrite <- app_assoc. eexists. split; [reflexivity|]. left. simpl. tauto.
  - destruct (json_loads (unfenced text)) as [v|].
    + intros [e He]. rewrite He. unfold extraction_failed. run_monad.
      rewrite <- app_assoc. eexists. split; [reflexivity|].
      left. simpl. tauto.
    + intros _. run_monad. rewrite <- !app_assoc.
      eexists. split; [reflexivity|]. right. simpl. tauto.
  - intros _. unfold extraction_failed. run_monad.
    rewrite <- app_assoc. eexists. split; [reflexivity|]. left. simpl. tauto.
Qed.

(** When the call of the extraction service fails (it raises, as on a
    time-out, or its response has no text, or the text is not JSON, or the
    decoded value has no length), [extract_and_store] returns, touches
    nothing but the log, and logs the failure at level [warn] or [err]. *)
Lemma extract_of_failing_call
    (user_message ai_response source_agent : string) (reply : Reply)
    (st : State) :
  service_fails json_loads reply ->
  exists l',
    extract_and_store clock json_loads user_message ai_response source_agent
                      reply st
    = Returned tt
        (mkState (memory st) (disk st) (logged st ++ l')%list (ticks st))
    /\ (In (ExtractionFailed, err) l'
        \/ In (ExtractionInvalidJson, warn) l').
Proof.
  intro Hf. unfold extract_and_store.
  unfold bind at 1. unfold log at 1.
  unfold bind at 1.
  destruct (get_memory_context_frame
              (mkState (memory st) (disk st)
                       (logged st ++ [(StartingExtraction source_agent, info)])
                       (ticks st))) as [l1 E1].
  rewrite E1. clear E1.
  cbn [memory disk logged ticks].
  unfold bind at 1.
  match goal with
  | |- context [_call_extraction_llm _ _ _ ?s _ ?st0] =>
      destruct (failed_call_returns_nothing user_message ai_response s reply
                                            st0 Hf) as [l2 [E2 Hl2]]
  end.
  rewrite E2. clear E2.
  cbn [memory disk logged ticks]. run_monad.
  exists ([(StartingExtraction source_agent, info)] ++ l1 ++ l2
          ++ [(NoNewInsights, info)])%list.
  split.
  - now rewrite <- !app_assoc.
  - destruct Hl2 as [H | H]; [left | right];
      apply in_or_app; right; apply in_or_app; right;
      apply in_or_app; left; exact H.
Qed.

End Extraction.

(* ================================================================== *)
(** ** C3: validation of the candidates *)
(* ================================================================== *)

(** On a candidate with a textual content the test of the validation loop
    does not raise, and decides as [accepts]. *)
Lemma is_valid_textual (entry : json) :
  textual entry -> is_valid entry = inr (accepts entry).
Proof.
  unfold textual, accepts, names_category, is_valid, member.
  destruct entry as [| | | | |items|kv]; try reflexivity.
  intro H. cbn [subscript].
  destruct (Py.lookup "category" kv) as [cv|];
    [destruct (Py.in_strings cv VALID_CATEGORIES)|]; try reflexivity.
  destruct (Py.lookup "content" kv) as [[| | | |s| |]|];
    try contradiction; try reflexivity.
  cbn [Py.truthy Py.len andb].
  destruct s as [|c s]; reflexivity.
Qed.

(** The validation loop keeps the accepted candidates of a textual batch,
    in their order, and only logs. *)
Lemma validate_textual (batch valid_entries : list json) (st : State) :
  Forall textual batch ->
  exists l',
    validate batch valid_entries st
    = Returned (valid_entries ++ filter accepts batch)%list
               (mkState (memory st) (disk st) (logged st ++ l')%list
                        (ticks st)).
Proof.
  intro H. revert valid_entries st.
  induction H as [|entry batch Ht _ IH]; intros valid_entries st.
  - exists []. destruct st. cbn. unfold ret. now rewrite !app_nil_r.
  - cbn [validate filter]. unfold bind at 1.
    rewrite (is_valid_textual _ Ht). cbn [lift]. unfold ret at 1.
    destruct (accepts entry).
    + destruct (IH (valid_entries ++ [entry])%list st) as [l' E].
      exists l'. rewrite E. now rewrite <- app_assoc.
    + unfold bind at 1. unfold log at 1.
      destruct (IH valid_entries
                   (mkState (memory st) (disk st)
                            (logged st ++ [(SkippingInvalid entry, warn)])
                            (ticks st))) as [l' E].
      rewrite E. cbn [memory disk logged ticks].
      eexists. now rewrite <- app_assoc.
Qed.

Lemma cat_of_name_cat_name (c : Category) : cat_of_name (cat_name c) = Some c.
Proof.
  destruct c; reflexivity.
Qed.

Lemma in_valid_categories (s : string) :
  existsb (String.eqb s) VALID_CATEGORIES = true
  <-> exists c, s = cat_name c.
Proof.
  split.
  - intro H. apply existsb_exists in H. destruct H as [x [Hx E]].
    apply String.eqb_eq in E. subst x. unfold VALID_CATEGORIES in Hx.
    apply in_map_iff in Hx. destruct Hx as [c [Hc _]]. now exists c.
  - intros [c ->]. apply existsb_exists. exists (cat_name c). split.
    + unfold VALID_CATEGORIES. apply in_map. destruct c; simpl; tauto.
    + apply String.eqb_refl.
Qed.

(** What [accepts] asks of a candidate. *)
Lemma accepts_iff (entry : json) :
  accepts entry = true
  <-> exists c s,
        member "category" entry = Some (JStr (cat_name c))
        /\ member "content" entry = Some (JStr s)
        /\ 3 < String.length s.
Proof.
  unfold accepts, names_category. split.
  - intro H. apply andb_prop in H. destruct H as [Hc Hs].
    destruct (member "category" entry) as [[| | | |cs| |]|];
      try discriminate Hc.
    cbn [Py.in_strings] in Hc. apply in_valid_categories in Hc.
    destruct Hc as [c ->].
    destruct (member "content" entry) as [[| | | |s| |]|];
      try discriminate Hs.
    exists c, s. repeat split. now apply Nat.ltb_lt.
  - intros [c [s [Hc [Hs Hl]]]]. rewrite Hc, Hs. cbn [Py.in_strings].
    apply andb_true_intro. split.
    + apply in_valid_categories. now exists c.
    + now apply Nat.ltb_lt.
Qed.


Lemma entries_of_set_same (c : Category) (l : list Entry) (cs : Categories) :
  entries_of c (set_entries c l cs) = l.
Proof.
  destruct c; reflexivity.
Qed.

Lemma entries_of_set_other (c c' : Category) (l : list Entry)
    (cs : Categories) :
  c <> c' -> entries_of c' (set_entries c l cs) = entries_of c' cs.
Proof.
  destruct c, c'; intro H; try reflexivity; now contradiction H.
Qed.

(** The body of the storing loop on a candidate that names category [c]
    and has the text [s]: one entry is appended to [c]; its confidence is
    the one of the candidate, or ["medium"] when the candidate has none. *)
Lemma store_entry_appends (source now_text : string) (entry : json)
    (c : Category) (s : string) (st : State) :
  member "category" entry = Some (JStr (cat_name c)) ->
  member "content" entry = Some (JStr s) ->
  let m := memory st in
  let new :=
    mkEntry (id_text c (next_number c m)) s source (Some now_text)
            (match member "confidence" entry with
             | Some v => v
             | None => JStr "medium"
             end) in
  store_entry source now_text entry st
  = Returned tt
      (mkState
         (mkStore (version m) (last_updated m)
                  (set_entries c (entries_of c (categories m) ++ [new])%list
                               (categories m))
                  (archive m))
         (disk st)
         (logged st ++ [(Stored c (PyStr.take 80 s), ok)])%list
         (ticks st)).
Proof.
  destruct entry as [| | | | |items|kv]; try discriminate.
  cbn [member]. intros Hc Hs. cbv zeta.
  destruct st as [m dk lg k].
  unfold store_entry, subscript, Py.get, _generate_id.
  rewrite Hc. cbv [bind lift ret]. cbn [category_key].
  rewrite cat_of_name_cat_name. rewrite Hs. cbn [as_text].
  reflexivity.
Qed.

(** The test of the validation loop on a plain candidate. *)
Lemma is_valid_plain (entry : json) :
  plain entry -> is_valid entry = inr (accepts entry).
Proof.
  unfold plain, accepts, names_category, is_valid, member.
  destruct entry as [| | | | |items|kv]; try reflexivity.
  cbn [subscript].
  destruct (Py.lookup "category" kv) as [cv|]; [|reflexivity].
  destruct (Py.in_strings cv VALID_CATEGORIES); [|reflexivity].
  intro H. specialize (H eq_refl). cbn [andb].
  destruct (Py.lookup "content" kv) as [v|]; [|reflexivity].
  destruct v as [|b|z|f|s|l|o];
    try (destruct H as [H | [n [Hl Hn]]];
         [now rewrite H
         | destruct (Py.truthy _); [|reflexivity];
           rewrite Hl; apply Nat.ltb_ge in Hn; now rewrite Hn]).
  cbn [Py.truthy Py.len]. destruct s as [|c s]; reflexivity.
Qed.



(* ================================================================== *)
(** ** C1: deduplication *)
(* ================================================================== *)

(** The second loop of [_deduplicate] on candidates that have a text: the
    candidates let through are [fresh_ones], and the loop only logs. *)
Lemma dedup_loop_spec (batch : list json) (existing : list string)
    (unique : list json) (st : State) :
  Forall (fun entry => exists s, member "content" entry = Some (JStr s))
         batch ->
  exists l',
    dedup_loop batch existing unique st
    = Returned (unique ++ fresh_ones batch existing)%list
               (mkState (memory st) (disk st) (logged st ++ l')%list
                        (ticks st)).
Proof.
  intro H. revert existing unique st.
  induction H as [|entry batch [s Hs] _ IH]; intros existing unique st.
  - exists []. destruct st. cbn. unfold ret. now rewrite !app_nil_r.
  - cbn [dedup_loop fresh_ones]. rewrite Hs.
    destruct entry as [| | | | |items|kv]; try discriminate Hs.
    cbn [member] in Hs. unfold subscript. rewrite Hs.
    cbv [bind lift ret as_text].
    destruct (seen (normalized s) existing).
    + unfold log at 1.
      destruct (IH existing unique
                   (mkState (memory st) (disk st)
                            (logged st
                             ++ [(DedupSkipping (PyStr.take 60 s), info)])
                            (ticks st))) as [l' E].
      rewrite E. cbn [memory disk logged ticks].
      eexists. now rewrite <- app_assoc.
    + destruct (IH (existing ++ [normalized s])%list
                   (unique ++ [JObj kv])%list st) as [l' E].
      exists l'. rewrite E. now rewrite <- app_assoc.
Qed.

(** Nothing passes when every key has been seen. *)
Lemma fresh_ones_all_seen (batch : list json) (existing : list string) :
  Forall (fun entry =>
            exists s, member "content" entry = Some (JStr s)
                      /\ seen (normalized s) existing = true) batch ->
  fresh_ones batch existing = [].
Proof.
  induction 1 as [|entry batch [s [Hs Hseen]] _ IH]; cbn [fresh_ones].
  - reflexivity.
  - now rewrite Hs, Hseen.
Qed.

(** In a batch that also holds new candidates, a candidate whose key has
    been seen is still not let through. *)
Lemma seen_is_never_fresh (batch : list json) (existing : list string)
    (entry : json) (s : string) :
  member "content" entry = Some (JStr s) ->
  seen (normalized s) existing = true ->
  ~ In entry (fresh_ones batch existing).
Proof.
  intros Hs. revert existing.
  induction batch as [|x batch IH]; intros existing Hseen; cbn [fresh_ones].
  - intros [].
  - destruct (member "content" x) as [[| | | |t| |]|] eqn:Ex;
      try (now apply IH).
    destruct (seen (normalized t) existing) eqn:Et; [now apply IH|].
    intros [-> | Hin].
    + rewrite Hs in Ex. injection Ex as ->. congruence.
    + revert Hin. apply IH. unfold seen in *.
      rewrite existsb_app, Hseen. reflexivity.
Qed.

(** The key of an active entry, of whatever category, has been seen. *)
Lemma seen_when_stored (m : Store) (s : string) (e : Entry) :
  In e (active_entries m) ->
  normalized s = normalized (content e) ->
  seen (normalized s) (existing_contents_of m) = true.
Proof.
  intros Hin Hk. unfold seen, existing_contents_of.
  apply existsb_exists. exists (normalized (content e)). split.
  - apply in_map_iff. now exists e.
  - now apply String.eqb_eq.
Qed.

Section Deduplication.

Variable clock : nat -> Datetime.
Variable json_loads : string -> option json.

(** A reply that decodes to a list hands that list over, and the call only
    logs. *)
Lemma call_returns_batch (u a summary : string) (reply : Reply)
    (batch : list json) (st : State) :
  replies_with json_loads reply batch ->
  exists l',
    _call_extraction_llm json_loads u a summary reply st
    = Returned batch
               (mkState (memory st) (disk st) (logged st ++ l')%list
                        (ticks st)).
Proof.
  intros [text [-> E]]. unfold _call_extraction_llm. rewrite E.
  cbn [Py.len]. destruct st as [m dk lg k]. run_monad.
  rewrite <- app_assoc. eexists. reflexivity.
Qed.

(** One turn whose candidates all repeat what is stored. *)
Lemma extract_of_repeats (u a source : string) (reply : Reply)
    (batch : list json) (st : State) :
  replies_with json_loads reply batch ->
  Forall (repeats_stored (memory st)) batch ->
  exists l',
    extract_and_store clock json_loads u a source reply st
    = Returned tt
               (mkState (memory st) (disk st) (logged st ++ l')%list
                        (ticks st)).
Proof.
  intros Hr Hb. unfold extract_and_store.
  unfold bind at 1. unfold log at 1. unfold bind at 1.
  destruct (get_memory_context_frame
              (mkState (memory st) (disk st)
                       (logged st ++ [(StartingExtraction source, info)])
                       (ticks st))) as [l1 E1].
  rewrite E1. clear E1. cbn [memory disk logged ticks].
  unfold bind at 1.
  match goal with
  | |- context [_call_extraction_llm _ _ _ ?s _ ?st0] =>
      destruct (call_returns_batch u a s reply batch st0 Hr) as [l2 E2]
  end.
  rewrite E2. clear E2. cbn [memory disk logged ticks].
  destruct batch as [|b0 batch'].
  - unfold log. cbn [memory disk logged ticks].
    rewrite <- !app_assoc. eexists. reflexivity.
  - set (batch := b0 :: batch') in *.
    assert (Ht : Forall textual batch).
    { eapply Forall_impl; [|exact Hb].
      intros entry [s [e [Hs _]]]. unfold textual. now rewrite Hs. }
    unfold bind at 1.
    match goal with
    | |- context [validate batch [] ?st0] =>
        destruct (validate_textual batch [] st0 Ht) as [l3 E3]
    end.
    rewrite E3. clear E3. cbn [memory disk logged ticks app].
    assert (Hv : Forall (fun entry =>
                           exists s,
                             member "content" entry = Some (JStr s)
                             /\ seen (normalized s)
                                     (existing_contents_of (memory st))
                                = true)
                        (filter accepts batch)).
    { apply Forall_forall. intros entry Hin. apply filter_In in Hin.
      destruct Hin as [Hin _]. rewrite Forall_forall in Hb.
      destruct (Hb entry Hin) as [s [e [Hs [He Hk]]]].
      exists s. split; [exact Hs|]. now apply (seen_when_stored _ _ e). }
    unfold bind at 1. unfold _deduplicate.
    unfold bind at 1. unfold get_memory at 1. cbn [memory disk logged ticks].
    match goal with
    | |- context [dedup_loop ?b ?ex [] ?st0] =>
        destruct (dedup_loop_spec b ex [] st0) as [l4 E4]
    end.
    { eapply Forall_impl; [|exact Hv]. intros entry [s [Hs _]]. now exists s. }
    rewrite E4. clear E4. cbn [memory disk logged ticks app].
    rewrite (fresh_ones_all_seen _ _ Hv).
    unfold log. cbn [memory disk logged ticks].
    rewrite <- !app_assoc. eexists. reflexivity.
Qed.

(** C1: deduplication looks at every category, and repeats change nothing.
    When every candidate that the service returns is one whose normalized
    content is the normalized content of an active entry, of whatever
    category, a call of [extract_and_store], and every call of any number
    of them in a row, returns with the store as it was: no entry is
    appended, and nothing is saved, since the snapshot file is as before
    and the clock, which a save reads, has not been read. *)
Theorem repeated_insights_change_nothing
    (user_message ai_response source_agent : string) (reply : Reply)
    (batch : list json) (n : nat) (st : State) :
  replies_with json_loads reply batch ->
  Forall (repeats_stored (memory st)) batch ->
  exists st',
    repeatedly n
      (extract_and_store clock json_loads user_message ai_response
                         source_agent reply) st
    = Returned tt st'
    /\ memory st' = memory st
    /\ disk st' = disk st
    /\ ticks st' = ticks st.
Proof.
  intros Hr. revert st. induction n as [|n IH]; intros st Hb.
  - exists st. repeat split.
  - cbn [repeatedly]. unfold bind.
    destruct (extract_of_repeats user_message ai_response source_agent reply
                                 batch st Hr Hb) as [l' E].
    rewrite E.
    destruct (IH (mkState (memory st) (disk st) (logged st ++ l')%list
                          (ticks st)) Hb) as [st' [E' [Hm [Hd Ht]]]].
    exists st'. repeat split; assumption.
Qed.

End Deduplication.

(* ================================================================== *)
(** ** C2: identifiers *)
(* ================================================================== *)

Lemma value_of_zero (s : string) : value_of (String "0" s) = value_of s.
Proof.
  unfold value_of. cbn [NilEmpty.uint_of_string].
  destruct (NilEmpty.uint_of_string s); reflexivity.
Qed.

Lemma value_of_zero_pad (w n : nat) : value_of (PyStr.zero_pad w n) = Some n.
Proof.
  unfold PyStr.zero_pad.
  induction (w - String.length (PyStr.decimal n)) as [|k IH].
  - cbn [PyStr.replicate String.append]. unfold value_of, PyStr.decimal.
    rewrite NilEmpty.usu. cbn [option_map]. f_equal.
    apply DecimalNat.Unsigned.of_to.
  - cbn [PyStr.replicate String.append]. now rewrite value_of_zero.
Qed.

(** Within a category, different numbers give different identifiers. *)
Lemma id_text_injective (c : Category) (n n' : nat) :
  id_text c n = id_text c n' -> n = n'.
Proof.
  unfold id_text. intro H.
  apply append_inv_head in H. apply append_inv_head in H.
  apply (f_equal value_of) in H. rewrite !value_of_zero_pad in H.
  now injection H.
Qed.

Lemma NoDup_map_injective {A B} (f : A -> B) (l : list A) :
  (forall a a', f a = f a' -> a = a') -> NoDup l -> NoDup (map f l).
Proof.
  intros Hf H. induction H as [|a l Hnin _ IH]; cbn [map]; constructor.
  - intro Hin. apply in_map_iff in Hin. destruct Hin as [a' [E Ha']].
    apply Hf in E. now subst a'.
  - exact IH.
Qed.

Lemma NoDup_id_texts (c : Category) (n : nat) :
  NoDup (map (id_text c) (seq 1 n)).
Proof.
  apply NoDup_map_injective.
  - apply id_text_injective.
  - apply seq_NoDup.
Qed.

Lemma cat_eqb_eq (c c' : Category) : cat_eqb c c' = true <-> c = c'.
Proof.
  destruct c, c'; simpl; split; intro H; try reflexivity;
    try discriminate H.
Qed.

Lemma cat_eq_dec (c c' : Category) : {c = c'} + {c <> c'}.
Proof.
  decide equality.
Qed.

Lemma length_ids_in (c : Category) (m : Store) :
  List.length (ids_in c m) + 1 = next_number c m.
Proof.
  unfold ids_in, next_number. now rewrite List.length_app, !length_map.
Qed.

(** A store with the same identifiers, in whatever order, is numbered as
    well. *)
Lemma numbered_permutation (c : Category) (m m' : Store) :
  Permutation (ids_in c m') (ids_in c m) -> numbered c m -> numbered c m'.
Proof.
  unfold numbered. intros Hp Hn.
  rewrite (Permutation_length Hp).
  now apply (Permutation_trans Hp).
Qed.

(** Appending an entry that carries the next identifier of its category
    keeps every category numbered. *)
Lemma numbered_append (c : Category) (e : Entry) (m : Store) :
  id e = id_text c (next_number c m) ->
  (forall c', numbered c' m) ->
  forall c',
    numbered c'
      (mkStore (version m) (last_updated m)
               (set_entries c (entries_of c (categories m) ++ [e])%list
                            (categories m))
               (archive m)).
Proof.
  intros Hid Hn c'. destruct (cat_eq_dec c c') as [<- | Hne].
  - specialize (Hn c). unfold numbered in *.
    assert (E : ids_in c
                  (mkStore (version m) (last_updated m)
                     (set_entries c (entries_of c (categories m) ++ [e])%list
                                  (categories m))
                     (archive m))
                = (map id (entries_of c (categories m)) ++ [id e]
                   ++ map (fun a => id (entry_of a)) (archived_from c m))%list).
    { unfold ids_in, archived_from. cbn [categories archive].
      rewrite entries_of_set_same, map_app, <- app_assoc. reflexivity. }
    rewrite E. clear E.
    assert (P : Permutation
                  (map id (entries_of c (categories m)) ++ [id e]
                   ++ map (fun a => id (entry_of a)) (archived_from c m))
                  (ids_in c m ++ [id e])).
    { unfold ids_in. rewrite <- app_assoc.
      apply Permutation_app_head. apply Permutation_app_comm. }
    rewrite (Permutation_length P).
    apply (Permutation_trans P).
    rewrite List.length_app. cbn [List.length].
    rewrite Nat.add_1_r, seq_S, map_app. cbn [map].
    apply Permutation_app; [exact Hn|].
    rewrite Hid, <- length_ids_in, Nat.add_comm. apply Permutation_refl.
  - apply (numbered_permutation c' m); [|apply Hn].
    unfold ids_in, archived_from. cbn [categories archive].
    rewrite (entries_of_set_other c c' _ _ Hne). apply Permutation_refl.
Qed.

(** *** Methods that keep the store, methods that keep the numbering *)

Lemma state_after_bind {A B} (call : M A) (k : A -> M B) (st : State) :
  state_after (bind call k st)
  = match call st with
    | Returned a st' => state_after (k a st')
    | Raised _ st' => st'
    end.
Proof.
  unfold bind. destruct (call st); reflexivity.
Qed.

Lemma keeps_memory_bind {A B} (call : M A) (k : A -> M B) :
  keeps_memory call -> (forall a, keeps_memory (k a)) ->
  keeps_memory (bind call k).
Proof.
  intros Hc Hk st. rewrite state_after_bind.
  specialize (Hc st). destruct (call st) as [a st'|e st']; cbn in Hc.
  - now rewrite Hk.
  - exact Hc.
Qed.

Lemma keeps_numbering_bind {A B} (call : M A) (k : A -> M B) :
  keeps_numbering call -> (forall a, keeps_numbering (k a)) ->
  keeps_numbering (bind call k).
Proof.
  intros Hc Hk st Hn. rewrite state_after_bind.
  specialize (Hc st Hn). destruct (call st) as [a st'|e st']; cbn in Hc.
  - now apply Hk.
  - exact Hc.
Qed.

Lemma keeps_memory_numbering {A} (call : M A) :
  keeps_memory call -> keeps_numbering call.
Proof.
  intros H st Hn c. now rewrite H.
Qed.

Lemma keeps_memory_ret {A} (a : A) : keeps_memory (ret a).
Proof. intro st. reflexivity. Qed.

Lemma keeps_memory_lift {A} (r : exn + A) : keeps_memory (lift r).
Proof. intro st. destruct r; reflexivity. Qed.

Lemma keeps_memory_log (msg : Message) (lvl : Level) :
  keeps_memory (log msg lvl).
Proof. intro st. reflexivity. Qed.

Lemma keeps_memory_now_isoformat (clock : nat -> Datetime) :
  keeps_memory (now_isoformat clock).
Proof. intro st. reflexivity. Qed.

Lemma keeps_memory_context : keeps_memory get_memory_context.
Proof.
  intro st. destruct (get_memory_context_frame st) as [l' E].
  now rewrite E.
Qed.

Lemma keeps_memory_call (json_loads : string -> option json)
    (u a summary : string) (reply : Reply) :
  keeps_memory (_call_extraction_llm json_loads u a summary reply).
Proof.
  intro st. unfold _call_extraction_llm, extraction_failed.
  destruct reply as [|[text|]]; try reflexivity.
  destruct (json_loads (unfenced text)) as [v|]; [|reflexivity].
  destruct (Py.len v); reflexivity.
Qed.

Lemma keeps_memory_validate (batch valid_entries : list json) :
  keeps_memory (validate batch valid_entries).
Proof.
  revert valid_entries.
  induction batch as [|entry batch IH]; intros valid_entries.
  - apply keeps_memory_ret.
  - cbn [validate]. apply keeps_memory_bind; [apply keeps_memory_lift|].
    intros [|]; [apply IH|].
    apply keeps_memory_bind; [apply keeps_memory_log | intros _; apply IH].
Qed.

Lemma keeps_memory_dedup_loop (batch : list json) (existing : list string)
    (unique : list json) :
  keeps_memory (dedup_loop batch existing unique).
Proof.
  revert existing unique.
  induction batch as [|entry batch IH]; intros existing unique.
  - apply keeps_memory_ret.
  - cbn [dedup_loop].
    apply keeps_memory_bind; [apply keeps_memory_lift | intros v].
    apply keeps_memory_bind; [apply keeps_memory_lift | intros text].
    destruct (seen (normalized text) existing); [|apply IH].
    apply keeps_memory_bind; [apply keeps_memory_log | intros _; apply IH].
Qed.

Lemma keeps_memory_deduplicate (batch : list json) :
  keeps_memory (_deduplicate batch).
Proof.
  unfold _deduplicate. apply keeps_memory_bind.
  - intro st. reflexivity.
  - intro m. apply keeps_memory_dedup_loop.
Qed.

(** The body of the storing loop either leaves the store, or appends one
    entry that carries the next identifier of its category. *)
Lemma store_entry_memory (source now_text : string) (entry : json)
    (st : State) :
  let m := memory st in
  let m' := memory (state_after (store_entry source now_text entry st)) in
  m' = m
  \/ exists c e,
       id e = id_text c (next_number c m)
       /\ m' = mkStore (version m) (last_updated m)
                       (set_entries c (entries_of c (categories m) ++ [e])%list
                                    (categories m))
                       (archive m).
Proof.
  cbv zeta. destruct st as [m dk lg k]. unfold store_entry, _generate_id.
  destruct (subscript entry "category") as [x|kv]; [left; reflexivity|].
  cbv [bind lift ret raise get_memory].
  destruct (category_key kv) as [x|c]; [left; reflexivity|].
  destruct (subscript entry "content") as [x|v]; [left; reflexivity|].
  destruct (as_text v) as [x|text]; [left; reflexivity|].
  destruct (Py.get entry "confidence" (JStr "medium")) as [x|conf];
    [left; reflexivity|].
  right.
  exists c, (mkEntry (id_text c (next_number c m)) text source
                     (Some now_text) conf).
  split; reflexivity.
Qed.

Lemma keeps_numbering_store_entry (source now_text : string) (entry : json) :
  keeps_numbering (store_entry source now_text entry).
Proof.
  intros st Hn.
  destruct (store_entry_memory source now_text entry st)
    as [E | [c [e [Hid E]]]]; rewrite E.
  - exact Hn.
  - now apply numbered_append.
Qed.

Lemma keeps_numbering_for_each {A} (xs : list A) (body : A -> M unit) :
  (forall x, keeps_numbering (body x)) ->
  keeps_numbering (for_each xs body).
Proof.
  intro Hb. induction xs as [|x xs IH]; cbn [for_each].
  - apply keeps_memory_numbering, keeps_memory_ret.
  - apply keeps_numbering_bind; [apply Hb | intros _; exact IH].
Qed.

Lemma keeps_numbering_save (clock : nat -> Datetime) :
  keeps_numbering (save_memory clock).
Proof.
  intros st Hn c. rewrite save_memory_memory.
  apply (numbered_permutation c (memory st));
    [apply Permutation_refl | apply Hn].
Qed.

Lemma filter_stamped (clock : nat -> Datetime) (c c' : Category) (k : nat)
    (olds : list Entry) :
  map entry_of
      (filter (fun a => cat_eqb (original_category a) c)
              (stamped clock c' k olds))
  = if cat_eqb c' c then olds else [].
Proof.
  revert k. induction olds as [|e olds IH]; intros k; cbn [stamped filter].
  - now destruct (cat_eqb c' c).
  - cbn [original_category]. specialize (IH (S k)).
    destruct (cat_eqb c' c); cbn [map entry_of]; now rewrite IH.
Qed.

(** The records that a pruning appends for category [c] are made from the
    entries of [c] that are older than the cutoff. *)
Lemma moved_from (clock : nat -> Datetime) (cutoff : string) (k : nat)
    (cs : Categories) (c : Category) :
  map entry_of
      (filter (fun a => cat_eqb (original_category a) c)
              (moved clock cutoff CATEGORIES k cs))
  = filter (older_than cutoff) (entries_of c cs).
Proof.
  unfold CATEGORIES. cbn [moved].
  rewrite !filter_app, !map_app, !filter_stamped.
  destruct c; cbn [cat_eqb filter map app]; now rewrite ?app_nil_r.
Qed.

Lemma filter_split_permutation {A} (p : A -> bool) (l : list A) :
  Permutation (filter (fun a => negb (p a)) l ++ filter p l) l.
Proof.
  induction l as [|a l IH]; cbn [filter].
  - apply Permutation_refl.
  - destruct (p a); cbn [negb app].
    + apply Permutation_sym. apply Permutation_cons_app.
      now apply Permutation_sym.
    + now apply perm_skip.
Qed.

Lemma keeps_numbering_prune (clock : nat -> Datetime) (max_age_days : Z) :
  keeps_numbering (prune_old_entries clock max_age_days).
Proof.
  intros st Hn c.
  destruct (Calendar.minus_days (clock (ticks st)) max_age_days) as [d|] eqn:E.
  - destruct (prune_old_entries_returns clock max_age_days st d E) as [l' R].
    rewrite R. cbn [state_after memory].
    apply (numbered_permutation c (memory st)); [|apply Hn].
    unfold ids_in, archived_from. cbn [categories archive].
    rewrite entries_of_kept, filter_app, map_app.
    rewrite <- (map_map entry_of id
                  (filter (fun a => cat_eqb (original_category a) c)
                          (moved _ _ _ _ _))).
    rewrite moved_from.
    set (old := older_than (Calendar.isoformat d)).
    set (es := entries_of c (categories (memory st))).
    set (A := map (fun a => id (entry_of a)) _).
    apply Permutation_trans
      with (map id (filter (fun e => negb (old e)) es)
            ++ map id (filter old es) ++ A)%list.
    + apply Permutation_app_head. apply Permutation_app_comm.
    + rewrite app_assoc. apply Permutation_app_tail.
      rewrite <- map_app. apply Permutation_map.
      apply filter_split_permutation.
  - rewrite (prune_old_entries_overflow clock max_age_days st E).
    cbn [state_after memory]. apply Hn.
Qed.

Section Identifiers.

Variable clock : nat -> Datetime.
Variable json_loads : string -> option json.

Lemma keeps_numbering_extract (u a source : string) (reply : Reply) :
  keeps_numbering (extract_and_store clock json_loads u a source reply).
Proof.
  unfold extract_and_store.
  apply keeps_numbering_bind;
    [apply keeps_memory_numbering, keeps_memory_log | intros _].
  apply keeps_numbering_bind;
    [apply keeps_memory_numbering, keeps_memory_context | intros summary].
  apply keeps_numbering_bind;
    [apply keeps_memory_numbering, keeps_memory_call | intros new_entries].
  destruct new_entries as [|n0 ns];
    [apply keeps_memory_numbering, keeps_memory_log|].
  apply keeps_numbering_bind;
    [apply keeps_memory_numbering, keeps_memory_validate | intros valid].
  apply keeps_numbering_bind;
    [apply keeps_memory_numbering, keeps_memory_deduplicate | intros unique].
  destruct unique as [|u0 us];
    [apply keeps_memory_numbering, keeps_memory_log|].
  apply keeps_numbering_bind;
    [apply keeps_memory_numbering, keeps_memory_now_isoformat
    | intros now_text].
  apply keeps_numbering_bind;
    [apply keeps_numbering_for_each; intro x;
     apply keeps_numbering_store_entry | intros _].
  apply keeps_numbering_bind; [apply keeps_numbering_save | intros _].
  apply keeps_numbering_bind; [apply keeps_numbering_prune | intros pruned].
  destruct (Nat.ltb 0 pruned);
    [apply keeps_numbering_save
    | apply keeps_memory_numbering, keeps_memory_ret].
Qed.

(** Every state within reach has its categories numbered. *)
Lemma reachable_numbered (st : State) :
  reachable clock json_loads st -> forall c, numbered c (memory st).
Proof.
  induction 1 as [t d l k | st st' _ IH Hs].
  - intro c. destruct c; apply Permutation_refl.
  - destruct Hs.
    + now apply keeps_numbering_extract.
    + now apply keeps_numbering_prune.
Qed.

(** C2: in every state that a sequence of extractions and prunings reaches
    from the empty store, the identifier that [_generate_id] hands out for
    a category is the prefix of the category, an underscore, and the
    number (active entries of the category) + (archived entries that came
    from the category) + 1, padded with zeros to three digits; the
    identifiers of the category, active and archived together, are those
    numbered from 1 on; and no two of them are equal. *)
Theorem identifiers_are_numbered_and_unique (st : State) (c : Category) :
  reachable clock json_loads st ->
  _generate_id c st
  = Returned
      (prefix_map c ++ "_"
       ++ PyStr.zero_pad 3
            (List.length (entries_of c (categories (memory st)))
             + List.length (archived_from c (memory st)) + 1))
      st
  /\ Permutation (ids_in c (memory st))
                 (map (id_text c)
                      (seq 1 (List.length (ids_in c (memory st)))))
  /\ NoDup (ids_in c (memory st)).
Proof.
  intro H. pose proof (reachable_numbered st H c) as Hn.
  split; [reflexivity | split; [exact Hn|]].
  apply (Permutation_NoDup (Permutation_sym Hn)).
  apply NoDup_id_texts.
Qed.

End Identifiers.

(* ================================================================== *)
(** ** The theorems on the sample values *)
(* ================================================================== *)

Lemma repeated_insights_sample :
  replies_with (sample_loads [sample_repeat]) (Response (Some "[...]"))
               [sample_repeat]
  /\ Forall (repeats_stored (memory sample_state)) [sample_repeat]
  /\ exists st',
       repeatedly 2
         (extract_and_store sample_clock (sample_loads [sample_repeat])
                            "Beer?" "Craft." "planner"
                            (Response (Some "[...]")))
         sample_state
       = Returned tt st'
       /\ memory st' = memory sample_state
       /\ disk st' = disk sample_state
       /\ ticks st' = ticks sample_state.
Proof.
  assert (Hr : replies_with (sample_loads [sample_repeat])
                            (Response (Some "[...]")) [sample_repeat]).
  { exists "[...]". split; reflexivity. }
  assert (Hb : Forall (repeats_stored (memory sample_state)) [sample_repeat]).
  { constructor; [|constructor].
    exists "PREFERS CRAFT BEER OVER IMPORTS.",
           (sample_entry "pref_001" "Prefers craft beer over imports"
                         (Some "2020-01-01T09:00:00")).
    split; [reflexivity | split; [left; reflexivity | reflexivity]]. }
  split; [exact Hr | split; [exact Hb|]].
  exact (repeated_insights_change_nothing
           sample_clock (sample_loads [sample_repeat])
           "Beer?" "Craft." "planner" (Response (Some "[...]"))
           [sample_repeat] 2 sample_state Hr Hb).
Defined.

Lemma identifiers_sample :
  reachable sample_clock (sample_loads [sample_new]) sample_after_turn
  /\ ids_in rejected_ideas (memory sample_after_turn) = ["rej_001"]
  /\ NoDup (ids_in rejected_ideas (memory sample_after_turn)).
Proof.
  assert (Hr : reachable sample_clock (sample_loads [sample_new])
                         sample_after_turn).
  { unfold sample_after_turn. eapply reach_step.
    - apply reach_empty.
    - apply step_extract. }
  split; [exact Hr | split; [reflexivity|]].
  exact (proj2 (proj2 (identifiers_are_numbered_and_unique
                         sample_clock (sample_loads [sample_new])
                         sample_after_turn rejected_ideas Hr))).
Defined.


Lemma prune_sample :
  Calendar.minus_days (sample_clock (ticks sample_state)) 180
  = Some (mkDatetime 738820 12 0 0 0)
  /\ exists st' records,
       prune_old_entries sample_clock 180 sample_state
       = Returned (List.length records) st'
       /\ archive (memory st') = (archive (memory sample_state) ++ records)%list
       /\ map origin records
          = [(owner_preferences,
              sample_entry "pref_001" "Prefers craft beer over imports"
                           (Some "2020-01-01T09:00:00"));
             (operational_notes,
              sample_entry "ops_001" "Ice machine is serviced monthly" None)].
Proof.
  assert (Hd : Calendar.minus_days (sample_clock (ticks sample_state)) 180
               = Some (mkDatetime 738820 12 0 0 0)) by reflexivity.
  split; [exact Hd|].
  destruct (prune_moves_old_entries sample_clock 180 sample_state _ Hd)
    as [st' [records [E [_ [Ha [Ho _]]]]]].
  exists st', records. split; [exact E | split; [exact Ha | exact Ho]].
Defined.

Lemma entry_without_created_sample :
  Calendar.minus_days (sample_clock (ticks sample_state)) 180
  = Some (mkDatetime 738820 12 0 0 0)
  /\ In (sample_entry "ops_001" "Ice machine is serviced monthly" None)
        (entries_of operational_notes (categories (memory sample_state)))
  /\ older_than (Calendar.isoformat (mkDatetime 738820 12 0 0 0))
                (sample_entry "ops_001" "Ice machine is serviced monthly" None)
     = true.
Proof.
  assert (Hd : Calendar.minus_days (sample_clock (ticks sample_state)) 180
               = Some (mkDatetime 738820 12 0 0 0)) by reflexivity.
  assert (Hin : In (sample_entry "ops_001" "Ice machine is serviced monthly"
                                 None)
                   (entries_of operational_notes
                               (categories (memory sample_state)))).
  { left. reflexivity. }
  split; [exact Hd | split; [exact Hin|]].
  exact (proj1 (proj2 (entry_without_created_is_archived
                         sample_clock 180 sample_state _ operational_notes _
                         Hd Hin eq_refl))).
Defined.

(* ================================================================== *)
(** ** Further properties: the call of the extraction service *)
(* ================================================================== *)

Section ServiceCall.

Variable clock : nat -> Datetime.
Variable json_loads : string -> option json.

Lemma extract_and_store_unfold (u a source : string) (reply : Reply) :
  extract_and_store clock json_loads u a source reply
  = (log (StartingExtraction source) info ;;;
     current_summary <- get_memory_context ;;
     new_entries <- _call_extraction_llm json_loads u a current_summary reply ;;
     store_candidates clock source new_entries)%py.
Proof.
  reflexivity.
Qed.

(** The call returns whatever the service does, and only logs. *)
Lemma call_frame (u a summary : string) (reply : Reply) (st : State) :
  exists candidates l',
    _call_extraction_llm json_loads u a summary reply st
    = Returned candidates
               (mkState (memory st) (disk st) (logged st ++ l')%list
                        (ticks st))
    /\ (forall text v,
          reply = Response (Some text) ->
          json_loads (unfenced text) = Some v ->
          candidates = items_of v)
    /\ ((forall batch, replies_with json_loads reply batch -> batch = []) ->
        candidates = []).
Proof.
  destruct st as [m dk lg k]. unfold _call_extraction_llm, extraction_failed.
  destruct reply as [|[text|]].
  - run_monad. rewrite <- app_assoc. eexists. eexists.
    split; [reflexivity|]. split; [discriminate | reflexivity].
  - destruct (json_loads (unfenced text)) as [v|] eqn:E.
    + destruct (Py.len v) as [e|n] eqn:L.
      * run_monad. rewrite <- app_assoc. eexists. eexists.
        split; [reflexivity|]. split; [|reflexivity].
        intros text' v' [= <-] E'. rewrite E in E'. injection E' as <-.
        destruct v; try reflexivity; discriminate L.
      * run_monad. rewrite <- app_assoc. eexists. eexists.
        split; [reflexivity|]. split.
        -- intros text' v' [= <-] E'. rewrite E in E'. now injection E' as <-.
        -- intro H. destruct v; try reflexivity.
           apply H. exists text. split; [reflexivity | exact E].
    + run_monad. rewrite <- !app_assoc. eexists. eexists.
      split; [reflexivity|]. split; [|reflexivity].
      intros text' v' [= <-] E'. rewrite E in E'. discriminate E'.
  - run_monad. rewrite <- app_assoc. eexists. eexists.
    split; [reflexivity|]. split; [discriminate | reflexivity].
Qed.

(** X1: [_call_extraction_llm] never raises, whatever the service does: it
    returns a list and leaves the store, the snapshot file and the clock
    alone.  When the reply decodes to a JSON value, the list is the items
    of that value if it is an array and empty otherwise. *)
Theorem extraction_call_never_raises (u a summary : string) (reply : Reply)
    (st : State) :
  exists candidates st',
    _call_extraction_llm json_loads u a summary reply st
    = Returned candidates st'
    /\ memory st' = memory st
    /\ disk st' = disk st
    /\ ticks st' = ticks st
    /\ forall text v,
         reply = Response (Some text) ->
         json_loads (unfenced text) = Some v ->
         candidates = items_of v.
Proof.
  destruct (call_frame u a summary reply st) as [c [l' [E [Hv _]]]].
  eexists. eexists. split; [exact E|]. repeat split. exact Hv.
Qed.

(** The state in which the candidates are handled. *)
Lemma extract_continues (u a source : string) (reply : Reply) (st : State) :
  exists candidates l',
    extract_and_store clock json_loads u a source reply st
    = store_candidates clock source candidates
        (mkState (memory st) (disk st) (logged st ++ l')%list (ticks st))
    /\ (forall text v,
          reply = Response (Some text) ->
          json_loads (unfenced text) = Some v ->
          candidates = items_of v)
    /\ ((forall batch, replies_with json_loads reply batch -> batch = []) ->
        candidates = []).
Proof.
  rewrite extract_and_store_unfold.
  unfold bind at 1. unfold log at 1. unfold bind at 1.
  destruct (get_memory_context_frame
              (mkState (memory st) (disk st)
                       (logged st ++ [(StartingExtraction source, info)])
                       (ticks st))) as [l1 E1].
  rewrite E1. clear E1. cbn [memory disk logged ticks].
  unfold bind at 1.
  match goal with
  | |- context [_call_extraction_llm _ _ _ ?s _ ?st0] =>
      destruct (call_frame u a s reply st0) as [c [l2 [E2 [Hv He]]]]
  end.
  rewrite E2. clear E2. cbn [memory disk logged ticks].
  exists c. eexists. rewrite <- !app_assoc.
  split; [reflexivity | split; assumption].
Qed.

(** X2: a reply that does not decode to a list with at least one item (an
    empty array, a JSON object or string or number, text that is not JSON,
    no text, a call that raises) makes [extract_and_store] return with the
    store, the snapshot file and the clock as they were. *)
Theorem reply_without_candidates_stores_nothing
    (u a source : string) (reply : Reply) (st : State) :
  (forall batch, replies_with json_loads reply batch -> batch = []) ->
  exists st',
    extract_and_store clock json_loads u a source reply st = Returned tt st'
    /\ memory st' = memory st
    /\ disk st' = disk st
    /\ ticks st' = ticks st.
Proof.
  intro H.
  destruct (extract_continues u a source reply st) as [c [l' [E [_ He]]]].
  rewrite E, (He H). eexists. split; [reflexivity|]. repeat split.
Qed.

End ServiceCall.

(* ================================================================== *)
(** ** C7: replies that are no list of good candidates *)
(* ================================================================== *)

(** Building the context logs one message, of level [info]. *)
Lemma get_memory_context_quiet (st : State) :
  exists l',
    get_memory_context st
    = Returned (render (memory st))
               (mkState (memory st) (disk st) (logged st ++ l')%list
                        (ticks st))
    /\ all_info l'.
Proof.
  destruct st as [m dk lg k].
  unfold get_memory_context, render, bind, get_memory.
  cbn [memory disk logged ticks].
  rewrite total_active_length.
  destruct (active_entries m) as [|e es] eqn:E.
  - eexists. split; [reflexivity|]. repeat constructor.
  - cbn [List.length Nat.eqb]. unfold log, ret, bind.
    cbn [memory disk logged ticks].
    rewrite fold_append_section. cbn [fst]. rewrite <- app_assoc.
    eexists. split; [reflexivity|]. repeat constructor.
Qed.

Lemma all_info_app (l1 l2 : list (Message * Level)) :
  all_info l1 -> all_info l2 -> all_info (l1 ++ l2).
Proof.
  intros H1 H2. apply Forall_app. now split.
Qed.

(** The validation loop on plain candidates, with what it logs: one
    message of level [warn] for each candidate that it drops. *)
Lemma validate_plain_log (batch valid_entries : list json) (st : State) :
  Forall plain batch ->
  validate batch valid_entries st
  = Returned (valid_entries ++ filter accepts batch)%list
      (mkState (memory st) (disk st)
               (logged st
                ++ map (fun entry => (SkippingInvalid entry, warn))
                       (filter (fun entry => negb (accepts entry)) batch))%list
               (ticks st)).
Proof.
  intro H. revert valid_entries st.
  induction H as [|entry batch Hp _ IH]; intros valid_entries st.
  - destruct st. cbn. unfold ret. now rewrite !app_nil_r.
  - cbn [validate filter]. unfold bind at 1.
    rewrite (is_valid_plain _ Hp). cbn [lift]. unfold ret at 1.
    destruct (accepts entry); cbn [negb].
    + rewrite IH. now rewrite <- app_assoc.
    + unfold bind at 1. unfold log at 1. rewrite IH.
      cbn [memory disk logged ticks map]. now rewrite <- app_assoc.
Qed.

Lemma filter_all_rejected (batch : list json) :
  Forall (fun entry => accepts entry = false) batch ->
  filter accepts batch = []
  /\ filter (fun entry => negb (accepts entry)) batch = batch.
Proof.
  induction 1 as [|entry batch Hr _ [IH1 IH2]]; [now split|].
  cbn [filter]. rewrite Hr. cbn [negb]. now rewrite IH1, IH2.
Qed.

Section MalformedReplies.

Variable clock : nat -> Datetime.
Variable json_loads : string -> option json.

(** The three kinds of reply exclude one another. *)
Lemma fails_or_no_list (reply : Reply) :
  service_fails json_loads reply ->
  replies_with_no_list json_loads reply -> False.
Proof.
  unfold service_fails, replies_with_no_list.
  destruct reply as [|[text|]]; try (intros _ []).
  destruct (json_loads (unfenced text)) as [v|]; [|intros _ []].
  intros [e He]. destruct v; try (intros []); discriminate He.
Qed.

Lemma fails_or_list (reply : Reply) (batch : list json) :
  service_fails json_loads reply ->
  replies_with json_loads reply batch -> False.
Proof.
  intros Hf [text [-> E]]. unfold service_fails in Hf. rewrite E in Hf.
  destruct Hf as [e He]. discriminate He.
Qed.

Lemma no_list_or_list (reply : Reply) (batch : list json) :
  replies_with_no_list json_loads reply ->
  replies_with json_loads reply batch -> False.
Proof.
  intros Hn [text [-> E]]. unfold replies_with_no_list in Hn.
  now rewrite E in Hn.
Qed.

Lemma replies_with_one_list (reply : Reply) (batch batch' : list json) :
  replies_with json_loads reply batch ->
  replies_with json_loads reply batch' -> batch' = batch.
Proof.
  intros [text [-> E]] [text' [[= <-] E']]. rewrite E in E'.
  now injection E' as <-.
Qed.

(** An object or a string for a reply: the call returns no candidate and
    logs at level [info] only. *)
Lemma call_on_no_list (u a summary : string) (reply : Reply) (st : State) :
  replies_with_no_list json_loads reply ->
  exists l',
    _call_extraction_llm json_loads u a summary reply st
    = Returned [] (mkState (memory st) (disk st) (logged st ++ l')%list
                           (ticks st))
    /\ all_info l'.
Proof.
  destruct st as [m dk lg k]. unfold replies_with_no_list, _call_extraction_llm.
  destruct reply as [|[text|]]; try (intros []).
  destruct (json_loads (unfenced text)) as [v|]; [|intros []].
  destruct v; intro H; try solve [destruct H]; cbn [Py.len]; run_monad;
    rewrite <- app_assoc; eexists; (split; [reflexivity|]);
    repeat constructor.
Qed.

Lemma extract_of_no_list (u a source : string) (reply : Reply) (st : State) :
  replies_with_no_list json_loads reply ->
  exists l',
    extract_and_store clock json_loads u a source reply st
    = Returned tt
        (mkState (memory st) (disk st) (logged st ++ l')%list (ticks st))
    /\ all_info l'.
Proof.
  intro Hn. unfold extract_and_store.
  unfold bind at 1. unfold log at 1. unfold bind at 1.
  destruct (get_memory_context_quiet
              (mkState (memory st) (disk st)
                       (logged st ++ [(StartingExtraction source, info)])
                       (ticks st))) as [l1 [E1 I1]].
  rewrite E1. clear E1. cbn [memory disk logged ticks].
  unfold bind at 1.
  match goal with
  | |- context [_call_extraction_llm _ _ _ ?s _ ?st0] =>
      destruct (call_on_no_list u a s reply st0 Hn) as [l2 [E2 I2]]
  end.
  rewrite E2. clear E2. cbn [memory disk logged ticks]. run_monad.
  exists ([(StartingExtraction source, info)] ++ l1 ++ l2
          ++ [(NoNewInsights, info)])%list.
  split.
  - now rewrite <- !app_assoc.
  - apply all_info_app; [repeat constructor|].
    apply all_info_app; [exact I1|].
    apply all_info_app; [exact I2 | repeat constructor].
Qed.

(** A list of candidates that are all rejected: each is logged at level
    [warn] and nothing is stored. *)
Lemma extract_of_rejects (u a source : string) (reply : Reply)
    (batch : list json) (st : State) :
  replies_with_rejects json_loads reply batch ->
  exists l',
    extract_and_store clock json_loads u a source reply st
    = Returned tt
        (mkState (memory st) (disk st) (logged st ++ l')%list (ticks st))
    /\ forall entry, In entry batch -> In (SkippingInvalid entry, warn) l'.
Proof.
  intros [Hr [Hne [Hp Ha]]]. unfold extract_and_store.
  unfold bind at 1. unfold log at 1. unfold bind at 1.
  destruct (get_memory_context_quiet
              (mkState (memory st) (disk st)
                       (logged st ++ [(StartingExtraction source, info)])
                       (ticks st))) as [l1 [E1 _]].
  rewrite E1. clear E1. cbn [memory disk logged ticks].
  unfold bind at 1.
  match goal with
  | |- context [_call_extraction_llm _ _ _ ?s _ ?st0] =>
      destruct (call_returns_batch json_loads u a s reply batch st0 Hr)
        as [l2 E2]
  end.
  rewrite E2. clear E2. cbn [memory disk logged ticks].
  destruct batch as [|b0 bs]; [now contradiction Hne|].
  unfold bind at 1. rewrite (validate_plain_log _ _ _ Hp).
  destruct (filter_all_rejected _ Ha) as [F1 F2]. rewrite F1, F2.
  cbn [app memory disk logged ticks].
  unfold bind at 1, _deduplicate, bind at 1, get_memory at 1.
  cbn [dedup_loop memory disk logged ticks]. unfold ret at 1.
  unfold log.
  cbn [memory disk logged ticks].
  eexists. split.
  - rewrite <- !app_assoc. reflexivity.
  - intros entry Hin. apply in_or_app. right. apply in_or_app. right.
    apply in_or_app. right. apply in_or_app. left.
    apply (in_map (fun entry => (SkippingInvalid entry, warn))). exact Hin.
Qed.

(** C7, as stated, fails, in two ways.  A reply that is one JSON object
    where a list is expected is not logged as a failure: the turn returns
    and every message that it logs is of level [info].  And a reply that
    is a list with a candidate whose content is a number makes
    [extract_and_store] raise [TypeError] to its caller. *)
Lemma malformed_reply_unnoticed_or_raising :
  (exists st',
     extract_and_store sample_clock (fun _ : string => Some sample_new)
                       "Karaoke?" "No." "planner" (Response (Some "{...}"))
                       sample_state
     = Returned tt st'
     /\ memory st' = memory sample_state
     /\ all_info (logged st'))
  /\ exists st',
       extract_and_store sample_clock (sample_loads [sample_number])
                         "Karaoke?" "No." "planner" (Response (Some "[...]"))
                         sample_state
       = Raised TypeError st'.
Proof.
  split.
  - eexists. split; [vm_compute; reflexivity|].
    split; [reflexivity | repeat constructor].
  - eexists. vm_compute. reflexivity.
Qed.

(** C7, amended: what [extract_and_store] does on a reply that brings no
    good candidate.  When the call of the extraction service fails (it
    raises, as on a time-out, or its response has no text, or the text is
    not JSON, or the decoded value has no length), or the reply decodes to
    an object or a string, or it decodes to a list of candidates that the
    validation judges and rejects, [extract_and_store] returns without
    raising; the store and the snapshot file are as before and the clock
    has not been read.  A failing call is logged at level [warn] or
    [err]; every rejected candidate is logged at level [warn]; but for an
    object or a string every message logged is of level [info]. *)
Theorem failed_extraction_changes_nothing
    (user_message ai_response source_agent : string) (reply : Reply)
    (st : State) :
  service_fails json_loads reply
  \/ replies_with_no_list json_loads reply
  \/ (exists batch, replies_with_rejects json_loads reply batch) ->
  exists st',
    extract_and_store clock json_loads user_message ai_response source_agent
                      reply st
    = Returned tt st'
    /\ memory st' = memory st
    /\ disk st' = disk st
    /\ ticks st' = ticks st
    /\ exists l',
         logged st' = (logged st ++ l')%list
         /\ (service_fails json_loads reply ->
             In (ExtractionFailed, err) l'
             \/ In (ExtractionInvalidJson, warn) l')
         /\ (replies_with_no_list json_loads reply -> all_info l')
         /\ (forall batch entry,
               replies_with_rejects json_loads reply batch ->
               In entry batch ->
               In (SkippingInvalid entry, warn) l').
Proof.
  intros [Hf | [Hn | [batch Hb]]].
  - destruct (extract_of_failing_call clock json_loads user_message
                ai_response source_agent reply st Hf) as [l' [E Hl]].
    eexists. split; [exact E|]. cbn [memory disk logged ticks].
    repeat split. exists l'. split; [reflexivity|].
    split; [intros _; exact Hl|]. split.
    + intro Hn. destruct (fails_or_no_list reply Hf Hn).
    + intros b e [Hr _] _. destruct (fails_or_list reply b Hf Hr).
  - destruct (extract_of_no_list user_message ai_response source_agent
                reply st Hn) as [l' [E Hl]].
    eexists. split; [exact E|]. cbn [memory disk logged ticks].
    repeat split. exists l'. split; [reflexivity|].
    split; [|split].
    + intro Hf. destruct (fails_or_no_list reply Hf Hn).
    + intros _. exact Hl.
    + intros b e [Hr _] _. destruct (no_list_or_list reply b Hn Hr).
  - destruct (extract_of_rejects user_message ai_response source_agent
                reply batch st Hb) as [l' [E Hl]].
    eexists. split; [exact E|]. cbn [memory disk logged ticks].
    repeat split. exists l'. split; [reflexivity|].
    destruct Hb as [Hr Hrest]. split; [|split].
    + intro Hf. destruct (fails_or_list reply batch Hf Hr).
    + intro Hn. destruct (no_list_or_list reply batch Hn Hr).
    + intros b e [Hr' _] Hin.
      rewrite (replies_with_one_list reply batch b Hr Hr') in Hin.
      now apply Hl.
Qed.

End MalformedReplies.

(* ================================================================== *)
(** ** Further properties: candidates of the wrong type *)
(* ================================================================== *)

Lemma textual_checkable (entry : json) : textual entry -> checkable entry.
Proof.
  intro H. exists (accepts entry). now apply is_valid_textual.
Qed.

Lemma passes_textual (entry : json) :
  textual entry -> passes entry = accepts entry.
Proof.
  intro H. unfold passes. rewrite (is_valid_textual _ H).
  now destruct (accepts entry).
Qed.

(** The validation loop on candidates that can be checked. *)
Lemma validate_checkable (batch valid_entries : list json) (st : State) :
  Forall checkable batch ->
  exists l',
    validate batch valid_entries st
    = Returned (valid_entries ++ filter passes batch)%list
               (mkState (memory st) (disk st) (logged st ++ l')%list
                        (ticks st)).
Proof.
  intro H. revert valid_entries st.
  induction H as [|entry batch [b Hb] _ IH]; intros valid_entries st.
  - exists []. destruct st. cbn. unfold ret. now rewrite !app_nil_r.
  - cbn [validate filter]. unfold passes at 1. unfold bind at 1.
    rewrite Hb. cbn [lift]. unfold ret at 1.
    destruct b.
    + destruct (IH (valid_entries ++ [entry])%list st) as [l' E].
      exists l'. rewrite E. now rewrite <- app_assoc.
    + unfold bind at 1. unfold log at 1.
      destruct (IH valid_entries
                   (mkState (memory st) (disk st)
                            (logged st ++ [(SkippingInvalid entry, warn)])
                            (ticks st))) as [l' E].
      rewrite E. cbn [memory disk logged ticks].
      eexists. now rewrite <- app_assoc.
Qed.

(** The validation loop stops at the first candidate on which the test
    raises. *)
Lemma validate_raises (pre post : list json) (bad : json) (e : exn)
    (valid_entries : list json) (st : State) :
  Forall checkable pre ->
  is_valid bad = inl e ->
  exists l',
    validate (pre ++ bad :: post) valid_entries st
    = Raised e (mkState (memory st) (disk st) (logged st ++ l')%list
                        (ticks st)).
Proof.
  intros H Hbad. revert valid_entries st.
  induction H as [|entry pre [b Hb] _ IH]; intros valid_entries st.
  - cbn [app validate]. unfold bind. rewrite Hbad. cbn [lift]. unfold raise.
    exists []. destruct st. cbn. now rewrite app_nil_r.
  - cbn [app validate]. unfold bind at 1.
    rewrite Hb. cbn [lift]. unfold ret at 1.
    destruct b.
    + apply IH.
    + unfold bind at 1. unfold log at 1.
      destruct (IH valid_entries
                   (mkState (memory st) (disk st)
                            (logged st ++ [(SkippingInvalid entry, warn)])
                            (ticks st))) as [l' E].
      rewrite E. cbn [memory disk logged ticks].
      eexists. now rewrite <- app_assoc.
Qed.

(** The second loop of [_deduplicate] stops at the first candidate whose
    content is not a string. *)
Lemma dedup_loop_raises (pre post : list json) (bad v : json)
    (existing : list string) (unique : list json) (st : State) :
  Forall (fun entry => exists s, member "content" entry = Some (JStr s)) pre ->
  member "content" bad = Some v ->
  as_text v = inl AttributeError ->
  exists l',
    dedup_loop (pre ++ bad :: post) existing unique st
    = Raised AttributeError
             (mkState (memory st) (disk st) (logged st ++ l')%list
                      (ticks st)).
Proof.
  intros H Hv Ht. revert existing unique st.
  induction H as [|entry pre [s Hs] _ IH]; intros existing unique st.
  - cbn [app dedup_loop].
    destruct bad as [| | | | |items|kv]; try discriminate Hv.
    cbn [member] in Hv. unfold subscript. rewrite Hv.
    cbv [bind lift ret]. rewrite Ht. cbv [raise].
    exists []. destruct st. cbn. now rewrite app_nil_r.
  - cbn [app dedup_loop].
    destruct entry as [| | | | |items|kv]; try discriminate Hs.
    cbn [member] in Hs. unfold subscript. rewrite Hs.
    cbv [bind lift ret as_text].
    destruct (seen (normalized s) existing).
    + unfold log at 1.
      destruct (IH existing unique
                   (mkState (memory st) (disk st)
                            (logged st
                             ++ [(DedupSkipping (PyStr.take 60 s), info)])
                            (ticks st))) as [l' E].
      rewrite E. cbn [memory disk logged ticks].
      eexists. now rewrite <- app_assoc.
    + apply IH.
Qed.

Lemma is_valid_unsized (bad v : json) :
  names_category bad = true ->
  member "content" bad = Some v ->
  Py.truthy v = true ->
  Py.len v = inl TypeError ->
  is_valid bad = inl TypeError.
Proof.
  unfold names_category.
  destruct bad as [| | | | |items|kv]; try discriminate.
  cbn [member]. intros Hc Hv Ht Hl. unfold is_valid, subscript.
  destruct (Py.lookup "category" kv) as [cv|]; [|discriminate Hc].
  now rewrite Hc, Hv, Ht, Hl.
Qed.

Lemma passes_sized (bad v : json) (n : nat) :
  names_category bad = true ->
  member "content" bad = Some v ->
  Py.len v = inr n ->
  3 < n ->
  passes bad = true /\ checkable bad.
Proof.
  unfold names_category, passes, checkable.
  destruct bad as [| | | | |items|kv]; try discriminate.
  cbn [member]. intros Hc Hv Hl Hn. unfold is_valid, subscript.
  destruct (Py.lookup "category" kv) as [cv|]; [|discriminate Hc].
  rewrite Hc, Hv, Hl.
  assert (Ht : Py.truthy v = true).
  { destruct v as [| | | |[|c0 s]|[|j items]|[|p kv']];
      try discriminate Hl; try reflexivity;
      cbn in Hl; injection Hl as <-; lia. }
  rewrite Ht. apply Nat.ltb_lt in Hn. rewrite Hn.
  split; [reflexivity | now exists true].
Qed.

Section WrongTypes.

Variable clock : nat -> Datetime.
Variable json_loads : string -> option json.

(** X3: one candidate whose content is a number or [true] aborts the whole
    turn.  When the batch holds an object that names a valid category and
    whose content is a value that is true and has no length, and the test
    raises on no candidate before it, [extract_and_store] raises
    [TypeError] out of the validation loop, and nothing of the batch is
    stored, the candidates before it included: store, snapshot file and
    clock are as they were. *)
Theorem unsized_content_raises_type_error
    (u a source : string) (reply : Reply) (pre post : list json)
    (bad v : json) (st : State) :
  replies_with json_loads reply (pre ++ bad :: post) ->
  Forall checkable pre ->
  names_category bad = true ->
  member "content" bad = Some v ->
  Py.truthy v = true ->
  Py.len v = inl TypeError ->
  exists st',
    extract_and_store clock json_loads u a source reply st
    = Raised TypeError st'
    /\ memory st' = memory st
    /\ disk st' = disk st
    /\ ticks st' = ticks st.
Proof.
  intros Hr Hpre Hc Hv Ht Hl.
  destruct (extract_continues clock json_loads u a source reply st)
    as [c [l' [E [Hitems _]]]].
  destruct Hr as [text [-> Hj]].
  rewrite (Hitems text _ eq_refl Hj) in E. cbn [items_of] in E.
  rewrite E. unfold store_candidates.
  destruct (pre ++ bad :: post)%list as [|x xs] eqn:Eb.
  { now destruct pre. }
  rewrite <- Eb. unfold bind at 1.
  match goal with
  | |- context [validate _ [] ?st0] =>
      destruct (validate_raises pre post bad TypeError [] st0 Hpre
                  (is_valid_unsized bad v Hc Hv Ht Hl)) as [l2 E2]
  end.
  rewrite E2. eexists. split; [reflexivity|]. repeat split.
Qed.

(** X4: one accepted candidate whose content is a list or an object aborts
    the turn as well.  When the batch holds an object that names a valid
    category and whose content has more than three items but is not a
    string, the candidates before it have textual contents and the test
    raises on none after it, the validation accepts it and
    [extract_and_store] raises [AttributeError] out of [_deduplicate];
    store, snapshot file and clock are as they were. *)
Theorem unlowerable_content_raises_attribute_error
    (u a source : string) (reply : Reply) (pre post : list json)
    (bad v : json) (n : nat) (st : State) :
  replies_with json_loads reply (pre ++ bad :: post) ->
  Forall textual pre ->
  Forall checkable post ->
  names_category bad = true ->
  member "content" bad = Some v ->
  Py.len v = inr n ->
  3 < n ->
  as_text v = inl AttributeError ->
  exists st',
    extract_and_store clock json_loads u a source reply st
    = Raised AttributeError st'
    /\ memory st' = memory st
    /\ disk st' = disk st
    /\ ticks st' = ticks st.
Proof.
  intros Hr Hpre Hpost Hc Hv Hl Hn Ht.
  destruct (passes_sized bad v n Hc Hv Hl Hn) as [Hp Hck].
  destruct (extract_continues clock json_loads u a source reply st)
    as [c [l' [E [Hitems _]]]].
  destruct Hr as [text [-> Hj]].
  rewrite (Hitems text _ eq_refl Hj) in E. cbn [items_of] in E.
  rewrite E. unfold store_candidates.
  destruct (pre ++ bad :: post)%list as [|x xs] eqn:Eb.
  { now destruct pre. }
  rewrite <- Eb. unfold bind at 1.
  assert (Hall : Forall checkable (pre ++ bad :: post)).
  { apply Forall_app. split.
    - eapply Forall_impl; [|exact Hpre]. apply textual_checkable.
    - constructor; assumption. }
  match goal with
  | |- context [validate _ [] ?st0] =>
      destruct (validate_checkable (pre ++ bad :: post) [] st0 Hall)
        as [l2 E2]
  end.
  rewrite E2. clear E2. cbn [app memory disk logged ticks].
  rewrite filter_app. cbn [filter]. rewrite Hp.
  unfold bind at 1. unfold _deduplicate.
  unfold bind at 1. unfold get_memory at 1. cbn [memory disk logged ticks].
  match goal with
  | |- context [dedup_loop _ ?ex [] ?st0] =>
      destruct (dedup_loop_raises (filter passes pre) (filter passes post)
                  bad v ex [] st0) as [l3 E3]
  end.
  - apply Forall_forall. intros entry Hin. apply filter_In in Hin.
    destruct Hin as [Hin Hpass]. rewrite Forall_forall in Hpre.
    rewrite (passes_textual _ (Hpre _ Hin)) in Hpass.
    apply accepts_iff in Hpass. destruct Hpass as [_ [s [_ [Hs _]]]].
    now exists s.
  - exact Hv.
  - exact Ht.
  - rewrite E3. eexists. split; [reflexivity|]. repeat split.
Qed.

End WrongTypes.

(* ================================================================== *)
(** ** Further properties: what deduplication lets through *)
(* ================================================================== *)

Lemma seen_iff (key : string) (existing : list string) :
  seen key existing = true <-> In key existing.
Proof.
  unfold seen. rewrite existsb_exists. split.
  - intros [x [Hx E]]. apply String.eqb_eq in E. now subst.
  - intro H. exists key. split; [exact H | apply String.eqb_refl].
Qed.

Lemma not_seen_iff (key : string) (existing : list string) :
  seen key existing = false <-> ~ In key existing.
Proof.
  rewrite <- seen_iff. now destruct (seen key existing).
Qed.

(** What is let through comes from the batch, has a text, and a key that
    had not been seen. *)
Lemma fresh_ones_sound (batch : list json) (existing : list string)
    (entry : json) :
  In entry (fresh_ones batch existing) ->
  In entry batch /\ has_text entry /\ ~ In (candidate_key entry) existing.
Proof.
  revert existing.
  induction batch as [|x batch IH]; intros existing; cbn [fresh_ones].
  - intros [].
  - destruct (member "content" x) as [[| | | |s| |]|] eqn:Ex;
      try (intro H; destruct (IH _ H) as [H1 H2]; split;
           [right; exact H1 | exact H2]).
    destruct (seen (normalized s) existing) eqn:Es.
    + intro H. destruct (IH _ H) as [H1 H2]. split; [now right | exact H2].
    + intros [<- | H].
      * split; [now left|]. split; [now exists s|].
        unfold candidate_key. rewrite Ex. now apply not_seen_iff.
      * destruct (IH _ H) as [H1 [H2 H3]].
        split; [now right|]. split; [exact H2|].
        intro Hin. apply H3. apply in_or_app. now left.
Qed.

(** The keys of what is let through are pairwise different. *)
Lemma fresh_ones_distinct (batch : list json) (existing : list string) :
  NoDup (map candidate_key (fresh_ones batch existing)).
Proof.
  revert existing.
  induction batch as [|x batch IH]; intros existing; cbn [fresh_ones].
  - constructor.
  - destruct (member "content" x) as [[| | | |s| |]|] eqn:Ex; try apply IH.
    destruct (seen (normalized s) existing); [apply IH|].
    cbn [map]. constructor; [|apply IH].
    intro Hin. apply in_map_iff in Hin. destruct Hin as [e [Ek He]].
    destruct (fresh_ones_sound _ _ _ He) as [_ [_ Hn]].
    apply Hn. apply in_or_app. right. left.
    rewrite Ek. unfold candidate_key. now rewrite Ex.
Qed.

(** Nothing new is lost: the key of a textual candidate had been seen, or
    is the key of a candidate let through. *)
Lemma fresh_ones_complete (batch : list json) (existing : list string)
    (entry : json) :
  In entry batch ->
  has_text entry ->
  In (candidate_key entry) existing
  \/ In (candidate_key entry) (map candidate_key (fresh_ones batch existing)).
Proof.
  intros Hin Ht. revert existing.
  induction batch as [|x batch IH]; intros existing; [destruct Hin|].
  cbn [fresh_ones]. destruct Hin as [-> | Hin].
  - destruct Ht as [s Hs]. rewrite Hs.
    destruct (seen (normalized s) existing) eqn:Es.
    + left. unfold candidate_key. rewrite Hs. now apply seen_iff.
    + right. left. reflexivity.
  - destruct (member "content" x) as [[| | | |s| |]|] eqn:Ex;
      try (now apply IH).
    destruct (seen (normalized s) existing); [now apply IH|].
    destruct (IH Hin (existing ++ [normalized s])%list) as [H | H].
    + apply in_app_or in H. destruct H as [H | [H | []]].
      * now left.
      * right. left. unfold candidate_key at 1. now rewrite Ex.
    + right. right. exact H.
Qed.

(** X6: on candidates with textual contents, [_deduplicate] returns,
    touching nothing, candidates of the batch whose keys are pairwise
    different and are no key of an active entry of any category; and
    nothing new is lost, since the key of every candidate of the batch is a
    key of the store or the key of a candidate returned. *)
Theorem deduplicate_returns_new_distinct_keys (batch : list json)
    (st : State) :
  Forall has_text batch ->
  exists unique st',
    _deduplicate batch st = Returned unique st'
    /\ memory st' = memory st
    /\ disk st' = disk st
    /\ NoDup (map candidate_key unique)
    /\ (forall entry,
          In entry unique ->
          In entry batch
          /\ ~ In (candidate_key entry) (existing_contents_of (memory st)))
    /\ (forall entry,
          In entry batch ->
          In (candidate_key entry) (existing_contents_of (memory st))
          \/ In (candidate_key entry) (map candidate_key unique)).
Proof.
  intro H. unfold _deduplicate. unfold bind, get_memory.
  destruct (dedup_loop_spec batch (existing_contents_of (memory st)) [] st H)
    as [l' E].
  rewrite E. cbn [app]. eexists. eexists. split; [reflexivity|].
  cbn [memory disk]. repeat split.
  - apply fresh_ones_distinct.
  - now apply (fresh_ones_sound _ _ _ H0).
  - now apply (fresh_ones_sound _ _ _ H0).
  - intros entry Hin. apply fresh_ones_complete; [exact Hin|].
    rewrite Forall_forall in H. now apply H.
Qed.

(* ================================================================== *)
(** ** Further properties: the keys of the store stay distinct *)
(* ================================================================== *)

(** How to reason about the state that a sequence of two steps leaves. *)
Lemma bind_after {A B} (call : M A) (k : A -> M B) (st : State)
    (Q : State -> Prop) :
  (forall e st', call st = Raised e st' -> Q st') ->
  (forall a st', call st = Returned a st' -> Q (state_after (k a st'))) ->
  Q (state_after (bind call k st)).
Proof.
  intros Hr Hk. rewrite state_after_bind.
  destruct (call st) as [a st'|e st'].
  - now apply Hk.
  - now apply (Hr e).
Qed.

Lemma preserves_bind (I : Store -> Prop) {A B} (call : M A) (k : A -> M B) :
  preserves I call -> (forall a, preserves I (k a)) ->
  preserves I (bind call k).
Proof.
  intros Hc Hk st Hi. apply bind_after.
  - intros e st' E. specialize (Hc st Hi). now rewrite E in Hc.
  - intros a st' E. apply Hk. specialize (Hc st Hi). now rewrite E in Hc.
Qed.

Lemma preserves_keeps_memory (I : Store -> Prop) {A} (call : M A) :
  keeps_memory call -> preserves I call.
Proof.
  intros H st Hi. now rewrite H.
Qed.

(** When the second loop of [_deduplicate] returns, it returns what
    [fresh_ones] describes. *)
Lemma dedup_loop_returned (batch : list json) (existing : list string)
    (unique u : list json) (st st' : State) :
  dedup_loop batch existing unique st = Returned u st' ->
  u = (unique ++ fresh_ones batch existing)%list.
Proof.
  revert existing unique st.
  induction batch as [|x batch IH]; intros existing unique st;
    cbn [dedup_loop fresh_ones].
  - unfold ret. intros [= <- _]. now rewrite app_nil_r.
  - unfold bind at 1.
    destruct x as [| | | | |items|kv]; try discriminate.
    unfold subscript at 1. cbn [member].
    destruct (Py.lookup "content" kv) as [v|]; [|discriminate].
    cbn [lift]. unfold ret at 1. unfold bind at 1.
    destruct v as [| | | |s| |]; try discriminate.
    cbn [as_text lift]. unfold ret at 1.
    destruct (seen (normalized s) existing).
    + unfold bind at 1. unfold log at 1. apply IH.
    + intro H. apply IH in H. now rewrite <- app_assoc in H.
Qed.

(** The body of the storing loop raises and leaves the state, or returns
    after it has appended one entry with the text of the candidate. *)
Lemma store_entry_cases (source now_text : string) (entry : json)
    (st : State) :
  (exists e, store_entry source now_text entry st = Raised e st)
  \/ exists c s new st',
       member "content" entry = Some (JStr s)
       /\ content new = s
       /\ store_entry source now_text entry st = Returned tt st'
       /\ memory st'
          = mkStore (version (memory st)) (last_updated (memory st))
                    (set_entries c
                       (entries_of c (categories (memory st)) ++ [new])%list
                       (categories (memory st)))
                    (archive (memory st)).
Proof.
  destruct st as [m dk lg k]. unfold store_entry, _generate_id.
  destruct (subscript entry "category") as [x|kv] eqn:E1;
    [left; now exists x|].
  cbv [bind lift ret raise get_memory].
  destruct (category_key kv) as [x|c]; [left; now exists x|].
  destruct entry as [| | | | |items|members]; try discriminate E1.
  unfold subscript, Py.get. cbn [member].
  destruct (Py.lookup "content" members) as [v|]; [|left; now exists KeyError].
  destruct v as [| | | |s| |];
    try (left; now exists AttributeError).
  cbn [as_text]. right.
  exists c, s. eexists. eexists.
  split; [reflexivity|]. split; [|split; reflexivity]. reflexivity.
Qed.

Lemma permutation_append_middle {A} (a l b : list A) (e : A) :
  Permutation (a ++ (l ++ [e]) ++ b) (e :: a ++ l ++ b).
Proof.
  apply Permutation_sym.
  replace (a ++ (l ++ [e]) ++ b)%list with ((a ++ l) ++ e :: b)%list
    by (now rewrite <- !app_assoc).
  apply Permutation_cons_app. rewrite app_assoc. apply Permutation_refl.
Qed.

(** Appending to a category adds one active entry to the store. *)
Lemma active_entries_append (c : Category) (e : Entry) (m : Store) :
  Permutation
    (active_entries
       (mkStore (version m) (last_updated m)
                (set_entries c (entries_of c (categories m) ++ [e])%list
                             (categories m))
                (archive m)))
    (e :: active_entries m).
Proof.
  destruct m as [v lu [l1 l2 l3 l4 l5] ar].
  unfold active_entries, CATEGORIES.
  destruct c;
    cbn [flat_map categories entries_of set_entries in_owner_preferences
         in_approved_decisions in_rejected_ideas in_operational_notes
         in_event_history];
    rewrite ?app_nil_r.
  - apply (permutation_append_middle [] l1 (l2 ++ l3 ++ l4 ++ l5)).
  - apply (permutation_append_middle l1 l2 (l3 ++ l4 ++ l5)).
  - rewrite !(app_assoc l1 l2).
    apply (permutation_append_middle (l1 ++ l2) l3 (l4 ++ l5)).
  - rewrite !(app_assoc l1 l2), !(app_assoc (l1 ++ l2) l3).
    apply (permutation_append_middle ((l1 ++ l2) ++ l3) l4 l5).
  - rewrite !(app_assoc l1 l2), !(app_assoc (l1 ++ l2) l3),
      !(app_assoc ((l1 ++ l2) ++ l3) l4).
    rewrite (app_assoc _ l5 [e]).
    apply Permutation_sym, Permutation_cons_append.
Qed.

Lemma existing_contents_append (c : Category) (e : Entry) (m : Store) :
  Permutation
    (existing_contents_of
       (mkStore (version m) (last_updated m)
                (set_entries c (entries_of c (categories m) ++ [e])%list
                             (categories m))
                (archive m)))
    (normalized (content e) :: existing_contents_of m).
Proof.
  unfold existing_contents_of.
  apply (Permutation_map (fun e => normalized (content e))
                         (active_entries_append c e m)).
Qed.

(** One turn of the storing loop keeps what the loop relies on. *)
Lemma storable_step (source now_text : string) (x : json)
    (rest : list json) (st : State) :
  storable (memory st) (x :: rest) ->
  match store_entry source now_text x st with
  | Returned _ st' => storable (memory st') rest
  | Raised _ st' => distinct_keys (memory st')
  end.
Proof.
  intros [Hd [Hn Hf]].
  destruct (store_entry_cases source now_text x st)
    as [[e E] | [c [s [new [st' [Hs [Hc [E Hm]]]]]]]]; rewrite E.
  - exact Hd.
  - assert (Ek : candidate_key x = normalized (content new)).
    { unfold candidate_key. now rewrite Hs, Hc. }
    inversion Hn as [|k ks Hk Hks]. subst k ks.
    inversion Hf as [|y ys [_ Hy] Hys]. subst y ys.
    pose proof (existing_contents_append c new (memory st)) as P.
    rewrite <- Hm in P.
    split; [|split].
    + unfold distinct_keys.
      apply (Permutation_NoDup (Permutation_sym P)).
      constructor; [now rewrite <- Ek | exact Hd].
    + exact Hks.
    + rewrite Forall_forall in *. intros y Hin.
      destruct (Hys y Hin) as [Ht Hnin]. split; [exact Ht|].
      intro H. apply (Permutation_in _ P) in H. destruct H as [H | H].
      * apply Hk. rewrite Ek, H. now apply in_map.
      * now apply Hnin.
Qed.

(** The storing loop leaves a store with distinct keys, whether it gets
    through or raises on the way. *)
Lemma storing_loop_distinct (source now_text : string) (pending : list json)
    (st : State) :
  storable (memory st) pending ->
  distinct_keys
    (memory (state_after
               (for_each pending (store_entry source now_text) st))).
Proof.
  revert st. induction pending as [|x rest IH]; intros st H.
  - apply H.
  - cbn [for_each]. rewrite state_after_bind.
    pose proof (storable_step source now_text x rest st H) as Hs.
    destruct (store_entry source now_text x st) as [a st'|e st'].
    + now apply IH.
    + exact Hs.
Qed.

Lemma flat_map_filter {A B} (f : A -> list B) (p : B -> bool) (l : list A) :
  flat_map (fun a => filter p (f a)) l = filter p (flat_map f l).
Proof.
  induction l as [|a l IH]; cbn [flat_map]; [reflexivity|].
  now rewrite filter_app, IH.
Qed.

(** Dropping entries keeps their keys distinct. *)
Lemma filtered_keys_distinct (keep : Entry -> bool) (entries : list Entry) :
  NoDup (map (fun e => normalized (content e)) entries) ->
  NoDup (map (fun e => normalized (content e)) (filter keep entries)).
Proof.
  intro H. induction entries as [|e rest IH]; [constructor|].
  cbn [map] in H. apply NoDup_cons_iff in H. destruct H as [Hnew Hrest].
  cbn [filter]. destruct (keep e); [|now apply IH].
  cbn [map]. apply NoDup_cons; [|now apply IH].
  intro Hin. apply Hnew. apply in_map_iff in Hin.
  destruct Hin as [e' [Ek He]]. apply filter_In in He.
  apply in_map_iff. exists e'. split; [exact Ek | apply He].
Qed.

Lemma active_entries_kept (cutoff : string) (m : Store) (ar : list Archived) :
  active_entries
    (mkStore (version m) (last_updated m) (kept cutoff (categories m)) ar)
  = filter (fun e => negb (older_than cutoff e)) (active_entries m).
Proof.
  unfold active_entries. cbn [categories].
  rewrite <- flat_map_filter. apply flat_map_ext.
  intro c. apply entries_of_kept.
Qed.

Lemma preserves_distinct_prune (clock : nat -> Datetime) (max_age_days : Z) :
  preserves distinct_keys (prune_old_entries clock max_age_days).
Proof.
  intros st Hd.
  destruct (Calendar.minus_days (clock (ticks st)) max_age_days) as [d|] eqn:E.
  - destruct (prune_old_entries_returns clock max_age_days st d E) as [l' R].
    rewrite R. cbn [state_after memory].
    unfold distinct_keys, existing_contents_of.
    rewrite active_entries_kept. now apply filtered_keys_distinct.
  - rewrite (prune_old_entries_overflow clock max_age_days st E). exact Hd.
Qed.

Lemma preserves_distinct_save (clock : nat -> Datetime) :
  preserves distinct_keys (save_memory clock).
Proof.
  intros st Hd. rewrite save_memory_memory. exact Hd.
Qed.

Section DistinctKeys.

Variable clock : nat -> Datetime.
Variable json_loads : string -> option json.

Lemma preserves_distinct_store_candidates (source : string)
    (new_entries : list json) :
  preserves distinct_keys (store_candidates clock source new_entries).
Proof.
  intros st Hd. unfold store_candidates.
  destruct new_entries as [|n0 ns]; [exact Hd|].
  apply bind_after.
  { intros e st' E. pose proof (keeps_memory_validate (n0 :: ns) [] st) as K.
    rewrite E in K. cbn in K. now rewrite K. }
  intros valid st1 E1.
  assert (M1 : memory st1 = memory st).
  { pose proof (keeps_memory_validate (n0 :: ns) [] st) as K.
    now rewrite E1 in K. }
  apply bind_after.
  { intros e st' E. pose proof (keeps_memory_deduplicate valid st1) as K.
    rewrite E in K. cbn in K. now rewrite K, M1. }
  intros unique st2 E2.
  assert (M2 : memory st2 = memory st).
  { pose proof (keeps_memory_deduplicate valid st1) as K.
    rewrite E2 in K. cbn in K. now rewrite K. }
  assert (U : unique
              = fresh_ones valid (existing_contents_of (memory st))).
  { unfold _deduplicate, bind, get_memory in E2.
    apply dedup_loop_returned in E2. now rewrite M1 in E2. }
  destruct unique as [|u0 us]; [cbn; now rewrite M2|].
  apply bind_after; [discriminate|].
  intros now_text st3 E3. unfold now_isoformat, bind, now, ret in E3.
  injection E3 as <- <-.
  apply bind_after.
  - intros e st' E.
    pose proof (storing_loop_distinct source (Calendar.isoformat
                                                (clock (ticks st2)))
                  (u0 :: us)
                  (mkState (memory st2) (disk st2) (logged st2)
                           (S (ticks st2)))) as L.
    rewrite E in L. apply L. cbn [memory]. rewrite M2.
    split; [exact Hd|]. split.
    + rewrite U. apply fresh_ones_distinct.
    + apply Forall_forall. intros entry Hin. rewrite U in Hin.
      now apply fresh_ones_sound in Hin.
  - intros [] st4 E4.
    assert (D4 : distinct_keys (memory st4)).
    { pose proof (storing_loop_distinct source
                    (Calendar.isoformat (clock (ticks st2))) (u0 :: us)
                    (mkState (memory st2) (disk st2) (logged st2)
                             (S (ticks st2)))) as L.
      rewrite E4 in L. apply L. cbn [memory]. rewrite M2.
      split; [exact Hd|]. split.
      - rewrite U. apply fresh_ones_distinct.
      - apply Forall_forall. intros entry Hin. rewrite U in Hin.
        now apply fresh_ones_sound in Hin. }
    revert st4 D4 E4. intros st4 D4 _. revert st4 D4.
    change (preserves distinct_keys
              (save_memory clock ;;;
               pruned <- prune_old_entries clock 180 ;;
               if Nat.ltb 0 pruned then save_memory clock else ret tt)%py).
    apply preserves_bind; [apply preserves_distinct_save | intros _].
    apply preserves_bind; [apply preserves_distinct_prune | intros pruned].
    destruct (Nat.ltb 0 pruned);
      [apply preserves_distinct_save
      | apply preserves_keeps_memory, keeps_memory_ret].
Qed.

Lemma preserves_distinct_extract (u a source : string) (reply : Reply) :
  preserves distinct_keys
            (extract_and_store clock json_loads u a source reply).
Proof.
  intros st Hd.
  destruct (extract_continues clock json_loads u a source reply st)
    as [c [l' [E _]]].
  rewrite E.
  apply (preserves_distinct_store_candidates source c
           (mkState (memory st) (disk st) (logged st ++ l')%list (ticks st))).
  exact Hd.
Qed.

(** X5: deduplication is an invariant of the store.  In every state that a
    sequence of extractions and prunings reaches from the empty store,
    whatever the service replied and whether the calls returned or raised,
    no two active entries have the same key, across all categories. *)
Theorem reachable_keys_are_distinct (st : State) :
  reachable clock json_loads st ->
  NoDup (map (fun e => normalized (content e)) (active_entries (memory st))).
Proof.
  induction 1 as [t d l k | st st' _ IH Hs].
  - constructor.
  - destruct Hs.
    + now apply preserves_distinct_extract.
    + now apply preserves_distinct_prune.
Qed.

End DistinctKeys.

(* ================================================================== *)
(** ** Further properties: nothing stored is ever lost *)
(* ================================================================== *)

Lemma extends_refl (m : Store) : extends m m.
Proof.
  split.
  - exists []. now rewrite app_nil_r.
  - intros c e H. now left.
Qed.

Lemma extends_trans (m1 m2 m3 : Store) :
  extends m1 m2 -> extends m2 m3 -> extends m1 m3.
Proof.
  intros [[a1 E1] H1] [[a2 E2] H2]. split.
  - exists (a1 ++ a2)%list. now rewrite E2, E1, app_assoc.
  - intros c e Hin. destruct (H1 c e Hin) as [H | [a [Ha Ho]]].
    + now apply H2.
    + right. exists a. split; [|exact Ho].
      rewrite E2. apply in_or_app. now left.
Qed.

Lemma grows_bind {A B} (call : M A) (k : A -> M B) :
  grows call -> (forall a, grows (k a)) -> grows (bind call k).
Proof.
  intros Hc Hk st. apply bind_after.
  - intros e st' E. specialize (Hc st). now rewrite E in Hc.
  - intros a st' E. specialize (Hc st). rewrite E in Hc.
    apply (extends_trans _ _ _ Hc). apply Hk.
Qed.

Lemma grows_keeps_memory {A} (call : M A) : keeps_memory call -> grows call.
Proof.
  intros H st. rewrite H. apply extends_refl.
Qed.

Lemma grows_store_entry (source now_text : string) (entry : json) :
  grows (store_entry source now_text entry).
Proof.
  intro st.
  destruct (store_entry_cases source now_text entry st)
    as [[e E] | [c [s [new [st' [_ [_ [E Hm]]]]]]]]; rewrite E.
  - apply extends_refl.
  - cbn [state_after]. rewrite Hm. split.
    + exists []. now rewrite app_nil_r.
    + intros c' e Hin. left. cbn [categories].
      destruct (cat_eq_dec c c') as [<- | Hne].
      * rewrite entries_of_set_same. apply in_or_app. now left.
      * now rewrite (entries_of_set_other c c' _ _ Hne).
Qed.

Lemma grows_for_each {A} (xs : list A) (body : A -> M unit) :
  (forall x, grows (body x)) -> grows (for_each xs body).
Proof.
  intro Hb. induction xs as [|x xs IH]; cbn [for_each].
  - apply grows_keeps_memory, keeps_memory_ret.
  - apply grows_bind; [apply Hb | intros _; exact IH].
Qed.

Lemma grows_save (clock : nat -> Datetime) : grows (save_memory clock).
Proof.
  intro st. rewrite save_memory_memory. split.
  - exists []. cbn [archive]. now rewrite app_nil_r.
  - intros c e H. now left.
Qed.

Lemma grows_prune (clock : nat -> Datetime) (max_age_days : Z) :
  grows (prune_old_entries clock max_age_days).
Proof.
  intro st.
  destruct (Calendar.minus_days (clock (ticks st)) max_age_days) as [d|] eqn:E.
  - destruct (prune_old_entries_returns clock max_age_days st d E) as [l' R].
    rewrite R. cbn [state_after memory]. split.
    + eexists. reflexivity.
    + intros c e Hin. cbn [categories archive].
      destruct (older_than (Calendar.isoformat d) e) eqn:Ho.
      * right.
        assert (Hm : In (c, e)
                        (map origin
                           (moved clock (Calendar.isoformat d) CATEGORIES
                                  (S (ticks st)) (categories (memory st))))).
        { rewrite origin_moved. apply in_flat_map. exists c. split.
          - destruct c; simpl; tauto.
          - apply in_map. apply filter_In. now split. }
        apply in_map_iff in Hm. destruct Hm as [a [Ha Hin']].
        exists a. split; [|exact Ha]. apply in_or_app. now right.
      * left. rewrite entries_of_kept. apply filter_In.
        split; [exact Hin | now rewrite Ho].
  - rewrite (prune_old_entries_overflow clock max_age_days st E).
    apply extends_refl.
Qed.

Section NothingLost.

Variable clock : nat -> Datetime.
Variable json_loads : string -> option json.

Lemma grows_extract (u a source : string) (reply : Reply) :
  grows (extract_and_store clock json_loads u a source reply).
Proof.
  unfold extract_and_store.
  apply grows_bind; [apply grows_keeps_memory, keeps_memory_log | intros _].
  apply grows_bind;
    [apply grows_keeps_memory, keeps_memory_context | intros summary].
  apply grows_bind;
    [apply grows_keeps_memory, keeps_memory_call | intros new_entries].
  destruct new_entries as [|n0 ns];
    [apply grows_keeps_memory, keeps_memory_log|].
  apply grows_bind;
    [apply grows_keeps_memory, keeps_memory_validate | intros valid].
  apply grows_bind;
    [apply grows_keeps_memory, keeps_memory_deduplicate | intros unique].
  destruct unique as [|u0 us];
    [apply grows_keeps_memory, keeps_memory_log|].
  apply grows_bind;
    [apply grows_keeps_memory, keeps_memory_now_isoformat | intros now_text].
  apply grows_bind;
    [apply grows_for_each; intro x; apply grows_store_entry | intros _].
  apply grows_bind; [apply grows_save | intros _].
  apply grows_bind; [apply grows_prune | intros pruned].
  destruct (Nat.ltb 0 pruned);
    [apply grows_save | apply grows_keeps_memory, keeps_memory_ret].
Qed.

Lemma reaches_extends (st st' : State) :
  reaches clock json_loads st st' -> extends (memory st) (memory st').
Proof.
  induction 1 as [st | st st' st'' _ IH Hs].
  - apply extends_refl.
  - apply (extends_trans _ _ _ IH). destruct Hs.
    + apply grows_extract.
    + apply grows_prune.
Qed.

(** X7: nothing that the store holds is ever deleted.  Along any sequence
    of extractions and prunings, returning or raising, the archive only
    gets longer at its end, and every entry that was active is still
    active in its category or is in the archive with that category as
    [original_category]. *)
Theorem stored_entries_are_never_lost (st st' : State) :
  reaches clock json_loads st st' ->
  (exists more, archive (memory st') = (archive (memory st) ++ more)%list)
  /\ forall c e,
       In e (entries_of c (categories (memory st))) ->
       In e (entries_of c (categories (memory st')))
       \/ exists a,
            In a (archive (memory st'))
            /\ entry_of a = e /\ original_category a = c.
Proof.
  intro H. destruct (reaches_extends st st' H) as [Ha He].
  split; [exact Ha|]. intros c e Hin.
  destruct (He c e Hin) as [Hl | [a [Hin' Ho]]]; [now left|].
  right. exists a. split; [exact Hin'|].
  unfold origin in Ho. now inversion Ho.
Qed.

End NothingLost.

(* ================================================================== *)
(** ** Further properties: a pruning that finds nothing *)
(* ================================================================== *)

Lemma filter_nil_iff {A} (p : A -> bool) (l : list A) :
  filter p l = [] <-> Forall (fun a => p a = false) l.
Proof.
  induction l as [|a l IH]; cbn [filter].
  - split; [constructor | reflexivity].
  - destruct (p a) eqn:E; split; intro H.
    + discriminate H.
    + inversion H. congruence.
    + constructor; [exact E | now apply IH].
    + inversion H. now apply IH.
Qed.

Lemma filter_none {A} (p : A -> bool) (l : list A) :
  filter p l = [] -> filter (fun a => negb (p a)) l = l.
Proof.
  induction l as [|a l IH]; cbn [filter]; [reflexivity|].
  destruct (p a); [discriminate|]. intro H. cbn [negb]. now rewrite IH.
Qed.

Lemma stamped_nil (clock : nat -> Datetime) (c : Category) (k : nat)
    (olds : list Entry) :
  stamped clock c k olds = [] -> olds = [].
Proof.
  destruct olds; [reflexivity | discriminate].
Qed.

(** When nothing is moved, every category keeps all its entries. *)
Lemma moved_nil_kept (clock : nat -> Datetime) (cutoff : string) (k : nat)
    (cs : Categories) :
  moved clock cutoff CATEGORIES k cs = [] -> kept cutoff cs = cs.
Proof.
  destruct cs as [l1 l2 l3 l4 l5]. unfold CATEGORIES, kept.
  cbn [moved entries_of in_owner_preferences in_approved_decisions
       in_rejected_ideas in_operational_notes in_event_history].
  intro H.
  apply app_eq_nil in H. destruct H as [H1 H].
  apply app_eq_nil in H. destruct H as [H2 H].
  apply app_eq_nil in H. destruct H as [H3 H].
  apply app_eq_nil in H. destruct H as [H4 H].
  apply app_eq_nil in H. destruct H as [H5 _].
  apply stamped_nil in H1, H2, H3, H4, H5.
  now rewrite !filter_none.
Qed.

Lemma length_moved_active (clock : nat -> Datetime) (cutoff : string)
    (k : nat) (m : Store) :
  List.length (moved clock cutoff CATEGORIES k (categories m))
  = List.length (filter (older_than cutoff) (active_entries m)).
Proof.
  rewrite length_moved. unfold active_entries.
  now rewrite <- flat_map_filter, length_flat_map.
Qed.

(** The state after a pruning that returned. *)
Lemma prune_returned (clock : nat -> Datetime) (max_age_days : Z)
    (st st' : State) (n : nat) :
  prune_old_entries clock max_age_days st = Returned n st' ->
  exists d,
    Calendar.minus_days (clock (ticks st)) max_age_days = Some d
    /\ n = List.length (filter (older_than (Calendar.isoformat d))
                               (active_entries (memory st)))
    /\ disk st' = disk st
    /\ (n = 0 -> memory st' = memory st).
Proof.
  intro H.
  destruct (Calendar.minus_days (clock (ticks st)) max_age_days) as [d|] eqn:E.
  - exists d. split; [reflexivity|].
    destruct (prune_old_entries_returns clock max_age_days st d E) as [l' R].
    rewrite R in H. injection H as <- <-.
    cbn [memory disk]. split; [apply length_moved_active|].
    split; [reflexivity|].
    intro Hz. apply List.length_zero_iff_nil in Hz.
    rewrite Hz, (moved_nil_kept _ _ _ _ Hz), app_nil_r.
    now destruct (memory st).
  - rewrite (prune_old_entries_overflow clock max_age_days st E) in H.
    discriminate H.
Qed.

(** X8: a pruning returns 0 exactly when no active entry is older than the
    cutoff, and it then leaves the store exactly as it was; in any case it
    does not write the snapshot file. *)
Theorem prune_of_nothing_changes_nothing (clock : nat -> Datetime)
    (max_age_days : Z) (st : State) (d : Datetime) :
  Calendar.minus_days (clock (ticks st)) max_age_days = Some d ->
  exists n st',
    prune_old_entries clock max_age_days st = Returned n st'
    /\ (n = 0
        <-> Forall (fun e => older_than (Calendar.isoformat d) e = false)
                   (active_entries (memory st)))
    /\ (n = 0 -> memory st' = memory st)
    /\ disk st' = disk st.
Proof.
  intro E.
  destruct (prune_old_entries_returns clock max_age_days st d E) as [l' R].
  eexists. eexists. split; [exact R|].
  destruct (prune_returned clock max_age_days st _ _ R)
    as [d' [E' [Hn [Hd Hm]]]].
  rewrite E in E'. injection E' as <-.
  split; [|split; [exact Hm | exact Hd]].
  rewrite Hn, List.length_zero_iff_nil. apply filter_nil_iff.
Qed.

(* ================================================================== *)
(** ** Further properties: the snapshot file after a turn *)
(* ================================================================== *)

Lemma quiet_bind {A B} (call : M A) (k : A -> M B) :
  quiet call -> (forall a, quiet (k a)) -> quiet (bind call k).
Proof.
  intros Hc Hk st. rewrite state_after_bind.
  specialize (Hc st). destruct (call st) as [a st'|e st']; cbn in Hc.
  - destruct Hc as [H1 [H2 H3]]. destruct (Hk a st') as [K1 [K2 K3]].
    repeat split; congruence.
  - exact Hc.
Qed.

Lemma quiet_ret {A} (a : A) : quiet (ret a).
Proof. intro st. repeat split. Qed.

Lemma quiet_lift {A} (r : exn + A) : quiet (lift r).
Proof. intro st. destruct r; repeat split. Qed.

Lemma quiet_log (msg : Message) (lvl : Level) : quiet (log msg lvl).
Proof. intro st. repeat split. Qed.

Lemma quiet_validate (batch valid_entries : list json) :
  quiet (validate batch valid_entries).
Proof.
  revert valid_entries.
  induction batch as [|entry batch IH]; intros valid_entries.
  - apply quiet_ret.
  - cbn [validate]. apply quiet_bind; [apply quiet_lift|].
    intros [|]; [apply IH|].
    apply quiet_bind; [apply quiet_log | intros _; apply IH].
Qed.

Lemma quiet_dedup_loop (batch : list json) (existing : list string)
    (unique : list json) :
  quiet (dedup_loop batch existing unique).
Proof.
  revert existing unique.
  induction batch as [|entry batch IH]; intros existing unique.
  - apply quiet_ret.
  - cbn [dedup_loop].
    apply quiet_bind; [apply quiet_lift | intros v].
    apply quiet_bind; [apply quiet_lift | intros text].
    destruct (seen (normalized text) existing); [|apply IH].
    apply quiet_bind; [apply quiet_log | intros _; apply IH].
Qed.

Lemma quiet_deduplicate (batch : list json) : quiet (_deduplicate batch).
Proof.
  unfold _deduplicate. apply quiet_bind.
  - intro st. repeat split.
  - intro m. apply quiet_dedup_loop.
Qed.

Lemma quiet_returned {A} (call : M A) (st st' : State) (a : A) :
  quiet call -> call st = Returned a st' ->
  memory st' = memory st /\ disk st' = disk st /\ ticks st' = ticks st.
Proof.
  intros H E. specialize (H st). now rewrite E in H.
Qed.

Lemma save_memory_syncs (clock : nat -> Datetime) (st st' : State) :
  save_memory clock st = Returned tt st' ->
  disk st' = Document (store_to_json (memory st')).
Proof.
  rewrite save_memory_cases. cbv zeta.
  destruct (writable _); [|discriminate].
  intros [= <-]. reflexivity.
Qed.

Section SnapshotInSync.

Variable clock : nat -> Datetime.
Variable json_loads : string -> option json.

Lemma store_candidates_syncs (source : string) (candidates : list json)
    (st st' : State) :
  store_candidates clock source candidates st = Returned tt st' ->
  (memory st' = memory st /\ disk st' = disk st)
  \/ disk st' = Document (store_to_json (memory st')).
Proof.
  unfold store_candidates.
  destruct candidates as [|n0 ns].
  { intros [= <-]. left. split; reflexivity. }
  unfold bind at 1.
  destruct (validate (n0 :: ns) [] st) as [valid st1|e st1] eqn:E1;
    [|discriminate].
  destruct (quiet_returned _ _ _ _ (quiet_validate _ _) E1) as [M1 [D1 _]].
  unfold bind at 1.
  destruct (_deduplicate valid st1) as [unique st2|e st2] eqn:E2;
    [|discriminate].
  destruct (quiet_returned _ _ _ _ (quiet_deduplicate _) E2) as [M2 [D2 _]].
  destruct unique as [|u0 us].
  { intros [= <-]. left. cbn [memory disk]. split; congruence. }
  unfold bind at 1. unfold now_isoformat at 1, bind at 1, now at 1, ret at 1.
  unfold bind at 1.
  match goal with
  | |- context [for_each ?xs ?body ?s] =>
      destruct (for_each xs body s) as [[] st4|e st4]; [|discriminate]
  end.
  unfold bind at 1.
  destruct (save_memory clock st4) as [[] st5|e st5] eqn:E5; [|discriminate].
  pose proof (save_memory_syncs clock st4 st5 E5) as S5.
  unfold bind at 1.
  destruct (prune_old_entries clock 180 st5) as [pruned st6|e st6] eqn:E6;
    [|discriminate].
  destruct (prune_returned clock 180 st5 st6 pruned E6)
    as [d [_ [_ [D6 M6]]]].
  destruct pruned as [|p].
  - cbn [Nat.ltb Nat.leb]. intros [= <-]. right.
    now rewrite D6, (M6 eq_refl).
  - cbn [Nat.ltb Nat.leb]. intro H. right.
    apply (save_memory_syncs clock st6 st' H).
Qed.

(** X9: when [extract_and_store] returns, the snapshot file agrees with
    the store: either the turn stored nothing and touched neither, or the
    file holds the document of the store as it is in memory at the end of
    the turn, the effect of the pruning included. *)
Theorem snapshot_agrees_after_a_turn (u a source : string) (reply : Reply)
    (st st' : State) :
  extract_and_store clock json_loads u a source reply st = Returned tt st' ->
  (memory st' = memory st /\ disk st' = disk st)
  \/ disk st' = Document (store_to_json (memory st')).
Proof.
  destruct (extract_continues clock json_loads u a source reply st)
    as [c [l' [E _]]].
  rewrite E. intro H. apply store_candidates_syncs in H. exact H.
Qed.

End SnapshotInSync.

(* ================================================================== *)
(** ** Further properties: a snapshot without categories *)
(* ================================================================== *)

(** X11: [load_memory] does not validate what it reads.  A snapshot that
    holds a JSON object without the key ["categories"], whatever else it
    holds, is returned as it is, counted as 0 entries; no fresh store is
    made and nothing is raised. *)
Theorem load_memory_accepts_object_without_categories
    (clock : nat -> Datetime) (members : list (string * json)) (m : Store)
    (l : list (Message * Level)) (k : nat) :
  Py.lookup "categories" members = None ->
  load_memory clock (mkState m (Document (JObj members)) l k)
  = Returned (JObj members)
      (mkState m (Document (JObj members))
               (l ++ [(LoadingMemory, info); (LoadedEntries 0, ok)])%list
               k).
Proof.
  intro H. unfold load_memory. run_monad.
  assert (C : count_loaded (JObj members) VALID_CATEGORIES = inr 0).
  { unfold VALID_CATEGORIES, CATEGORIES.
    cbn [map count_loaded Py.get]. rewrite H. reflexivity. }
  rewrite C. now rewrite <- app_assoc.
Qed.

(* ================================================================== *)
(** ** Further properties: stripping *)
(* ================================================================== *)

Lemma append_assoc (a b c : string) : (a ++ b) ++ c = a ++ b ++ c.
Proof.
  induction a as [|x a IH]; cbn [String.append]; [reflexivity|].
  now rewrite IH.
Qed.

Lemma rstrip_drop_one (p : ascii -> bool) (t : string) (c : ascii) :
  p c = true ->
  PyStr.rstrip_by p (t ++ String c "") = PyStr.rstrip_by p t.
Proof.
  intro H. induction t as [|a t IH]; cbn [String.append PyStr.rstrip_by].
  - now rewrite H.
  - now rewrite IH.
Qed.

Lemma rstrip_drop_every (p : ascii -> bool) (t pad : string) :
  every p pad = true ->
  PyStr.rstrip_by p (t ++ pad) = PyStr.rstrip_by p t.
Proof.
  revert t. induction pad as [|c pad IH]; intros t H.
  - now rewrite append_empty_r.
  - cbn [every] in H. apply andb_prop in H. destruct H as [Hc Hp].
    change (String c pad) with (String c "" ++ pad).
    rewrite <- append_assoc, (IH _ Hp). now apply rstrip_drop_one.
Qed.

Lemma rstrip_keeps_end (p : ascii -> bool) (t : string) (c : ascii) :
  p c = false ->
  PyStr.rstrip_by p (t ++ String c "") = t ++ String c "".
Proof.
  intro H. induction t as [|a t IH]; cbn [String.append PyStr.rstrip_by].
  - now rewrite H.
  - rewrite IH. destruct (t ++ String c "") eqn:E; [|reflexivity].
    now apply append_not_empty in E.
Qed.

Lemma lstrip_drop_every (p : ascii -> bool) (pad t : string) :
  every p pad = true ->
  PyStr.lstrip_by p (pad ++ t) = PyStr.lstrip_by p t.
Proof.
  induction pad as [|c pad IH]; intro H; [reflexivity|].
  cbn [every] in H. apply andb_prop in H. destruct H as [Hc Hp].
  cbn [String.append PyStr.lstrip_by]. rewrite Hc. now apply IH.
Qed.

Lemma every_replicate (p : ascii -> bool) (k : nat) (c : ascii) :
  p c = true -> every p (PyStr.replicate k c) = true.
Proof.
  intro H. induction k as [|k IH]; cbn [PyStr.replicate every];
    [reflexivity | now rewrite H, IH].
Qed.

(** White space after a text does not change what [strip] returns. *)
Lemma strip_drop_right (t pad : string) :
  every PyStr.is_space pad = true ->
  PyStr.strip (t ++ pad) = PyStr.strip t.
Proof.
  intro H. unfold PyStr.strip.
  induction t as [|a t IH]; cbn [String.append PyStr.lstrip_by].
  - rewrite <- (append_empty_r pad), (lstrip_drop_every _ _ _ H).
    reflexivity.
  - destruct (PyStr.is_space a); [exact IH|].
    change (String a (t ++ pad)) with (String a t ++ pad).
    now apply rstrip_drop_every.
Qed.

(** White space before a text does not change what [strip] returns. *)
Lemma strip_drop_left (pad t : string) :
  every PyStr.is_space pad = true ->
  PyStr.strip (pad ++ t) = PyStr.strip t.
Proof.
  intro H. unfold PyStr.strip. now rewrite lstrip_drop_every.
Qed.

Lemma substring_whole (p : string) : substring 0 (String.length p) p = p.
Proof.
  induction p as [|c p IH]; cbn; [reflexivity | now rewrite IH].
Qed.

Lemma substring_front (s p : string) :
  substring 0 (String.length s) (s ++ p) = s.
Proof.
  induction s as [|c s IH]; cbn.
  - now destruct p.
  - now rewrite IH.
Qed.

Lemma substring_back (s p : string) :
  substring (String.length s) (String.length p) (s ++ p) = p.
Proof.
  induction s as [|c s IH]; cbn; [apply substring_whole | exact IH].
Qed.

Lemma endswith_append (s p : string) : PyStr.endswith p (s ++ p) = true.
Proof.
  unfold PyStr.endswith. rewrite length_append.
  replace (String.length s + String.length p - String.length p)
    with (String.length s) by lia.
  rewrite substring_back, String.eqb_refl.
  apply andb_true_intro. split; [|reflexivity].
  apply Nat.leb_le. lia.
Qed.

Lemma drop_last_append (s p : string) :
  PyStr.drop_last (String.length p) (s ++ p) = s.
Proof.
  unfold PyStr.drop_last. rewrite length_append.
  replace (String.length s + String.length p - String.length p)
    with (String.length s) by lia.
  apply substring_front.
Qed.

Lemma startswith_append (p s : string) : PyStr.startswith p (p ++ s) = true.
Proof.
  unfold PyStr.startswith.
  induction p as [|c p IH]; cbn [String.append String.prefix].
  - now destruct s.
  - destruct (ascii_dec c c) as [_ | H]; [exact IH | now contradiction H].
Qed.

Lemma after_newline_append (a rest : string) :
  PyStr.after_newline a = None ->
  PyStr.after_newline (a ++ nl ++ rest) = Some rest.
Proof.
  induction a as [|c a IH]; cbn [String.append PyStr.after_newline].
  - reflexivity.
  - destruct (Ascii.eqb c "010"); [discriminate | exact IH].
Qed.

(** X12: a reply wrapped in a Markdown code fence is decoded from what is
    inside the fence.  For every language tag without a line break and
    every body, what [unfenced] hands to [json.loads] for the text made of
    three backquotes and the tag, a line break, the body, a line break and
    three backquotes is the body without the white space around it,
    provided that this does not start with [json]. *)
Theorem fenced_reply_is_unwrapped (lang body : string) :
  PyStr.after_newline lang = None ->
  PyStr.startswith "json" (PyStr.strip body) = false ->
  unfenced ("```" ++ lang ++ nl ++ body ++ nl ++ "```") = PyStr.strip body.
Proof.
  intros Hl Hj. unfold unfenced.
  set (inside := lang ++ nl ++ body ++ nl ++ "```").
  assert (S0 : PyStr.strip ("```" ++ inside) = "```" ++ inside).
  { unfold PyStr.strip.
    change (PyStr.lstrip_by PyStr.is_space ("```" ++ inside))
      with ("```" ++ inside).
    unfold inside.
    replace ("```" ++ lang ++ nl ++ body ++ nl ++ "```")
      with (("```" ++ lang ++ nl ++ body ++ nl ++ "``") ++ "`").
    - now apply rstrip_keeps_end.
    - now rewrite !append_assoc. }
  rewrite S0.
  rewrite startswith_append.
  change (PyStr.after_newline ("```" ++ inside))
    with (PyStr.after_newline inside).
  unfold inside. rewrite (after_newline_append _ _ Hl).
  rewrite <- append_assoc.
  rewrite endswith_append.
  pose proof (drop_last_append (body ++ nl) "```") as D.
  cbn [String.length] in D. rewrite D.
  rewrite (strip_drop_right body nl eq_refl).
  now rewrite Hj.
Qed.

(* ================================================================== *)
(** ** Further properties: what the key does not see *)
(* ================================================================== *)

Lemma lower_append (a b : string) :
  PyStr.lower (a ++ b) = PyStr.lower a ++ PyStr.lower b.
Proof.
  induction a as [|c a IH]; cbn [String.append PyStr.lower];
    [reflexivity | now rewrite IH].
Qed.

Lemma lower_char_space (c : ascii) :
  PyStr.is_space c = true -> PyStr.lower_char c = c.
Proof.
  destruct c as [[|] [|] [|] [|] [|] [|] [|] [|]];
    intro H; try reflexivity; vm_compute in H; discriminate H.
Qed.

Lemma is_space_lower_char (c : ascii) :
  PyStr.is_space (PyStr.lower_char c) = PyStr.is_space c.
Proof.
  destruct c as [[|] [|] [|] [|] [|] [|] [|] [|]]; reflexivity.
Qed.

Lemma lower_every_space (pad : string) :
  every PyStr.is_space pad = true -> PyStr.lower pad = pad.
Proof.
  induction pad as [|c pad IH]; cbn [every PyStr.lower]; [reflexivity|].
  intro H. apply andb_prop in H. destruct H as [Hc Hp].
  now rewrite (lower_char_space _ Hc), IH.
Qed.

Lemma lower_replicate_dot (k : nat) :
  PyStr.lower (PyStr.replicate k ".") = PyStr.replicate k ".".
Proof.
  induction k as [|k IH]; cbn [PyStr.replicate PyStr.lower];
    [reflexivity | now rewrite IH].
Qed.

Lemma lstrip_lower (s : string) :
  PyStr.lstrip_by PyStr.is_space (PyStr.lower s)
  = PyStr.lower (PyStr.lstrip_by PyStr.is_space s).
Proof.
  induction s as [|c s IH]; cbn [PyStr.lower PyStr.lstrip_by];
    [reflexivity|].
  rewrite is_space_lower_char.
  now destruct (PyStr.is_space c).
Qed.

Lemma rstrip_lower (s : string) :
  PyStr.rstrip_by PyStr.is_space (PyStr.lower s)
  = PyStr.lower (PyStr.rstrip_by PyStr.is_space s).
Proof.
  induction s as [|c s IH]; cbn [PyStr.lower PyStr.rstrip_by];
    [reflexivity|].
  rewrite IH, is_space_lower_char.
  destruct (PyStr.rstrip_by PyStr.is_space s); cbn [PyStr.lower].
  - now destruct (PyStr.is_space c).
  - reflexivity.
Qed.

Lemma strip_lower (s : string) :
  PyStr.strip (PyStr.lower s) = PyStr.lower (PyStr.strip s).
Proof.
  unfold PyStr.strip. now rewrite lstrip_lower, rstrip_lower.
Qed.

Lemma length_rstrip_le (p : ascii -> bool) (s : string) :
  String.length (PyStr.rstrip_by p s) <= String.length s.
Proof.
  induction s as [|c s IH]; cbn [PyStr.rstrip_by String.length]; [lia|].
  destruct (PyStr.rstrip_by p s) as [|a r].
  - destruct (p c); cbn [String.length]; lia.
  - cbn [String.length] in *. lia.
Qed.

Lemma length_lstrip_le (p : ascii -> bool) (s : string) :
  String.length (PyStr.lstrip_by p s) <= String.length s.
Proof.
  induction s as [|c s IH]; cbn [PyStr.lstrip_by String.length]; [lia|].
  destruct (p c); cbn [String.length]; lia.
Qed.

(** A text that [strip] leaves alone does not start with white space. *)
Lemma stripped_starts_clean (u : string) :
  PyStr.strip u = u ->
  match u with
  | EmptyString => True
  | String c _ => PyStr.is_space c = false
  end.
Proof.
  destruct u as [|c t]; [trivial|].
  unfold PyStr.strip. cbn [PyStr.lstrip_by].
  destruct (PyStr.is_space c); [|reflexivity].
  intro H. apply (f_equal String.length) in H.
  pose proof (length_rstrip_le PyStr.is_space
                (PyStr.lstrip_by PyStr.is_space t)).
  pose proof (length_lstrip_le PyStr.is_space t).
  cbn [String.length] in H. lia.
Qed.

Lemma replicate_succ_end (k : nat) (c : ascii) :
  PyStr.replicate (S k) c = PyStr.replicate k c ++ String c "".
Proof.
  induction k as [|k IH]; [reflexivity|].
  cbn [PyStr.replicate String.append] in *. now rewrite <- IH.
Qed.

(** Periods after a text that [strip] leaves alone are left by [strip]. *)
Lemma strip_keeps_periods (u : string) (k : nat) :
  PyStr.strip u = u ->
  PyStr.strip (u ++ PyStr.replicate (S k) ".")
  = u ++ PyStr.replicate (S k) ".".
Proof.
  intro H. unfold PyStr.strip.
  assert (L : PyStr.lstrip_by PyStr.is_space (u ++ PyStr.replicate (S k) ".")
              = u ++ PyStr.replicate (S k) ".").
  { pose proof (stripped_starts_clean u H) as Hc.
    destruct u as [|c t]; [reflexivity|].
    cbn [String.append PyStr.lstrip_by]. now rewrite Hc. }
  rewrite L, replicate_succ_end, <- append_assoc.
  now apply rstrip_keeps_end.
Qed.

(** X13: the key does not see the case of the letters, the white space
    around the text, or the periods at its end.  When [s] has no white
    space around it and [s'] is [s] up to the case of its letters, the key
    of [s'] followed by any number of periods, with any white space before
    and after, is the key of [s]. *)
Theorem key_ignores_case_space_and_periods (s s' pad1 pad2 : string)
    (k : nat) :
  PyStr.strip s = s ->
  PyStr.lower s' = PyStr.lower s ->
  every PyStr.is_space pad1 = true ->
  every PyStr.is_space pad2 = true ->
  normalized (pad1 ++ s' ++ PyStr.replicate k "." ++ pad2) = normalized s.
Proof.
  intros Hs Hl H1 H2. unfold normalized.
  rewrite !lower_append, Hl, lower_replicate_dot,
    (lower_every_space _ H1), (lower_every_space _ H2).
  rewrite (strip_drop_left _ _ H1).
  rewrite <- append_assoc, (strip_drop_right _ _ H2).
  assert (Hu : PyStr.strip (PyStr.lower s) = PyStr.lower s).
  { now rewrite strip_lower, Hs. }
  rewrite Hu. destruct k as [|k].
  - cbn [PyStr.replicate]. now rewrite append_empty_r, Hu.
  - rewrite (strip_keeps_periods _ k Hu).
    unfold PyStr.rstrip_dot. apply rstrip_drop_every.
    now apply every_replicate.
Qed.

(* ================================================================== *)
(** ** Further properties: the callers *)
(* ================================================================== *)

(** X14: the background extraction of the chat window never raises,
    whatever the service replies and whatever [extract_and_store] does.
    The manager is left in the state in which [extract_and_store] left it;
    the window logs the start and then either the completion, when
    [extract_and_store] returned, or at level [warn] the exception that it
    raised. *)
Theorem background_extraction_never_raises (clock : nat -> Datetime)
    (json_loads : string -> option json)
    (user_text ai_response source_agent : string) (reply : Reply)
    (w : World) :
  let outcome :=
    extract_and_store clock json_loads user_text ai_response source_agent
                      reply (manager_state w) in
  exists w',
    _extract_memory clock json_loads user_text ai_response source_agent
                    reply w
    = Done tt w'
    /\ manager_state w' = state_after outcome
    /\ noted w'
       = (noted w
          ++ [(ExtractionStarting source_agent, info);
              match outcome with
              | Returned _ _ => (ExtractionComplete, ok)
              | Raised e _ => (ExtractionError e, warn)
              end])%list.
Proof.
  cbv zeta. unfold _extract_memory, try_except, app_bind, note, call_manager.
  cbn [manager_state noted].
  destruct (extract_and_store clock json_loads user_text ai_response
                              source_agent reply (manager_state w))
    as [[] st|e st]; cbn [manager_state noted state_after];
    eexists; (split; [reflexivity|]); split; try reflexivity;
    now rewrite <- app_assoc.
Qed.

Lemma render_empty_iff (m : Store) :
  render m = "" <-> active_entries m = [].
Proof.
  unfold render.
  destruct (active_entries m) as [|e es]; split; intro H;
    try reflexivity; try discriminate H.
  exfalso. revert H. apply join_header_not_empty.
Qed.

Lemma fold_left_lines {A} (f : A -> string) (l : list A) (init rest : string) :
  fold_left (fun ctx a => ctx ++ f a) l init ++ rest
  = init ++ fold_right (fun a acc => f a ++ acc) rest l.
Proof.
  revert init. induction l as [|a l IH]; intro init; cbn [fold_left fold_right].
  - reflexivity.
  - now rewrite IH, append_assoc.
Qed.

(** X15: what the party planner puts into its prompt as history.  With a
    manager attached, [get_history_context] returns the context of the
    shared memory, whatever the raw history holds.  Without one, it
    returns the empty string for an empty history, and else a header, one
    line for each of the last ten items at most, in their order, and a
    footer.  So the result is empty exactly when a manager is attached and
    the store has no active entry, or none is attached and the history is
    empty.  The call never raises and changes neither store nor snapshot
    file. *)
Theorem history_context_prefers_shared_memory (p : Planner) (w : World) :
  exists ctx w',
    get_history_context p w = Done ctx w'
    /\ memory (manager_state w') = memory (manager_state w)
    /\ disk (manager_state w') = disk (manager_state w)
    /\ ctx
       = (if memory_manager p then render (memory (manager_state w))
          else match history p with
               | [] => ""
               | _ :: _ =>
                   history_header
                   ++ fold_right (fun entry rest => turn_line entry ++ rest)
                                 history_footer (Py.last_n 10 (history p))
               end)
    /\ List.length (Py.last_n 10 (history p)) <= 10
    /\ (ctx = ""
        <-> (memory_manager p = true
             /\ active_entries (memory (manager_state w)) = [])
            \/ (memory_manager p = false /\ history p = [])).
Proof.
  unfold get_history_context. destruct (memory_manager p) eqn:Hm.
  - unfold app_bind, note, call_manager. cbn [manager_state noted].
    destruct (get_memory_context_frame (manager_state w)) as [l' E].
    rewrite E. eexists. eexists. split; [reflexivity|].
    cbn [manager_state memory disk]. repeat split.
    + rewrite last_n_length. lia.
    + intro H. left. split; [reflexivity | now apply render_empty_iff].
    + intros [[_ H] | [H _]]; [now apply render_empty_iff | discriminate H].
  - destruct (history p) as [|t ts] eqn:Hh.
    + unfold app_bind, note, app_ret. eexists. eexists.
      split; [reflexivity|]. cbn [manager_state]. repeat split.
      * cbn. lia.
      * intros _. right. split; reflexivity.
    + unfold app_bind, note, app_ret. eexists. eexists.
      split; [reflexivity|]. cbn [manager_state]. repeat split.
      * apply fold_left_lines.
      * rewrite last_n_length. lia.
      * intro H. rewrite fold_left_lines in H.
        unfold history_header, nl in H. cbn [String.append] in H.
        discriminate H.
      * intros [[H _] | [_ H]]; discriminate H.
Qed.

(* ================================================================== *)
(** ** Further properties: accepted insights end up in the store *)
(* ================================================================== *)

(** The storing loop on accepted candidates gets through; what was active
    stays active, and each candidate has an active entry with its key. *)
Lemma storing_loop_stores_all (source now_text : string) (us : list json)
    (st : State) :
  Forall (fun u => accepts u = true) us ->
  exists st',
    for_each us (store_entry source now_text) st = Returned tt st'
    /\ (forall c e,
          In e (entries_of c (categories (memory st))) ->
          In e (entries_of c (categories (memory st'))))
    /\ forall u,
         In u us ->
         exists c e,
           In e (entries_of c (categories (memory st')))
           /\ normalized (content e) = candidate_key u.
Proof.
  intro H. revert st. induction H as [|u us Hu _ IH]; intro st.
  - exists st. split; [reflexivity|]. split; [auto|]. intros u [].
  - apply accepts_iff in Hu. destruct Hu as [c [s [Hc [Hs _]]]].
    cbn [for_each]. unfold bind.
    rewrite (store_entry_appends source now_text u c s st Hc Hs).
    match goal with
    | |- context [for_each us _ ?st1] => destruct (IH st1) as [st' [E [Hk Ha]]]
    end.
    cbn [memory categories] in Hk.
    exists st'. split; [exact E|]. split.
    + intros c' e Hin. apply Hk.
      destruct (cat_eq_dec c c') as [<- | Hne].
      * rewrite entries_of_set_same. apply in_or_app. now left.
      * now rewrite (entries_of_set_other c c' _ _ Hne).
    + intros x [<- | Hin]; [|now apply Ha].
      eexists c, _. split.
      * apply Hk. rewrite entries_of_set_same. apply in_or_app.
        right. left. reflexivity.
      * cbn [content]. unfold candidate_key. now rewrite Hs.
Qed.

Lemma grows_after_storing (clock : nat -> Datetime) :
  grows (save_memory clock ;;;
         pruned <- prune_old_entries clock 180 ;;
         if Nat.ltb 0 pruned then save_memory clock else ret tt)%py.
Proof.
  apply grows_bind; [apply grows_save | intros _].
  apply grows_bind; [apply grows_prune | intros pruned].
  destruct (Nat.ltb 0 pruned);
    [apply grows_save | apply grows_keeps_memory, keeps_memory_ret].
Qed.

Lemma active_entry_category (m : Store) (e : Entry) :
  In e (active_entries m) -> exists c, In e (entries_of c (categories m)).
Proof.
  unfold active_entries. intro H. apply in_flat_map in H.
  destruct H as [c [_ H]]. now exists c.
Qed.

Section AcceptedInsights.

Variable clock : nat -> Datetime.
Variable json_loads : string -> option json.

Lemma store_candidates_keeps_insights (source : string) (batch : list json)
    (cand : json) (st : State) :
  Forall textual batch ->
  In cand batch ->
  accepts cand = true ->
  let m' := memory (state_after (store_candidates clock source batch st)) in
  exists c e,
    normalized (content e) = candidate_key cand
    /\ (In e (entries_of c (categories m'))
        \/ exists a, In a (archive m') /\ origin a = (c, e)).
Proof.
  intros Ht Hin Ha. cbv zeta.
  remember (state_after (store_candidates clock source batch st)) as final
    eqn:Ef.
  unfold store_candidates in Ef.
  destruct batch as [|b0 bs]; [destruct Hin|].
  set (batch := b0 :: bs) in *.
  unfold bind at 1 in Ef.
  destruct (validate_textual batch [] st Ht) as [l1 E1].
  rewrite E1 in Ef. clear E1. cbn [app] in Ef.
  unfold bind at 1 in Ef. unfold _deduplicate in Ef.
  unfold bind at 1 in Ef. unfold get_memory at 1 in Ef.
  cbn [memory disk logged ticks] in Ef.
  assert (Hv : Forall has_text (filter accepts batch)).
  { apply Forall_forall. intros x Hx. apply filter_In in Hx.
    destruct Hx as [_ Hx]. apply accepts_iff in Hx.
    destruct Hx as [_ [s [_ [Hs _]]]]. now exists s. }
  match type of Ef with
  | context [dedup_loop ?b ?ex [] ?st0] =>
      destruct (dedup_loop_spec b ex [] st0 Hv) as [l2 E2]
  end.
  rewrite E2 in Ef. clear E2. cbn [app memory disk logged ticks] in Ef.
  assert (Hcand : In cand (filter accepts batch))
    by (apply filter_In; now split).
  assert (Htext : has_text cand).
  { rewrite Forall_forall in Hv. now apply Hv. }
  pose proof (fresh_ones_complete _ (existing_contents_of (memory st)) _
                                  Hcand Htext) as Hk.
  assert (Hacc : Forall (fun u => accepts u = true)
                        (fresh_ones (filter accepts batch)
                                    (existing_contents_of (memory st)))).
  { apply Forall_forall. intros x Hx.
    apply fresh_ones_sound in Hx. destruct Hx as [Hx _].
    apply filter_In in Hx. apply Hx. }
  assert (Hold : In (candidate_key cand) (existing_contents_of (memory st)) ->
                 exists c e,
                   In e (entries_of c (categories (memory st)))
                   /\ normalized (content e) = candidate_key cand).
  { intro H. unfold existing_contents_of in H. apply in_map_iff in H.
    destruct H as [e [Ek He]]. apply active_entry_category in He.
    destruct He as [c He]. now exists c, e. }
  destruct (fresh_ones (filter accepts batch)
                       (existing_contents_of (memory st)))
    as [|u0 us] eqn:Eu.
  - cbn [state_after log memory] in Ef. subst final. cbn [memory].
    destruct Hk as [Hk | []]. destruct (Hold Hk) as [c [e [He Ek]]].
    exists c, e. split; [exact Ek | now left].
  - unfold bind at 1 in Ef.
    unfold now_isoformat at 1, bind at 1, now at 1, ret at 1 in Ef.
    cbn [memory disk logged ticks] in Ef.
    unfold bind at 1 in Ef.
    match type of Ef with
    | context [for_each ?xs (store_entry source ?t) ?st3] =>
        destruct (storing_loop_stores_all source t xs st3 Hacc)
          as [st4 [E4 [Hkeep Hall]]]
    end.
    rewrite E4 in Ef. cbn [memory] in Hkeep.
    destruct (grows_after_storing clock st4) as [_ Hg].
    assert (Hin4 : exists c e,
               In e (entries_of c (categories (memory st4)))
               /\ normalized (content e) = candidate_key cand).
    { destruct Hk as [Hk | Hk].
      - destruct (Hold Hk) as [c [e [He Ek]]]. exists c, e.
        split; [now apply Hkeep | exact Ek].
      - apply in_map_iff in Hk. destruct Hk as [u [Ku Hu]].
        destruct (Hall u Hu) as [c [e [He Ek]]]. exists c, e.
        split; [exact He | now rewrite Ek]. }
    destruct Hin4 as [c [e [He Ek]]]. exists c, e. split; [exact Ek|].
    subst final. apply Hg. exact He.
Qed.

(** X16: no accepted insight is dropped.  When the service returns
    candidates with textual contents, every candidate that the validation
    accepts has, after [extract_and_store], an entry with its key in the
    store: an entry that was there before, or a new one; the entry is
    active, or is in the archive with its category. *)
Theorem accepted_insights_end_up_stored
    (u a source : string) (reply : Reply) (batch : list json) (cand : json)
    (st : State) :
  replies_with json_loads reply batch ->
  Forall textual batch ->
  In cand batch ->
  accepts cand = true ->
  let m' :=
    memory (state_after
              (extract_and_store clock json_loads u a source reply st)) in
  exists c e,
    normalized (content e) = candidate_key cand
    /\ (In e (entries_of c (categories m'))
        \/ exists x,
             In x (archive m') /\ entry_of x = e /\ original_category x = c).
Proof.
  intros Hr Ht Hin Ha. cbv zeta.
  destruct (extract_continues clock json_loads u a source reply st)
    as [cs [l' [E [Hitems _]]]].
  destruct Hr as [text [-> Hj]].
  rewrite (Hitems text _ eq_refl Hj) in E. cbn [items_of] in E.
  rewrite E.
  destruct (store_candidates_keeps_insights source batch cand
              (mkState (memory st) (disk st) (logged st ++ l')%list
                       (ticks st)) Ht Hin Ha)
    as [c [e [Ek [Hact | [x [Hx Ho]]]]]].
  - exists c, e. split; [exact Ek | now left].
  - exists c, e. split; [exact Ek|]. right. exists x.
    split; [exact Hx|]. unfold origin in Ho. now inversion Ho.
Qed.

End AcceptedInsights.

(* ================================================================== *)
(** ** Further properties: where the new entries come from *)
(* ================================================================== *)

Lemma adds_only_refl (source t : string) (m : Store) : adds_only source t m m.
Proof.
  intros c e H. now left.
Qed.

Lemma adds_only_trans (source t : string) (m1 m2 m3 : Store) :
  adds_only source t m1 m2 -> adds_only source t m2 m3 ->
  adds_only source t m1 m3.
Proof.
  intros H1 H2 c e Hin. destruct (H2 c e Hin) as [H | H]; [|now right].
  now apply H1.
Qed.

Lemma adds_only_bind (source t : string) {A B} (call : M A) (k : A -> M B) :
  (forall st, adds_only source t (memory st) (memory (state_after (call st)))) ->
  (forall a st,
     adds_only source t (memory st) (memory (state_after (k a st)))) ->
  forall st,
    adds_only source t (memory st) (memory (state_after (bind call k st))).
Proof.
  intros Hc Hk st. apply bind_after.
  - intros e st' E. specialize (Hc st). now rewrite E in Hc.
  - intros a st' E. specialize (Hc st). rewrite E in Hc.
    apply (adds_only_trans _ _ _ _ _ Hc). apply Hk.
Qed.

Lemma adds_only_store_entry (source now_text : string) (entry : json)
    (st : State) :
  adds_only source now_text (memory st)
            (memory (state_after (store_entry source now_text entry st))).
Proof.
  destruct st as [m dk lg k]. unfold store_entry, _generate_id.
  destruct (subscript entry "category") as [x|kv];
    [apply adds_only_refl|].
  cbv [bind lift ret raise get_memory].
  destruct (category_key kv) as [x|c]; [apply adds_only_refl|].
  destruct (subscript entry "content") as [x|v]; [apply adds_only_refl|].
  destruct (as_text v) as [x|text]; [apply adds_only_refl|].
  destruct (Py.get entry "confidence" (JStr "medium")) as [x|conf];
    [apply adds_only_refl|].
  cbv [append_entry_to put_memory log bind get_memory].
  cbn [state_after memory disk logged ticks categories version last_updated
       archive].
  intros c' e Hin. cbn [categories] in Hin.
  destruct (cat_eq_dec c c') as [<- | Hne].
  - rewrite entries_of_set_same in Hin. apply in_app_or in Hin.
    destruct Hin as [Hin | [<- | []]]; [now left | right].
    split; reflexivity.
  - rewrite (entries_of_set_other c c' _ _ Hne) in Hin. now left.
Qed.

Lemma adds_only_for_each (source now_text : string) (xs : list json)
    (st : State) :
  adds_only source now_text (memory st)
            (memory (state_after
                       (for_each xs (store_entry source now_text) st))).
Proof.
  revert st. induction xs as [|x xs IH]; intro st; cbn [for_each].
  - apply adds_only_refl.
  - apply adds_only_bind; [apply adds_only_store_entry | intros _; apply IH].
Qed.

Lemma adds_only_save (source t : string) (clock : nat -> Datetime)
    (st : State) :
  adds_only source t (memory st) (memory (state_after (save_memory clock st))).
Proof.
  rewrite save_memory_memory. intros c e H. now left.
Qed.

Lemma adds_only_prune (source t : string) (clock : nat -> Datetime)
    (max_age_days : Z) (st : State) :
  adds_only source t (memory st)
            (memory (state_after (prune_old_entries clock max_age_days st))).
Proof.
  destruct (Calendar.minus_days (clock (ticks st)) max_age_days) as [d|] eqn:E.
  - destruct (prune_old_entries_returns clock max_age_days st d E) as [l' R].
    rewrite R. cbn [state_after memory]. intros c e Hin.
    cbn [categories] in Hin. rewrite entries_of_kept in Hin. apply filter_In in Hin. left. apply Hin.
  - rewrite (prune_old_entries_overflow clock max_age_days st E).
    apply adds_only_refl.
Qed.

Section Provenance.

Variable clock : nat -> Datetime.
Variable json_loads : string -> option json.

Lemma adds_only_store_candidates (source : string) (candidates : list json)
    (st : State) :
  adds_only source (Calendar.isoformat (clock (ticks st))) (memory st)
            (memory (state_after (store_candidates clock source candidates st))).
Proof.
  unfold store_candidates.
  destruct candidates as [|n0 ns]; [apply adds_only_refl|].
  apply bind_after.
  { intros e st' E. pose proof (quiet_validate (n0 :: ns) [] st) as [K _].
    rewrite E in K. cbn in K. rewrite K. apply adds_only_refl. }
  intros valid st1 E1.
  destruct (quiet_returned _ _ _ _ (quiet_validate _ _) E1) as [M1 [_ T1]].
  apply bind_after.
  { intros e st' E. pose proof (quiet_deduplicate valid st1) as [K _].
    rewrite E in K. cbn in K. rewrite K, M1. apply adds_only_refl. }
  intros unique st2 E2.
  destruct (quiet_returned _ _ _ _ (quiet_deduplicate _) E2) as [M2 [_ T2]].
  destruct unique as [|u0 us].
  { cbn. rewrite M2, M1. apply adds_only_refl. }
  apply bind_after; [discriminate|].
  intros now_text st3 E3. unfold now_isoformat, bind, now, ret in E3.
  injection E3 as <- <-.
  rewrite <- M1, <- M2.
  set (s0 := mkState (memory st2) (disk st2) (logged st2) (S (ticks st2))).
  change (memory st2) with (memory s0).
  rewrite T2, T1. clearbody s0. revert s0.
  apply adds_only_bind; [apply adds_only_for_each | intros _].
  apply adds_only_bind; [apply adds_only_save | intros _].
  apply adds_only_bind; [apply adds_only_prune | intros pruned].
  destruct (Nat.ltb 0 pruned); [apply adds_only_save|].
  intro s. apply adds_only_refl.
Qed.

(** X17: what a turn adds carries the mark of the turn.  After
    [extract_and_store], returned or raised, every active entry was active
    in its category before the turn, or has the agent of the turn as
    [source_agent] and as [created] the first reading of the clock that
    the turn took. *)
Theorem new_entries_carry_agent_and_stamp
    (u a source : string) (reply : Reply) (st : State) (c : Category)
    (e : Entry) :
  In e (entries_of c
          (categories
             (memory
                (state_after
                   (extract_and_store clock json_loads u a source reply
                                      st))))) ->
  In e (entries_of c (categories (memory st)))
  \/ (source_agent e = source
      /\ created e = Some (Calendar.isoformat (clock (ticks st)))).
Proof.
  destruct (extract_continues clock json_loads u a source reply st)
    as [cs [l' [E _]]].
  rewrite E.
  apply (adds_only_store_candidates source cs
           (mkState (memory st) (disk st) (logged st ++ l')%list (ticks st))).
Qed.

End Provenance.

(* ================================================================== *)
(** ** C6: the text of the context *)
(* ================================================================== *)

Lemma most_recent_five_last_n {A} (entries : list A) :
  most_recent_five entries
  = Py.last_n MAX_ENTRIES_PER_CATEGORY_IN_PROMPT entries.
Proof.
  unfold most_recent_five, Py.last_n, MAX_ENTRIES_PER_CATEGORY_IN_PROMPT.
  now rewrite firstn_rev, rev_involutive.
Qed.

(** Joining lines of which the last is known: every line but the last is
    followed by the separator. *)
Lemma join_with_last (sep : string) (lines : list string) (last : string) :
  PyStr.join sep (lines ++ [last])
  = fold_right (fun line rest => line ++ sep ++ rest) last lines.
Proof.
  unfold PyStr.join. induction lines as [|x lines IH]; [reflexivity|].
  cbn [app fold_right]. rewrite <- IH.
  destruct lines as [|y lines]; reflexivity.
Qed.

Lemma lines_then_rest (sep : string) (lines : list string) (rest : string) :
  fold_right (fun line acc => line ++ sep ++ acc) rest lines
  = fold_right (fun line acc => line ++ sep ++ acc) "" lines ++ rest.
Proof.
  induction lines as [|x lines IH]; cbn [fold_right]; [reflexivity|].
  now rewrite IH, !append_assoc.
Qed.

(** The lines of one section, each followed by a line break, are the
    section of the text. *)
Lemma section_lines_text (cats : Categories) (item : Category * string) :
  fold_right (fun line acc => line ++ nl ++ acc) ""
             (section_lines cats item)
  = shown_section (snd item) (entries_of (fst item) cats).
Proof.
  unfold section_lines, shown_section.
  destruct (entries_of (fst item) cats) as [|e es]; [reflexivity|].
  rewrite most_recent_five_last_n.
  cbn [fold_right]. unfold label_line. rewrite !append_assoc.
  do 3 f_equal. change line_break with nl. f_equal.
  induction (Py.last_n MAX_ENTRIES_PER_CATEGORY_IN_PROMPT (e :: es))
    as [|x xs IH]; cbn [map fold_right]; [reflexivity|].
  unfold entry_line at 1. rewrite IH, !append_assoc. reflexivity.
Qed.

(** The lines that [get_memory_context] joins make the text that the
    specification words. *)
Lemma render_is_owner_memory_text (m : Store) :
  render m = owner_memory_text m.
Proof.
  unfold render, owner_memory_text. cbv zeta.
  destruct m as [v lu [l1 l2 l3 l4 l5] ar].
  unfold active_entries, CATEGORIES.
  cbn [categories flat_map entries_of in_owner_preferences
       in_approved_decisions in_rejected_ideas in_operational_notes
       in_event_history].
  rewrite app_nil_r.
  destruct (l1 ++ l2 ++ l3 ++ l4 ++ l5)%list as [|e es]; [reflexivity|].
  rewrite app_assoc, join_with_last. cbn [app fold_right].
  rewrite lines_then_rest.
  unfold section_map. cbn [flat_map]. rewrite app_nil_r.
  rewrite !fold_right_app.
  rewrite (lines_then_rest nl (section_lines _ (owner_preferences, _))).
  rewrite (lines_then_rest nl (section_lines _ (approved_decisions, _))).
  rewrite (lines_then_rest nl (section_lines _ (rejected_ideas, _))).
  rewrite (lines_then_rest nl (section_lines _ (operational_notes, _))).
  rewrite !section_lines_text.
  cbn [fst snd entries_of in_owner_preferences in_approved_decisions
       in_rejected_ideas in_operational_notes in_event_history].
  unfold context_header, context_footer. change line_break with nl.
  rewrite !append_assoc. reflexivity.
Qed.

(** C6: [get_memory_context] returns the text [owner_memory_text], which
    is written out character by character from the words of the
    specification, and leaves store and snapshot file as they are.  The
    text is empty exactly when the store has no active entry.  Otherwise
    it is a line break and the header line, then for each of the five
    categories in the declared order that has an entry the line of its
    label in brackets (PREFERENCES, APPROVED, VETOED, OPS NOTES, PAST
    EVENTS) followed by one line, a dash and the content, for each of its
    last entries, at most five, in the order of the sequence, then the
    footer line; of seven entries the last five are shown. *)
Theorem context_shows_last_five (st : State) :
  (exists st',
     get_memory_context st = Returned (owner_memory_text (memory st)) st'
     /\ memory st' = memory st
     /\ disk st' = disk st)
  /\ (owner_memory_text (memory st) = ""
      <-> active_entries (memory st) = [])
  /\ (forall (label : string) (e1 e2 e3 e4 e5 e6 e7 : Entry),
        shown_section label [e1; e2; e3; e4; e5; e6; e7]
        = "[" ++ label ++ "]" ++ line_break
          ++ "- " ++ content e3 ++ line_break
          ++ "- " ++ content e4 ++ line_break
          ++ "- " ++ content e5 ++ line_break
          ++ "- " ++ content e6 ++ line_break
          ++ "- " ++ content e7 ++ line_break)
  /\ (forall entries : list Entry,
        List.length (most_recent_five entries)
        = Nat.min 5 (List.length entries)
        /\ exists older,
             entries = (older ++ most_recent_five entries)%list).
Proof.
  split; [|split; [|split]].
  - destruct (get_memory_context_frame st) as [l' E].
    rewrite render_is_owner_memory_text in E.
    eexists. split; [exact E | split; reflexivity].
  - rewrite <- render_is_owner_memory_text. unfold render.
    destruct (active_entries (memory st)) as [|e es]; split; intro H;
      try reflexivity; try discriminate H.
    exfalso. revert H. apply join_header_not_empty.
  - intros. unfold shown_section, most_recent_five.
    cbn [rev app firstn fold_right]. reflexivity.
  - intro entries. rewrite most_recent_five_last_n. split.
    + apply last_n_length.
    + eexists. apply last_n_suffix.
Qed.

(* ================================================================== *)
(** ** Further properties: the size of the context *)
(* ================================================================== *)

Lemma line_breaks_append (a b : string) :
  line_breaks (a ++ b) = line_breaks a + line_breaks b.
Proof.
  induction a as [|c a IH]; cbn [String.append line_breaks]; [reflexivity|].
  rewrite IH. lia.
Qed.

(** The lines of entries without line breaks: one line break each. *)
Lemma entry_lines_breaks (shown : list Entry) :
  Forall (fun e => line_breaks (content e) = 0) shown ->
  line_breaks
    (fold_right (fun entry rest => "- " ++ content entry ++ line_break ++ rest)
                "" shown)
  = List.length shown.
Proof.
  induction 1 as [|e shown He _ IH]; [reflexivity|].
  cbn [fold_right List.length].
  rewrite !line_breaks_append, He, IH. reflexivity.
Qed.

Lemma shown_section_breaks (label : string) (entries : list Entry) :
  line_breaks label = 0 ->
  Forall (fun e => line_breaks (content e) = 0) entries ->
  line_breaks (shown_section label entries) <= 6.
Proof.
  intros Hl He. unfold shown_section.
  destruct entries as [|e es]; [cbn; lia|].
  pose proof (last_n_suffix MAX_ENTRIES_PER_CATEGORY_IN_PROMPT (e :: es))
    as Eo.
  pose proof (last_n_length MAX_ENTRIES_PER_CATEGORY_IN_PROMPT (e :: es))
    as Hn.
  rewrite <- most_recent_five_last_n in Eo, Hn.
  remember (most_recent_five (e :: es)) as shown eqn:Es.
  rewrite Eo in He. apply Forall_app in He. destruct He as [_ He].
  rewrite !line_breaks_append, Hl, (entry_lines_breaks _ He), Hn.
  unfold MAX_ENTRIES_PER_CATEGORY_IN_PROMPT. cbn [line_breaks line_break].
  change (Ascii.eqb "[" (ascii_of_nat 10)) with false.
  change (Ascii.eqb "]" (ascii_of_nat 10)) with false.
  change (Ascii.eqb (ascii_of_nat 10) (ascii_of_nat 10)) with true.
  cbv iota. lia.
Qed.

(** X10: the context is bounded.  When no active entry has a line break
    in its content, the text that [get_memory_context] returns has at most
    33 line breaks, that is at most 32 lines after the empty first one:
    the header, the footer, at most five labels and twenty-five entries,
    however many entries the store holds. *)
Theorem context_has_at_most_32_lines (st : State) :
  Forall (fun e => line_breaks (content e) = 0)
         (active_entries (memory st)) ->
  exists text st',
    get_memory_context st = Returned text st'
    /\ line_breaks text <= 33.
Proof.
  intro H. destruct (get_memory_context_frame st) as [l' E].
  rewrite render_is_owner_memory_text in E.
  eexists. eexists. split; [exact E|].
  destruct (memory st) as [v lu [l1 l2 l3 l4 l5] ar].
  unfold active_entries, CATEGORIES in H.
  cbn [categories flat_map entries_of in_owner_preferences
       in_approved_decisions in_rejected_ideas in_operational_notes
       in_event_history] in H.
  rewrite app_nil_r in H.
  apply Forall_app in H. destruct H as [H1 H].
  apply Forall_app in H. destruct H as [H2 H].
  apply Forall_app in H. destruct H as [H3 H].
  apply Forall_app in H. destruct H as [H4 H5].
  unfold owner_memory_text. cbv zeta.
  cbn [categories in_owner_preferences in_approved_decisions
       in_rejected_ideas in_operational_notes in_event_history].
  destruct (l1 ++ l2 ++ l3 ++ l4 ++ l5)%list; [cbn; lia|].
  rewrite !line_breaks_append.
  pose proof (shown_section_breaks "PREFERENCES" l1 eq_refl H1).
  pose proof (shown_section_breaks "APPROVED" l2 eq_refl H2).
  pose proof (shown_section_breaks "VETOED" l3 eq_refl H3).
  pose proof (shown_section_breaks "OPS NOTES" l4 eq_refl H4).
  pose proof (shown_section_breaks "PAST EVENTS" l5 eq_refl H5).
  change (line_breaks line_break) with 1.
  change (line_breaks
            "--- OWNER MEMORY (Key Insights from Past Interactions) ---")
    with 0.
  change (line_breaks "--- END OWNER MEMORY ---") with 0.
  lia.
Qed.

(* ================================================================== *)
(** ** Further properties: a text that cannot be written *)
(* ================================================================== *)

Lemma forallb_false_in {A} (f : A -> bool) (x : A) (l : list A) :
  In x l -> f x = false -> forallb f l = false.
Proof.
  intros Hin Hx. destruct (forallb f l) eqn:E; [|reflexivity].
  rewrite forallb_forall in E. rewrite (E x Hin) in Hx. discriminate Hx.
Qed.

Lemma unwritable_entry (e : Entry) :
  PyStr.encodable (content e) = false -> writable (entry_to_json e) = false.
Proof.
  intro H. unfold entry_to_json, entry_members.
  cbn [writable app forallb fst snd]. rewrite H.
  now rewrite andb_false_r.
Qed.

Lemma unwritable_categories (c : Category) (e : Entry) (cs : Categories) :
  In e (entries_of c cs) ->
  PyStr.encodable (content e) = false ->
  writable (categories_to_json cs) = false.
Proof.
  intros Hin He. unfold categories_to_json. cbn [writable].
  apply (forallb_false_in _
           (cat_name c, JArr (map entry_to_json (entries_of c cs)))).
  - apply (in_map (fun c => (cat_name c,
                             JArr (map entry_to_json (entries_of c cs))))).
    destruct c; simpl; tauto.
  - cbn [fst snd writable].
    rewrite (forallb_false_in writable (entry_to_json e)).
    + apply andb_false_r.
    + now apply in_map.
    + now apply unwritable_entry.
Qed.

(** X18: one content that UTF-8 cannot encode costs the whole snapshot.
    When an active entry has such a content, [save_memory] raises
    [UnicodeEncodeError] after it has stamped the store; the entries stay
    in memory, but the file is left with a text that is no JSON, so that
    the next [load_memory] logs a warning and returns the empty store. *)
Theorem unencodable_content_breaks_the_snapshot (clock : nat -> Datetime)
    (st : State) (c : Category) (e : Entry) :
  In e (entries_of c (categories (memory st))) ->
  PyStr.encodable (content e) = false ->
  exists st1 st2,
    save_memory clock st = Raised UnicodeEncodeError st1
    /\ disk st1 = BadText
    /\ categories (memory st1) = categories (memory st)
    /\ archive (memory st1) = archive (memory st)
    /\ load_memory clock st1
       = Returned
           (store_to_json
              (empty_store (Calendar.isoformat (clock (S (ticks st))))))
           st2
    /\ In (ErrorLoadingMemory, warn) (logged st2).
Proof.
  intros Hin He.
  pose proof (save_memory_cases clock st) as E. cbv zeta in E.
  assert (Hw : writable
                 (store_to_json
                    (mkStore (version (memory st))
                             (Calendar.isoformat (clock (ticks st)))
                             (categories (memory st))
                             (archive (memory st))))
               = false).
  { unfold store_to_json.
    cbn [writable forallb fst snd version last_updated categories archive].
    rewrite (unwritable_categories c e _ Hin He).
    now rewrite !andb_false_r. }
  rewrite Hw in E.
  eexists. eexists. split; [exact E|].
  cbn [memory disk logged ticks categories archive].
  split; [reflexivity|]. split; [reflexivity|]. split; [reflexivity|].
  unfold load_memory. run_monad. unfold _empty_memory. run_monad.
  split; [reflexivity|].
  rewrite !in_app_iff. simpl. tauto.
Qed.

(* ================================================================== *)
(** ** The further properties on the sample values *)
(* ================================================================== *)

Lemma reply_without_candidates_sample :
  (forall batch,
     replies_with (sample_loads []) (Response (Some "[]")) batch ->
     batch = [])
  /\ exists st',
       extract_and_store sample_clock (sample_loads []) "Hello" "Hi."
                         "planner" (Response (Some "[]")) sample_state
       = Returned tt st'
       /\ memory st' = memory sample_state
       /\ disk st' = disk sample_state
       /\ ticks st' = ticks sample_state.
Proof.
  assert (H : forall batch,
            replies_with (sample_loads []) (Response (Some "[]")) batch ->
            batch = []).
  { intros batch [text [_ E]]. unfold sample_loads in E.
    injection E as <-. reflexivity. }
  split; [exact H|].
  exact (reply_without_candidates_stores_nothing
           sample_clock (sample_loads []) "Hello" "Hi." "planner"
           (Response (Some "[]")) sample_state H).
Defined.

Lemma unsized_content_sample :
  replies_with (sample_loads [sample_new; sample_number])
               (Response (Some "[...]")) ([sample_new] ++ sample_number :: [])
  /\ Forall checkable [sample_new]
  /\ exists st',
       extract_and_store sample_clock (sample_loads [sample_new; sample_number])
                         "Karaoke?" "No." "planner" (Response (Some "[...]"))
                         sample_state
       = Raised TypeError st'
       /\ memory st' = memory sample_state
       /\ disk st' = disk sample_state
       /\ ticks st' = ticks sample_state.
Proof.
  assert (Hr : replies_with (sample_loads [sample_new; sample_number])
                            (Response (Some "[...]"))
                            ([sample_new] ++ sample_number :: [])).
  { exists "[...]". split; reflexivity. }
  assert (Hc : Forall checkable [sample_new]).
  { constructor; [exists true; reflexivity | constructor]. }
  split; [exact Hr | split; [exact Hc|]].
  exact (unsized_content_raises_type_error
           sample_clock (sample_loads [sample_new; sample_number])
           "Karaoke?" "No." "planner" (Response (Some "[...]"))
           [sample_new] [] sample_number (JInt 5) sample_state
           Hr Hc eq_refl eq_refl eq_refl eq_refl).
Defined.

Lemma unlowerable_content_sample :
  replies_with (sample_loads [sample_new; sample_listed; sample_short])
               (Response (Some "[...]"))
               ([sample_new] ++ sample_listed :: [sample_short])
  /\ Forall textual [sample_new]
  /\ Forall checkable [sample_short]
  /\ exists st',
       extract_and_store sample_clock
                         (sample_loads [sample_new; sample_listed; sample_short])
                         "Events?" "Four." "planner" (Response (Some "[...]"))
                         sample_state
       = Raised AttributeError st'
       /\ memory st' = memory sample_state
       /\ disk st' = disk sample_state
       /\ ticks st' = ticks sample_state.
Proof.
  assert (Hr : replies_with
                 (sample_loads [sample_new; sample_listed; sample_short])
                 (Response (Some "[...]"))
                 ([sample_new] ++ sample_listed :: [sample_short])).
  { exists "[...]". split; reflexivity. }
  assert (Ht : Forall textual [sample_new]) by (repeat constructor).
  assert (Hc : Forall checkable [sample_short]).
  { constructor; [exists false; reflexivity | constructor]. }
  assert (Hn : 3 < 4) by lia.
  split; [exact Hr | split; [exact Ht | split; [exact Hc|]]].
  exact (unlowerable_content_raises_attribute_error
           sample_clock (sample_loads [sample_new; sample_listed; sample_short])
           "Events?" "Four." "planner" (Response (Some "[...]"))
           [sample_new] [sample_short] sample_listed
           (JArr [JStr "Trivia"; JStr "Bingo"; JStr "Jazz"; JStr "Derby"])
           4 sample_state Hr Ht Hc eq_refl eq_refl eq_refl Hn eq_refl).
Defined.

Lemma reachable_keys_sample :
  reachable sample_clock (sample_loads [sample_new]) sample_after_turn
  /\ NoDup (map (fun e => normalized (content e))
                (active_entries (memory sample_after_turn))).
Proof.
  assert (Hr : reachable sample_clock (sample_loads [sample_new])
                         sample_after_turn).
  { unfold sample_after_turn. eapply reach_step.
    - apply reach_empty.
    - apply step_extract. }
  split; [exact Hr|].
  exact (reachable_keys_are_distinct
           sample_clock (sample_loads [sample_new]) sample_after_turn Hr).
Defined.

Lemma deduplicate_sample :
  Forall has_text [sample_new; sample_repeat; sample_new]
  /\ exists unique st',
       _deduplicate [sample_new; sample_repeat; sample_new] sample_state
       = Returned unique st'
       /\ memory st' = memory sample_state
       /\ NoDup (map candidate_key unique).
Proof.
  assert (Ht : Forall has_text [sample_new; sample_repeat; sample_new]).
  { repeat constructor; eexists; reflexivity. }
  split; [exact Ht|].
  destruct (deduplicate_returns_new_distinct_keys
              [sample_new; sample_repeat; sample_new] sample_state Ht)
    as [unique [st' [E [Hm [_ [Hd _]]]]]].
  exists unique, st'. split; [exact E | split; [exact Hm | exact Hd]].
Defined.

Lemma never_lost_sample :
  reaches sample_clock (sample_loads [sample_new]) sample_state
          sample_after_prune
  /\ exists more,
       archive (memory sample_after_prune)
       = (archive (memory sample_state) ++ more)%list.
Proof.
  assert (Hr : reaches sample_clock (sample_loads [sample_new]) sample_state
                       sample_after_prune).
  { unfold sample_after_prune. eapply reaches_step.
    - apply reaches_here.
    - apply step_prune. }
  split; [exact Hr|].
  exact (proj1 (stored_entries_are_never_lost
                  sample_clock (sample_loads [sample_new]) sample_state
                  sample_after_prune Hr)).
Defined.

Lemma prune_of_nothing_sample :
  Calendar.minus_days (sample_clock (ticks sample_after_turn)) 180
  = Some (mkDatetime 738820 12 0 0 3)
  /\ exists n st',
       prune_old_entries sample_clock 180 sample_after_turn = Returned n st'
       /\ (n = 0 -> memory st' = memory sample_after_turn)
       /\ disk st' = disk sample_after_turn.
Proof.
  assert (Hd : Calendar.minus_days (sample_clock (ticks sample_after_turn)) 180
               = Some (mkDatetime 738820 12 0 0 3)) by reflexivity.
  split; [exact Hd|].
  destruct (prune_of_nothing_changes_nothing
              sample_clock 180 sample_after_turn _ Hd)
    as [n [st' [E [_ [Hm Hk]]]]].
  exists n, st'. split; [exact E | split; [exact Hm | exact Hk]].
Defined.

Lemma snapshot_agrees_sample :
  extract_and_store sample_clock (sample_loads [sample_new])
                    "What about karaoke?" "Noted." "planner"
                    (Response (Some "[...]")) sample_start
  = Returned tt sample_after_turn
  /\ ((memory sample_after_turn = memory sample_start
       /\ disk sample_after_turn = disk sample_start)
      \/ disk sample_after_turn
         = Document (store_to_json (memory sample_after_turn))).
Proof.
  assert (E : extract_and_store sample_clock (sample_loads [sample_new])
                                "What about karaoke?" "Noted." "planner"
                                (Response (Some "[...]")) sample_start
              = Returned tt sample_after_turn)
    by (vm_compute; reflexivity).
  split; [exact E|].
  exact (snapshot_agrees_after_a_turn
           sample_clock (sample_loads [sample_new])
           "What about karaoke?" "Noted." "planner" (Response (Some "[...]"))
           sample_start sample_after_turn E).
Defined.

Lemma load_without_categories_sample :
  Py.lookup "categories" [("version", JInt 1)] = None
  /\ load_memory sample_clock
       (mkState sample_store (Document (JObj [("version", JInt 1)])) [] 0)
     = Returned (JObj [("version", JInt 1)])
         (mkState sample_store (Document (JObj [("version", JInt 1)]))
                  [(LoadingMemory, info); (LoadedEntries 0, ok)] 0).
Proof.
  assert (H : Py.lookup "categories" [("version", JInt 1)] = None)
    by reflexivity.
  split; [exact H|].
  exact (load_memory_accepts_object_without_categories
           sample_clock [("version", JInt 1)] sample_store [] 0 H).
Defined.

Lemma fenced_reply_sample :
  PyStr.after_newline "json" = None
  /\ PyStr.startswith "json" (PyStr.strip " [1, 2] ") = false
  /\ unfenced ("```" ++ "json" ++ nl ++ " [1, 2] " ++ nl ++ "```")
     = PyStr.strip " [1, 2] ".
Proof.
  assert (H1 : PyStr.after_newline "json" = None) by reflexivity.
  assert (H2 : PyStr.startswith "json" (PyStr.strip " [1, 2] ") = false)
    by reflexivity.
  split; [exact H1 | split; [exact H2|]].
  exact (fenced_reply_is_unwrapped "json" " [1, 2] " H1 H2).
Defined.

Lemma key_sample :
  PyStr.strip "Prefers craft beer" = "Prefers craft beer"
  /\ PyStr.lower "PREFERS Craft Beer" = PyStr.lower "Prefers craft beer"
  /\ normalized ("  " ++ "PREFERS Craft Beer" ++ PyStr.replicate 3 "."
                 ++ " ")
     = normalized "Prefers craft beer".
Proof.
  assert (H1 : PyStr.strip "Prefers craft beer" = "Prefers craft beer")
    by reflexivity.
  assert (H2 : PyStr.lower "PREFERS Craft Beer"
               = PyStr.lower "Prefers craft beer") by reflexivity.
  split; [exact H1 | split; [exact H2|]].
  exact (key_ignores_case_space_and_periods
           "Prefers craft beer" "PREFERS Craft Beer" "  " " " 3
           H1 H2 eq_refl eq_refl).
Defined.

Lemma accepted_insights_sample :
  replies_with (sample_loads [sample_new; sample_short])
               (Response (Some "[...]")) [sample_new; sample_short]
  /\ Forall textual [sample_new; sample_short]
  /\ accepts sample_new = true
  /\ exists c e,
       normalized (content e) = candidate_key sample_new
       /\ (In e (entries_of c
                   (categories
                      (memory
                         (state_after
                            (extract_and_store
                               sample_clock
                               (sample_loads [sample_new; sample_short])
                               "Karaoke?" "No." "planner"
                               (Response (Some "[...]")) sample_state)))))
           \/ exists x,
                In x (archive
                        (memory
                           (state_after
                              (extract_and_store
                                 sample_clock
                                 (sample_loads [sample_new; sample_short])
                                 "Karaoke?" "No." "planner"
                                 (Response (Some "[...]")) sample_state))))
                /\ entry_of x = e /\ original_category x = c).
Proof.
  assert (Hr : replies_with (sample_loads [sample_new; sample_short])
                            (Response (Some "[...]"))
                            [sample_new; sample_short]).
  { exists "[...]". split; reflexivity. }
  assert (Ht : Forall textual [sample_new; sample_short])
    by (repeat constructor).
  assert (Hin : In sample_new [sample_new; sample_short])
    by (left; reflexivity).
  assert (Ha : accepts sample_new = true) by reflexivity.
  split; [exact Hr | split; [exact Ht | split; [exact Ha|]]].
  exact (accepted_insights_end_up_stored
           sample_clock (sample_loads [sample_new; sample_short])
           "Karaoke?" "No." "planner" (Response (Some "[...]"))
           [sample_new; sample_short] sample_new sample_state
           Hr Ht Hin Ha).
Defined.

Lemma new_entries_sample :
  In sample_added
     (entries_of rejected_ideas
        (categories
           (memory
              (state_after
                 (extract_and_store sample_clock (sample_loads [sample_new])
                                    "What about karaoke?" "Noted." "planner"
                                    (Response (Some "[...]")) sample_start)))))
  /\ (In sample_added
         (entries_of rejected_ideas (categories (memory sample_start)))
      \/ (source_agent sample_added = "planner"
          /\ created sample_added
             = Some (Calendar.isoformat (sample_clock (ticks sample_start))))).
Proof.
  assert (H : In sample_added
                 (entries_of rejected_ideas
                    (categories
                       (memory
                          (state_after
                             (extract_and_store
                                sample_clock (sample_loads [sample_new])
                                "What about karaoke?" "Noted." "planner"
                                (Response (Some "[...]")) sample_start))))))
    by (vm_compute; left; reflexivity).
  split; [exact H|].
  exact (new_entries_carry_agent_and_stamp
           sample_clock (sample_loads [sample_new])
           "What about karaoke?" "Noted." "planner" (Response (Some "[...]"))
           sample_start rejected_ideas sample_added H).
Defined.

Lemma failed_extraction_sample :
  (service_fails (sample_loads [sample_short; sample_null])
                 (Response (Some "[...]"))
   \/ replies_with_no_list (sample_loads [sample_short; sample_null])
                           (Response (Some "[...]"))
   \/ exists batch,
        replies_with_rejects (sample_loads [sample_short; sample_null])
                             (Response (Some "[...]")) batch)
  /\ exists st',
       extract_and_store sample_clock (sample_loads [sample_short; sample_null])
                         "Beer?" "Craft." "planner" (Response (Some "[...]"))
                         sample_state
       = Returned tt st'
       /\ memory st' = memory sample_state
       /\ disk st' = disk sample_state.
Proof.
  assert (Hb : replies_with_rejects (sample_loads [sample_short; sample_null])
                                    (Response (Some "[...]"))
                                    [sample_short; sample_null]).
  { split; [exists "[...]"; split; reflexivity|].
    split; [discriminate|]. split.
    - apply Forall_cons; [intros _; exact I|].
      apply Forall_cons; [intros _; left; reflexivity | apply Forall_nil].
    - repeat constructor. }
  split; [right; right; exists [sample_short; sample_null]; exact Hb|].
  destruct (failed_extraction_changes_nothing
              sample_clock (sample_loads [sample_short; sample_null])
              "Beer?" "Craft." "planner" (Response (Some "[...]"))
              sample_state
              (or_intror (or_intror (ex_intro _ _ Hb))))
    as [st' [E [Hm [Hd _]]]].
  exists st'. split; [exact E | split; [exact Hm | exact Hd]].
Defined.

Lemma round_trip_sample :
  writable (store_to_json (memory sample_after_turn)) = true
  /\ exists st1 st2,
       save_memory sample_clock sample_after_turn = Returned tt st1
       /\ load_memory sample_clock st1
          = Returned (store_to_json (memory st1)) st2
       /\ memory st1
          = mkStore (version (memory sample_after_turn))
                    (Calendar.isoformat
                       (sample_clock (ticks sample_after_turn)))
                    (categories (memory sample_after_turn))
                    (archive (memory sample_after_turn)).
Proof.
  assert (Hw : writable (store_to_json (memory sample_after_turn)) = true)
    by (vm_compute; reflexivity).
  split; [exact Hw|].
  destruct (save_then_load_round_trip sample_clock sample_after_turn Hw)
    as [st1 [st2 [E1 [E2 [Hm _]]]]].
  exists st1, st2. split; [exact E1 | split; [exact E2 | exact Hm]].
Defined.

Lemma context_sample :
  exists st',
    get_memory_context sample_state
    = Returned
        (line_break
         ++ "--- OWNER MEMORY (Key Insights from Past Interactions) ---"
         ++ line_break
         ++ "[PREFERENCES]" ++ line_break
         ++ "- Prefers craft beer over imports" ++ line_break
         ++ "[OPS NOTES]" ++ line_break
         ++ "- Ice machine is serviced monthly" ++ line_break
         ++ "[PAST EVENTS]" ++ line_break
         ++ "- Open mic" ++ line_break
         ++ "- Bingo" ++ line_break
         ++ "- Jazz trio" ++ line_break
         ++ "- Oyster roast" ++ line_break
         ++ "- Derby party" ++ line_break
         ++ "--- END OWNER MEMORY ---" ++ line_break)
        st'
    /\ memory st' = memory sample_state.
Proof.
  destruct (proj1 (context_shows_last_five sample_state))
    as [st' [E [Hm _]]].
  exists st'. split; [exact E | exact Hm].
Defined.

Lemma context_bound_sample :
  Forall (fun e => line_breaks (content e) = 0)
         (active_entries (memory sample_state))
  /\ exists text st',
       get_memory_context sample_state = Returned text st'
       /\ line_breaks text <= 33.
Proof.
  assert (H : Forall (fun e => line_breaks (content e) = 0)
                     (active_entries (memory sample_state)))
    by (repeat constructor).
  split; [exact H|].
  exact (context_has_at_most_32_lines sample_state H).
Defined.

Lemma unencodable_content_sample :
  In (mkEntry "rej_001" ("No karaoke" ++ String PyStr.surrogate "")
              "planner" (Some "2024-04-24T12:00:00") (JStr "medium"))
     (entries_of rejected_ideas (categories (memory sample_after_bad_turn)))
  /\ exists st1,
       save_memory sample_clock sample_after_bad_turn
       = Raised UnicodeEncodeError st1
       /\ disk st1 = BadText
       /\ categories (memory st1)
          = categories (memory sample_after_bad_turn).
Proof.
  assert (Hin : In (mkEntry "rej_001"
                            ("No karaoke" ++ String PyStr.surrogate "")
                            "planner" (Some "2024-04-24T12:00:00")
                            (JStr "medium"))
                   (entries_of rejected_ideas
                      (categories (memory sample_after_bad_turn))))
    by (vm_compute; left; reflexivity).
  split; [exact Hin|].
  destruct (unencodable_content_breaks_the_snapshot
              sample_clock sample_after_bad_turn rejected_ideas _ Hin eq_refl)
    as [st1 [st2 [E [Hd [Hc _]]]]].
  exists st1. split; [exact E | split; [exact Hd | exact Hc]].
Defined.
